(** * ComprehensiveDeltaStrategy: grid, surface transform and calibrators

    A shallow embedding of the numerical core of
    [src/modules/tools/zprobe/ComprehensiveDeltaStrategy.cpp].

    Conventions.
    - A C [float] is idealised as an exact rational ([Q]): rounding,
      infinities and NaN are outside the model.  Equality of floats is
      therefore [Qeq] ([==]).  Module [Binary32] recomputes
      [get_adjust_z] and the layout of the grid in IEEE single
      precision; the statements about the grid are made for the grids
      whose coordinates are whole numbers ([whole_number_grid]), which
      single precision holds exactly.
    - A C [int] is a [Z]; array subscripts are [Z] and a read outside the
      allocated array yields [None] ([get_adjust_z_unchecked] reads the
      memory behind the array instead).
    - [sqrt] is not a rational function.  [distance2D] is only ever used
      in comparisons, so a distance is carried as its square
      ([dist]) and compared through the squares, which is exact for the
      non-negative reals.
    - The compile-time grid side [DM_GRID_DIMENSION] and the configured
      [probe_radius] are parameters of every definition that uses them. *)

From Stdlib Require Import QArith Qround Qabs Qminmax ZArith List Lia Lqa Bool.
From Stdlib Require Import Ascii.
From Stdlib Require String SpecFloat.
Import ListNotations.
Open Scope Q_scope.

(** * Part I: the program *)

(** ** Floats and small helpers *)

(** The C type [float]. *)
Abbreviation float := Q.

Definition Qlt_bool (a b : Q) : bool := negb (Qle_bool b a).

(** [std::min] and [std::max] on floats. *)
Definition fmin (a b : float) : float := if Qlt_bool b a then b else a.
Definition fmax (a b : float) : float := if Qlt_bool a b then b else a.

(** [clamp(n, lower, upper)]: [std::max(lower, std::min(n, upper))]. *)
Definition clamp (n lower upper : float) : float :=
  fmax lower (fmin n upper).

Definition fabs (a : float) : float := Qabs a.

(** A C [bool] made from a float: non-zero is [true]. *)
Definition bool_of_float (v : float) : bool := negb (Qeq_bool v 0).

(** Array read with a C [int] subscript: [None] outside the array. *)
Definition read {A : Type} (a : list A) (i : Z) : option A :=
  if (i <? 0)%Z then None else nth_error a (Z.to_nat i).

(** Array read by a loop counter that stays inside the array. *)
Definition get {A : Type} (dflt : A) (a : list A) (i : Z) : A :=
  nth (Z.to_nat i) a dflt.

(** Array write [a[i] = v]. *)
Fixpoint write_nat {A : Type} (a : list A) (i : nat) (v : A) : list A :=
  match a, i with
  | [], _ => []
  | _ :: t, O => v :: t
  | h :: t, S i' => h :: write_nat t i' v
  end.

Definition write {A : Type} (a : list A) (i : Z) (v : A) : list A :=
  if (i <? 0)%Z then a else write_nat a (Z.to_nat i) v.

(** The subscripts visited by [for(i = 0; i < n; i++)]. *)
Definition Zrange (n : Z) : list Z := map Z.of_nat (seq 0 (Z.to_nat n)).

(** Three-element float arrays, subscripted by [X], [Y], [Z]. *)
Definition vec3 := (float * float * float)%type.

Inductive axis := X | Y | Z_.

Definition vget (v : vec3) (k : axis) : float :=
  let '(x, y, z) := v in
  match k with X => x | Y => y | Z_ => z end.

Definition vset (v : vec3) (k : axis) (a : float) : vec3 :=
  let '(x, y, z) := v in
  match k with X => (a, y, z) | Y => (x, a, z) | Z_ => (x, y, a) end.

(** [std::minmax({a, b, c})] and [std::minmax({a, b, c, d})]:
    the pair (smallest, largest). *)
Definition minmax3 (a b c : float) : float * float :=
  (fmin (fmin a b) c, fmax (fmax a b) c).

Definition minmax4 (a b c e : float) : float * float :=
  (fmin (fmin (fmin a b) c) e, fmax (fmax (fmax a b) c) e).

(** ** Distances

    [distance2D] returns [sqrt(pow(dx, 2) + pow(dy, 2))].  The value is
    kept as the radicand; comparing two distances compares the
    radicands, and comparing a distance with a float [r] holds when
    [r] is non-negative and the radicand is at most [r * r]. *)

Record dist := mk_dist { dist_sq : Q }.

Definition point2 := (float * float)%type.

Definition distance2D (first second : point2) : dist :=
  mk_dist ((fst second - fst first) * (fst second - fst first) +
           (snd second - snd first) * (snd second - snd first)).

(** The float [r >= 0] seen as a distance. *)
Definition dist_of_float (r : float) : dist := mk_dist (r * r).

Definition dist_ltb (a b : dist) : bool := Qlt_bool (dist_sq a) (dist_sq b).

Definition dist_le_float (a : dist) (r : float) : bool :=
  Qle_bool 0 r && Qle_bool (dist_sq a) (r * r).

(** ** Surface transform (depth map and virtual shimming) *)

Record surface_transform_t := mk_surface_transform {
  depth          : list float;      (* AHB0 array of DM_GRID_ELEMENTS floats *)
  depth_enabled  : bool;
  have_depth_map : bool;
  plane_enabled  : bool;
  active         : bool;
  normal         : vec3;
  d              : float
}.

(** The scratch variables of the bilinear interpolation ([struct bili]). *)
Record bili_vars := mk_bili {
  array_x : float;  array_y : float;
  x1 : Z;  y1 : Z;  x2 : Z;  y2 : Z;
  st_Q11 : Z;  st_Q12 : Z;  st_Q21 : Z;  st_Q22 : Z
}.

(** Classification of a grid point and shape of the print surface. *)
Inductive active_point_t :=
  TP_CENTER | TP_ACTIVE | TP_ACTIVE_NEIGHBOR | TP_INACTIVE.

Inductive surface_shape_t := PSS_CIRCLE | PSS_SQUARE.

Definition active_point_eqb (a b : active_point_t) : bool :=
  match a, b with
  | TP_CENTER, TP_CENTER | TP_ACTIVE, TP_ACTIVE
  | TP_ACTIVE_NEIGHBOR, TP_ACTIVE_NEIGHBOR | TP_INACTIVE, TP_INACTIVE => true
  | _, _ => false
  end.

(** The member arrays [test_point] and [active_point]. *)
Record grid := mk_grid {
  test_point   : list point2;
  active_point : list active_point_t
}.

Definition origin : point2 := (0, 0).

Section Grid.

(** Side of the square grid (the header's [DM_GRID_DIMENSION]) and the
    configured probe radius. *)
Variable DM_GRID_DIMENSION : Z.
Variable probe_radius : float.

Definition DM_GRID_ELEMENTS : Z := (DM_GRID_DIMENSION * DM_GRID_DIMENSION)%Z.

(** [handleConfig]: [(DM_GRID_DIMENSION - 1) / (probe_radius * 2)]. *)
Definition cartesian_to_array_scaler : float :=
  inject_Z (DM_GRID_DIMENSION - 1) / (probe_radius * 2).

(** *** [get_adjust_z] *)

(** The clamping, array position, bounding box and the four subscripts
    computed by [get_adjust_z] before it reads the depth array. *)
Definition bili_setup (targetX targetY : float) : bili_vars :=
  let targetX := clamp targetX (- probe_radius) probe_radius in
  let targetY := clamp targetY (- probe_radius) probe_radius in
  let array_x := (targetX - - probe_radius) * cartesian_to_array_scaler in
  let array_y := (- targetY - - probe_radius) * cartesian_to_array_scaler in
  let x1 := Qfloor array_x in
  let y1 := Qfloor array_y in
  let x2 := (x1 + 1)%Z in
  let y2 := (y1 + 1)%Z in
  mk_bili array_x array_y x1 y1 x2 y2
    ((y1 * DM_GRID_DIMENSION) + x1)%Z
    ((y2 * DM_GRID_DIMENSION) + x1)%Z
    ((y1 * DM_GRID_DIMENSION) + x2)%Z
    ((y2 * DM_GRID_DIMENSION) + x2)%Z.

(** The interpolation proper, once the four heights are read. *)
Definition bili_result (b : bili_vars) (Q11 Q12 Q21 Q22 : float) : float :=
  let divisor := inject_Z (x2 b - x1 b) * inject_Z (y2 b - y1 b) in
  let first_term0 := Q11 / divisor in
  let first_term1 := Q21 / divisor in
  let first_term2 := Q12 / divisor in
  let first_term3 := Q22 / divisor in
  let x2_minus_x := inject_Z (x2 b) - array_x b in
  let x_minus_x1 := array_x b - inject_Z (x1 b) in
  let y2_minus_y := inject_Z (y2 b) - array_y b in
  let y_minus_y1 := array_y b - inject_Z (y1 b) in
  first_term0 * x2_minus_x * y2_minus_y +
  first_term1 * x_minus_x1 * y2_minus_y +
  first_term2 * x2_minus_x * y_minus_y1 +
  first_term3 * x_minus_x1 * y_minus_y1.

(** [get_adjust_z]: [None] when one of the four reads of
    [surface_transform.depth] falls outside the array. *)
Definition get_adjust_z (st : surface_transform_t)
           (targetX targetY : float) : option float :=
  let st_z_offset := 0 in
  let st_z_offset :=
    if plane_enabled st && active st then
      let '(nx, ny, nz) := normal st in
      ((- nx * targetX) - (ny * targetY) - d st) / nz
    else st_z_offset in
  if depth_enabled st && active st then
    let b := bili_setup targetX targetY in
    match read (depth st) (st_Q11 b), read (depth st) (st_Q12 b),
          read (depth st) (st_Q21 b), read (depth st) (st_Q22 b) with
    | Some Q11, Some Q12, Some Q21, Some Q22 =>
        Some (st_z_offset + bili_result b Q11 Q12 Q21 Q22)
    | _, _, _, _ => None
    end
  else Some st_z_offset.

(** *** [find_nearest_test_point] *)

(** One turn of the scan: [lowest] and [lowest_idx] are replaced when
    point [i] is active or the centre and strictly nearer. *)
Definition nearest_step (g : grid) (pos : point2)
           (acc : dist * Z) (i : Z) : dist * Z :=
  let '(lowest, lowest_idx) := acc in
  let tp := get origin (test_point g) i in
  let dist := distance2D pos tp in
  let a := get TP_INACTIVE (active_point g) i in
  if active_point_eqb a TP_ACTIVE || active_point_eqb a TP_CENTER then
    if dist_ltb dist lowest then (dist, i) else (lowest, lowest_idx)
  else (lowest, lowest_idx).

Definition find_nearest_test_point (g : grid) (pos : point2) : Z :=
  snd (fold_left (nearest_step g pos) (Zrange DM_GRID_ELEMENTS)
                 (dist_of_float 999, 0%Z)).

(** *** [init_test_points] *)

Definition point_spacing : float :=
  (probe_radius * 2) / inject_Z (DM_GRID_DIMENSION - 1).

(** [for(x = -probe_radius; x <= probe_radius; x += point_spacing)]:
    the points written for one [y]; [None] when the fuel runs out. *)
Fixpoint test_point_row (fuel : nat) (x y : float) : option (list point2) :=
  match fuel with
  | O => None
  | S f =>
      if Qle_bool x probe_radius then
        match test_point_row f (x + point_spacing) y with
        | Some l => Some ((x, y) :: l)
        | None => None
        end
      else Some []
  end.

(** [for(y = probe_radius; y >= -probe_radius; y -= point_spacing)]. *)
Fixpoint test_point_rows (fuel_x fuel : nat) (y : float)
  : option (list point2) :=
  match fuel with
  | O => None
  | S f =>
      if Qle_bool (- probe_radius) y then
        match test_point_row fuel_x (- probe_radius) y,
              test_point_rows fuel_x f (y - point_spacing) with
        | Some r, Some l => Some (r ++ l)
        | _, _ => None
        end
      else Some []
  end.

Definition neighboring_probe_radius : float :=
  probe_radius + (probe_radius / inject_Z (Z.quot (DM_GRID_DIMENSION - 1) 2)).

(** The body of the classification loops for grid position [(x, y)]. *)
Definition classify (surface_shape : surface_shape_t)
           (tp : list point2) (y x : Z) : active_point_t :=
  let dm_pos := ((y * DM_GRID_DIMENSION) + x)%Z in
  match surface_shape with
  | PSS_CIRCLE =>
      if dist_le_float (distance2D origin (get origin tp dm_pos)) probe_radius
      then TP_ACTIVE
      else
        if dist_le_float (distance2D origin (get origin tp dm_pos))
                         neighboring_probe_radius
           && negb (y =? 0)%Z
           && negb (y =? DM_GRID_DIMENSION - 1)%Z
           && negb (y =? - (DM_GRID_DIMENSION - 1))%Z
        then TP_ACTIVE_NEIGHBOR
        else TP_INACTIVE
  | PSS_SQUARE => TP_ACTIVE
  end.

(** The nested loops over [y] and [x] write [active_point[dm_pos]] for
    [dm_pos = 0, 1, ...] in this order. *)
Definition classify_all (surface_shape : surface_shape_t)
           (tp : list point2) : list active_point_t :=
  flat_map (fun y => map (fun x => classify surface_shape tp y x)
                         (Zrange DM_GRID_DIMENSION))
           (Zrange DM_GRID_DIMENSION).

(** [init_test_points], as far as [test_point] and [active_point] go
    (the tower points and the shimming triangle are set afterwards and
    touch neither array).  [None]: a loop ran out of fuel, or the
    first loops did not write exactly [DM_GRID_ELEMENTS] points. *)
Definition init_test_points (fuel : nat) (surface_shape : surface_shape_t)
  : option grid :=
  match test_point_rows fuel fuel probe_radius with
  | None => None
  | Some tp =>
      if (Z.of_nat (List.length tp) =? DM_GRID_ELEMENTS)%Z then
        let ap := classify_all surface_shape tp in
        let g := mk_grid tp ap in
        Some (mk_grid tp (write ap (find_nearest_test_point g origin) TP_CENTER))
      else None
  end.

(** *** [calc_energy] *)

Definition calc_energy_step (ap : list active_point_t)
           (cartesian : list vec3) (acc : float * Z) (stats : Z) : float * Z :=
  let '(mu, i) := acc in
  if active_point_eqb (get TP_INACTIVE ap stats) TP_ACTIVE then
    (mu + fabs (vget (get (0, 0, 0) cartesian stats) Z_), (i + 1)%Z)
  else (mu, i).

Definition calc_energy (ap : list active_point_t)
           (cartesian : list vec3) : float :=
  let '(mu, i) :=
    fold_left (calc_energy_step ap cartesian) (Zrange DM_GRID_ELEMENTS)
              (0, 0%Z) in
  mu / inject_Z i.

End Grid.

(** *** [get_adjust_z] with unchecked reads *)

Section Unchecked.

Variable DM_GRID_DIMENSION : Z.
Variable probe_radius : float.

(** A read [a[i]] as the machine performs it: there is no bounds check,
    so a subscript outside the array yields the float that lies at that
    address, [beyond i]. *)
Definition peek (beyond : Z -> float) (a : list float) (i : Z) : float :=
  match read a i with
  | Some v => v
  | None => beyond i
  end.

(** [get_adjust_z] with its four reads of [surface_transform.depth]
    unchecked. *)
Definition get_adjust_z_unchecked (beyond : Z -> float)
           (st : surface_transform_t) (targetX targetY : float) : float :=
  let st_z_offset := 0 in
  let st_z_offset :=
    if plane_enabled st && active st then
      let '(nx, ny, nz) := normal st in
      ((- nx * targetX) - (ny * targetY) - d st) / nz
    else st_z_offset in
  if depth_enabled st && active st then
    let b := bili_setup DM_GRID_DIMENSION probe_radius targetX targetY in
    let Q11 := peek beyond (depth st) (st_Q11 b) in
    let Q12 := peek beyond (depth st) (st_Q12 b) in
    let Q21 := peek beyond (depth st) (st_Q21 b) in
    let Q22 := peek beyond (depth st) (st_Q22 b) in
    st_z_offset + bili_result b Q11 Q12 Q21 Q22
  else st_z_offset.

End Unchecked.

(** ** Simulated annealing ([heuristic_calibration]) *)

Record KinematicSettings := mk_KinematicSettings {
  initialized      : bool;
  delta_radius     : float;
  arm_length       : float;
  trim             : vec3;
  tower_radius     : vec3;
  tower_angle      : vec3;
  tower_arm        : vec3;
  virtual_shimming : vec3
}.

Definition with_delta_radius (s : KinematicSettings) (v : float) :=
  mk_KinematicSettings (initialized s) v (arm_length s) (trim s)
    (tower_radius s) (tower_angle s) (tower_arm s) (virtual_shimming s).

Definition with_trim (s : KinematicSettings) (v : vec3) :=
  mk_KinematicSettings (initialized s) (delta_radius s) (arm_length s) v
    (tower_radius s) (tower_angle s) (tower_arm s) (virtual_shimming s).

Definition with_tower_radius (s : KinematicSettings) (v : vec3) :=
  mk_KinematicSettings (initialized s) (delta_radius s) (arm_length s) (trim s)
    v (tower_angle s) (tower_arm s) (virtual_shimming s).

Definition with_tower_angle (s : KinematicSettings) (v : vec3) :=
  mk_KinematicSettings (initialized s) (delta_radius s) (arm_length s) (trim s)
    (tower_radius s) v (tower_arm s) (virtual_shimming s).

(** The arm solution's option map ([options['L']], ...): a missing key
    reads as 0, as [operator[]] gives. *)
Definition arm_options := ascii -> float.

Definition opt_set (o : arm_options) (c : ascii) (v : float)
  : arm_options :=
  fun c' => if Ascii.eqb c' c then v else o c'.

(** What the annealer reads and writes: its working set [cur_set], the
    options it pushed to the arm solution with [set_optional], the
    arguments of its calls to the trim store (latest first) and the
    number of calls to [rand] so far. *)
Record machine := mk_machine {
  cur_set        : KinematicSettings;
  options        : arm_options;
  set_trim_calls : list vec3;
  rand_calls     : nat
}.

Definition with_cur_set (m : machine) (s : KinematicSettings) : machine :=
  mk_machine s (options m) (set_trim_calls m) (rand_calls m).

Definition with_options (m : machine) (o : arm_options) : machine :=
  mk_machine (cur_set m) o (set_trim_calls m) (rand_calls m).

(** [set_trim(x, y, z)]: hands the three values to the trim store. *)
Definition set_trim (x y z : float) (m : machine) : machine :=
  mk_machine (cur_set m) (options m) ((x, y, z) :: set_trim_calls m)
             (rand_calls m).

(** [set_delta_radius], [set_arm_length], [set_tower_radius_offsets] and
    [set_tower_angle_offsets] store into the option map and push it to
    the arm solution; [update] only re-expresses the axis position. *)
Definition set_delta_radius (delta_radius : float) (update : bool)
           (m : machine) : machine :=
  with_options m (opt_set (options m) "R"%char delta_radius).

Definition set_arm_length (arm_length : float) (update : bool)
           (m : machine) : machine :=
  with_options m (opt_set (options m) "L"%char arm_length).

Definition set_tower_radius_offsets (x y z : float) (update : bool)
           (m : machine) : machine :=
  with_options m
    (opt_set (opt_set (opt_set (options m) "A"%char x) "B"%char y) "C"%char z).

Definition set_tower_angle_offsets (x y z : float) (update : bool)
           (m : machine) : machine :=
  with_options m
    (opt_set (opt_set (opt_set (options m) "D"%char x) "E"%char y) "F"%char z).

(** [set_test_trim]: writes [cur_set.trim] only. *)
Definition set_test_trim (x y z : float) (dummy : bool)
           (m : machine) : machine :=
  with_cur_set m (with_trim (cur_set m) (x, y, z)).

(** A [float values[3]] argument that points into [cur_set]. *)
Record values_ref := mk_values_ref {
  values_get : machine -> vec3;
  values_set : machine -> vec3 -> machine
}.

Definition tower_radius_ref : values_ref :=
  mk_values_ref (fun m => tower_radius (cur_set m))
    (fun m v => with_cur_set m (with_tower_radius (cur_set m) v)).

Definition tower_angle_ref : values_ref :=
  mk_values_ref (fun m => tower_angle (cur_set m))
    (fun m v => with_cur_set m (with_tower_angle (cur_set m) v)).

Definition trim_ref : values_ref :=
  mk_values_ref (fun m => trim (cur_set m))
    (fun m v => with_cur_set m (with_trim (cur_set m) v)).

Section Annealing.

(** [simulate_FK_and_get_energy(test_axis, cur_set.trim, cartesian)]:
    the forward kinematics belong to the arm solution, so the energy
    of a machine state is a parameter. *)
Variable simulate_FK_and_get_energy : machine -> float.

(** [(float)rand() / RAND_MAX] at the n-th call of [rand]. *)
Variable rand_frac : nat -> float.

(** The narrowing at the end of one turn of the binary search. *)
Definition narrow (energy_min energy_max min max binsearch_width : float)
  : float * float :=
  let max := if Qlt_bool energy_min energy_max
             then max - ((max - min) * binsearch_width) else max in
  let min := if Qlt_bool energy_max energy_min
             then min + ((max - min) * binsearch_width) else min in
  (min, max).

(** [find_optimal_config], float version: [j] turns are left. *)
Fixpoint find_optimal_loop (j : nat)
         (test_function : float -> bool -> machine -> machine)
         (min max binsearch_width target : float) (m : machine)
  : float * float * machine :=
  match j with
  | O => (min, max, m)
  | S j' =>
      let m := test_function min true m in
      let energy_min := simulate_FK_and_get_energy m in
      let m := test_function max true m in
      let energy_max := simulate_FK_and_get_energy m in
      if Qle_bool (max - min) target then (min, max, m)
      else
        let '(min, max) := narrow energy_min energy_max min max binsearch_width in
        find_optimal_loop j' test_function min max binsearch_width target m
  end.

Definition find_optimal_config
           (test_function : float -> bool -> machine -> machine)
           (min max binsearch_width target : float) (m : machine)
  : float * machine :=
  let '(min, max, m) :=
    find_optimal_loop 250 test_function min max binsearch_width target m in
  ((min + max) / 2, m).

(** [find_optimal_config], float[3] version. *)
Fixpoint find_optimal_loop3 (j : nat)
         (test_function : float -> float -> float -> bool -> machine -> machine)
         (values : values_ref) (value_idx : axis)
         (min max binsearch_width target : float) (m : machine)
  : float * float * machine :=
  match j with
  | O => (min, max, m)
  | S j' =>
      let m := values_set values m (vset (values_get values m) value_idx min) in
      let '(vx, vy, vz) := values_get values m in
      let m := test_function vx vy vz true m in
      let energy_min := simulate_FK_and_get_energy m in
      let m := values_set values m (vset (values_get values m) value_idx max) in
      let '(vx, vy, vz) := values_get values m in
      let m := test_function vx vy vz true m in
      let energy_max := simulate_FK_and_get_energy m in
      if Qle_bool (max - min) target then (min, max, m)
      else
        let '(min, max) := narrow energy_min energy_max min max binsearch_width in
        find_optimal_loop3 j' test_function values value_idx
                           min max binsearch_width target m
  end.

Definition find_optimal_config3
           (test_function : float -> float -> float -> bool -> machine -> machine)
           (values : values_ref) (value_idx : axis)
           (min max binsearch_width target : float) (m : machine)
  : float * machine :=
  let save_val := vget (values_get values m) value_idx in
  let '(min, max, m) :=
    find_optimal_loop3 250 test_function values value_idx
                       min max binsearch_width target m in
  let m := values_set values m (vset (values_get values m) value_idx save_val) in
  ((min + max) / 2, m).

(** [move_randomly_towards]: the new [value]; one call of [rand]. *)
Definition move_randomly_towards (value best temp target overrun_divisor : float)
           (m : machine) : float * machine :=
  let step := (rand_frac (rand_calls m) * temp) + (1 # 1000) in
  let m := mk_machine (cur_set m) (options m) (set_trim_calls m)
                      (S (rand_calls m)) in
  let '(value, step) :=
    if Qlt_bool (value + target) best then
      let step := if Qlt_bool best (value + step)
                  then step / overrun_divisor else step in
      (value + step, step)
    else (value, step) in
  let value :=
    if Qlt_bool best (value - target) then
      let step := if Qlt_bool (value - step) best
                  then step / overrun_divisor else step in
      value - step
    else value in
  (value, m).

Section InnerLoop.

(** The arguments of [heuristic_calibration] after clamping, the
    temperature of the current try and the multipliers of the groups. *)
Variables binsearch_width overrun_divisor temp : float.
Variables delta_radius_mul endstop_mul : float.

(** [float target = 0.005]. *)
Definition target : float := 5 # 1000.

(** One turn of the loop [for(k=0; k<3; k++)] of a three-offset group:
    binary search on offset [k], then a random step towards it. *)
Definition adjust_offset
           (test_function : float -> float -> float -> bool -> machine -> machine)
           (values : values_ref) (range_min range_max mul : float)
           (m : machine) (k : axis) : machine :=
  let '(best_value, m) :=
    find_optimal_config3 test_function values k range_min range_max
                         binsearch_width target m in
  let '(v, m) :=
    move_randomly_towards (vget (values_get values m) k) best_value
                          (temp * mul) target overrun_divisor m in
  values_set values m (vset (values_get values m) k v).

(** "Find the tower radius with the lowest absolute value". *)
Definition lowest_of (tower_radius : vec3) : float :=
  fold_left (fun lowest k =>
               if Qlt_bool (fabs (vget tower_radius k)) lowest
               then vget tower_radius k else lowest)
            [X; Y; Z_] 999.

(** "Steal that value from the individual radius settings and give it
    to the global radius setting". *)
Definition steal_lowest (s : KinematicSettings) : KinematicSettings :=
  let lowest := lowest_of (tower_radius s) in
  let '(rx, ry, rz) := tower_radius s in
  with_delta_radius
    (with_tower_radius s (rx - lowest, ry - lowest, rz - lowest))
    (delta_radius s + lowest).

(** The block [if(caltype.delta_radius.active)]. *)
Definition delta_radius_group (m : machine) : machine :=
  let m := fold_left (adjust_offset set_tower_radius_offsets tower_radius_ref
                                    (-3) 3 delta_radius_mul)
                     [X; Y; Z_] m in
  let m := with_cur_set m (steal_lowest (cur_set m)) in
  let m := set_delta_radius (delta_radius (cur_set m)) false m in
  let '(rx, ry, rz) := tower_radius (cur_set m) in
  set_tower_radius_offsets rx ry rz false m.

(** The block [if(caltype.endstop.active)]: the trims are handed to the
    trim store as adjusted. *)
Definition endstop_group (m : machine) : machine :=
  let m := fold_left (adjust_offset set_test_trim trim_ref (-5) 0 endstop_mul)
                     [X; Y; Z_] m in
  let '(tx, ty, tz) := trim (cur_set m) in
  set_trim tx ty tz m.

(** The block [if(caltype.tower_angle.active)]; its random step uses
    the multiplier of the endstop group. *)
Definition tower_angle_adjust (m : machine) : machine :=
  fold_left (adjust_offset set_tower_angle_offsets tower_angle_ref
                           (-3) 3 endstop_mul)
            [X; Y; Z_] m.

Definition tower_angle_group (m : machine) : machine :=
  let m := tower_angle_adjust m in
  let '(ax, ay, az) := tower_angle (cur_set m) in
  set_tower_angle_offsets ax ay az false m.

End InnerLoop.

(** "Normalize trim (this prevents downward creep)", after the loops. *)
Definition normalize_trim (m : machine) : machine :=
  let '(tx, ty, tz) := trim (cur_set m) in
  let mm := minmax3 tx ty tz in
  let tx := tx - snd mm in
  let ty := ty - snd mm in
  let tz := tz - snd mm in
  set_trim tx ty tz (with_cur_set m (with_trim (cur_set m) (tx, ty, tz))).

End Annealing.

(** ** Control flow helper: an early [return b], or falling out of the
    end of a block, each with the state reached. *)
Inductive outcome (A : Type) :=
| Return (b : bool) (a : A)
| Next (a : A).
Arguments Return {A} b a.
Arguments Next {A} a.

(** ** Iterative calibration ([iterative_calibration]) *)

Module Iterative.

(** The trim store and the arm solution as the routine sees them, the
    arguments of its calls to [set_trim] (latest first), the two
    function statics of the endstop block and the flags of [caltype]. *)
Record state := mk_state {
  trim_store                : option vec3;   (* [None]: the query fails *)
  delta_radius_store        : option float;  (* [None]: the query fails *)
  set_trim_calls            : list vec3;
  last_deviation            : float;
  trimscale                 : float;
  endstop_needs_reset       : bool;
  endstop_in_tolerance      : bool;
  delta_radius_in_tolerance : bool
}.

Definition get_trim (s : state) : option vec3 := trim_store s.

Definition set_trim (x y z : float) (s : state) : state :=
  mk_state (match trim_store s with Some _ => Some (x, y, z) | None => None end)
           (delta_radius_store s) ((x, y, z) :: set_trim_calls s)
           (last_deviation s) (trimscale s) (endstop_needs_reset s)
           (endstop_in_tolerance s) (delta_radius_in_tolerance s).

Definition get_delta_radius (s : state) : option float := delta_radius_store s.

Definition set_delta_radius (r : float) (s : state) : state :=
  mk_state (trim_store s)
           (match delta_radius_store s with Some _ => Some r | None => None end)
           (set_trim_calls s)
           (last_deviation s) (trimscale s) (endstop_needs_reset s)
           (endstop_in_tolerance s) (delta_radius_in_tolerance s).

Definition with_statics (s : state) (ld ts : float) (nr : bool) : state :=
  mk_state (trim_store s) (delta_radius_store s) (set_trim_calls s)
           ld ts nr (endstop_in_tolerance s) (delta_radius_in_tolerance s).

Definition with_endstop_in_tolerance (s : state) (b : bool) : state :=
  mk_state (trim_store s) (delta_radius_store s) (set_trim_calls s)
           (last_deviation s) (trimscale s) (endstop_needs_reset s)
           b (delta_radius_in_tolerance s).

Definition with_delta_radius_in_tolerance (s : state) (b : bool) : state :=
  mk_state (trim_store s) (delta_radius_store s) (set_trim_calls s)
           (last_deviation s) (trimscale s) (endstop_needs_reset s)
           (endstop_in_tolerance s) b.

(** [float depth[4]], indexed by [TP_CTR], [TP_X], [TP_Y], [TP_Z]. *)
Record depths := mk_depths {
  d_CTR : float;  d_X : float;  d_Y : float;  d_Z : float
}.

(** [float target = 0.03]. *)
Definition target : float := 3 # 100.

(** "Sanity-check the trim": [if(trim[k] > 0) trim[k] = 0]. *)
Definition cap0 (t : float) : float := if Qlt_bool 0 t then 0 else t.

(** The block [if(caltype.endstop.active)] of one iteration. *)
Definition endstop_block (depth : depths) (tower_minmax : float * float)
           (tower_deviation : float) (s : state) : outcome state :=
  let s := if endstop_needs_reset s
           then with_statics s 999 (13 # 10) false else s in
  if Qle_bool (fabs tower_deviation) target then
    Next (with_endstop_in_tolerance s true)
  else
    let s := with_endstop_in_tolerance s false in
    match get_trim s with
    | None => Return false s
    | Some (tx, ty, tz) =>
        let tx := cap0 tx in
        let ty := cap0 ty in
        let tz := cap0 tz in
        if Qlt_bool tx (-5) || Qlt_bool ty (-5) || Qlt_bool tz (-5) then
          Return false s
        else
          let s :=
            if Qle_bool (last_deviation s) tower_deviation
               && Qle_bool (9 # 10) (trimscale s * (95 # 100))
            then with_statics s (last_deviation s) (trimscale s * (9 # 10))
                              (endstop_needs_reset s)
            else s in
          let s := with_statics s tower_deviation (trimscale s)
                                (endstop_needs_reset s) in
          let tx := tx + (fst tower_minmax - d_X depth) * trimscale s in
          let ty := ty + (fst tower_minmax - d_Y depth) * trimscale s in
          let tz := tz + (fst tower_minmax - d_Z depth) * trimscale s in
          let mm := minmax3 tx ty tz in
          let tx := tx - snd mm in
          let ty := ty - snd mm in
          let tz := tz - snd mm in
          Next (set_trim tx ty tz s)
    end.

(** The block [if(caltype.delta_radius.active)] of one iteration. *)
Definition delta_radius_block (depth : depths) (s : state) : outcome state :=
  let dr_factor := 2 in
  match get_delta_radius s with
  | None => Return false s
  | Some delta_radius =>
      let avg := (d_X depth + d_Y depth + d_Z depth) / 3 in
      let deviation := d_CTR depth - avg in
      if Qle_bool (fabs deviation) target then
        Next (with_delta_radius_in_tolerance s true)
      else
        let s := with_delta_radius_in_tolerance s false in
        let delta_radius := delta_radius + (deviation * dr_factor) in
        Next (set_delta_radius delta_radius s)
  end.

Section Loop.

(** The probing of one iteration ([prime_probe] and four [do_probe_at]):
    the four depths, or [None] when a probe fails. *)
Variable probe : nat -> state -> option depths.

(** The body of the main loop: the early return, or the state at the
    end of the iteration. *)
Definition iteration (outer_i : nat) (s : state) : outcome state :=
  match probe outer_i s with
  | None => Return false s
  | Some depth =>
      let tower_minmax :=
        minmax4 (d_CTR depth) (d_X depth) (d_Y depth) (d_Z depth) in
      let tower_deviation := snd tower_minmax - fst tower_minmax in
      match endstop_block depth tower_minmax tower_deviation s with
      | Return b s => Return b s
      | Next s =>
          match delta_radius_block depth s with
          | Return b s => Return b s
          | Next s =>
              if endstop_in_tolerance s && delta_radius_in_tolerance s
              then Return true s
              else Next s
          end
      end
  end.

(** [for(int outer_i = 0; outer_i < 20; outer_i++)], [left] turns to go;
    the result is the returned flag and the state on return. *)
Fixpoint main_loop (left outer_i : nat) (s : state) : bool * state :=
  match left with
  | O => (true, s)                  (* "Maximum tries exceeded" *)
  | S left' =>
      match iteration outer_i s with
      | Return b s => (b, s)
      | Next s => main_loop left' (S outer_i) s
      end
  end.

Definition iterative_calibration (keep_settings : bool) (s : state)
  : bool * state :=
  let s := if keep_settings then s else set_trim 0 0 0 s in
  main_loop 20 0 s.

End Loop.

End Iterative.

(** ** Loading the depth map ([M667 E], [handle_shimming_and_depth_correction]) *)

Record Gcode := mk_Gcode {
  has_letter : ascii -> bool;
  get_value  : ascii -> float
}.

(** "Chop trailing newline": the buffer ends at its first line feed. *)
Fixpoint chop_newline (buf : String.string) : String.string :=
  match buf with
  | String.EmptyString => String.EmptyString
  | String.String c r =>
      if Ascii.eqb c "010"%char then String.EmptyString
      else String.String c (chop_newline r)
  end.

(** [buf[0] == ';']. *)
Definition is_comment (buf : String.string) : bool :=
  match buf with
  | String.String c _ => Ascii.eqb c ";"%char
  | String.EmptyString => false
  end.

Section DepthMapLoad.

Variable DM_GRID_DIMENSION : Z.

(** The C library's [atof] and [strtof]. *)
Variable atof : String.string -> float.
Variable strtof : String.string -> float.

(** [initDepthMapRAM] when the allocation succeeds. *)
Definition initDepthMapRAM (st : surface_transform_t) : surface_transform_t :=
  mk_surface_transform
    (repeat 0 (Z.to_nat (DM_GRID_ELEMENTS DM_GRID_DIMENSION)))
    (depth_enabled st) (have_depth_map st) (plane_enabled st) (active st)
    (normal st) (d st).

Definition with_depth (st : surface_transform_t) (dp : list float) :=
  mk_surface_transform dp (depth_enabled st) (have_depth_map st)
    (plane_enabled st) (active st) (normal st) (d st).

Definition with_depth_enabled (st : surface_transform_t) (b : bool) :=
  mk_surface_transform (depth st) b (have_depth_map st)
    (plane_enabled st) (active st) (normal st) (d st).

Definition with_have_depth_map (st : surface_transform_t) (b : bool) :=
  mk_surface_transform (depth st) (depth_enabled st) b
    (plane_enabled st) (active st) (normal st) (d st).

(** [set_adjust_function(on)] as far as the surface transform goes. *)
Definition set_adjust_function (on : bool) (st : surface_transform_t) :=
  mk_surface_transform (depth st) (depth_enabled st) (have_depth_map st)
    (plane_enabled st) on (normal st) (d st).

(** [while(fgets(buf, sizeof buf, fp) != NULL)]: [bufs] are the
    successive contents of [buf].  [inl (i, depth)]: the element that
    stopped the load and the array then; [inr (i, depth)]: the end of
    the file was reached. *)
Fixpoint read_values (bufs : list String.string) (i : Z) (dp : list float)
  : (Z * list float) + (Z * list float) :=
  match bufs with
  | [] => inr (i, dp)
  | buf :: rest =>
      let buf := chop_newline buf in
      if is_comment buf then read_values rest i dp
      else if (i <? DM_GRID_ELEMENTS DM_GRID_DIMENSION)%Z then
        let fval := atof buf in
        if Qlt_bool (-5) fval && Qlt_bool fval 5 then
          read_values rest (i + 1)%Z (write dp i (strtof buf))
        else inl (i, dp)
      else read_values rest i dp
  end.

(** The block [if(gcode->has_letter('E'))].  [alloc_ok]: the AHB0
    allocation succeeds; [file]: what [fopen] and the reads give,
    [None] when the file cannot be opened. *)
Definition depth_map_block (gcode : Gcode) (probe_offset_x probe_offset_y : float)
           (alloc_ok : bool) (file : option (list String.string))
           (st : surface_transform_t) : outcome surface_transform_t :=
  if has_letter gcode "E"%char then
    if Qeq_bool probe_offset_x 0 && Qeq_bool probe_offset_y 0 then
      if have_depth_map st then
        Next (with_depth_enabled st (bool_of_float (get_value gcode "E"%char)))
      else
        if negb alloc_ok then Return false (with_depth st [])
        else
          let st := initDepthMapRAM st in
          match file with
          | Some bufs =>
              match read_values bufs 0 (depth st) with
              | inl (i, dp) =>
                  Return false (with_depth_enabled (with_depth st dp) false)
              | inr (i, dp) =>
                  let st := with_depth st dp in
                  if negb (i =? DM_GRID_ELEMENTS DM_GRID_DIMENSION)%Z then
                    Next (with_depth_enabled (with_have_depth_map st false) false)
                  else
                    let st := with_depth_enabled st
                                (bool_of_float (get_value gcode "E"%char)) in
                    if depth_enabled st then
                      Next (set_adjust_function true (with_depth_enabled st true))
                    else Next (with_depth_enabled st false)
              end
          | None => Next st
          end
    else Next st
  else Next st.

(** The block [if(gcode->has_letter('Z'))]: the global enable. *)
Definition global_enable_block (gcode : Gcode) (st : surface_transform_t)
  : surface_transform_t :=
  if has_letter gcode "Z"%char then
    if bool_of_float (get_value gcode "Z"%char) then
      if depth_enabled st || plane_enabled st
      then set_adjust_function true st else st
    else set_adjust_function false st
  else st.

(** [handle_shimming_and_depth_correction] from the depth-map block on;
    [st] is the surface transform once the letters A to D are handled
    (they set the shimming triangle, the plane and the master switch,
    never the depth fields). *)
Definition handle_depth_correction (gcode : Gcode)
           (probe_offset_x probe_offset_y : float)
           (alloc_ok : bool) (file : option (list String.string))
           (st : surface_transform_t) : bool * surface_transform_t :=
  match depth_map_block gcode probe_offset_x probe_offset_y alloc_ok file st with
  | Return b st => (b, st)
  | Next st => (true, global_enable_block gcode st)
  end.

End DepthMapLoad.

(** ** [get_adjust_z] and the grid in IEEE binary32

    The same clamping, scaling, [floor] and interpolation as in
    [get_adjust_z], computed with correctly rounded single-precision
    operations, to evaluate the inputs at which rounding decides the
    interpolation box.  The bounding box holds small integers, which
    binary32 represents exactly, so the subscripts are formed in [Z].
    The loops that lay out the grid are recomputed too: their number of
    turns depends on the rounding of the accumulated coordinate. *)
Module Binary32.

Import SpecFloat.

Definition prec : Z := 24.
Definition emax : Z := 128.

Definition f32 := spec_float.

(** The float nearest to an [int]. *)
Definition of_int (z : Z) : f32 := binary_normalize prec emax z 0 false.

Definition sub (a b : f32) : f32 := SFsub prec emax a b.
Definition mul (a b : f32) : f32 := SFmul prec emax a b.
Definition div (a b : f32) : f32 := SFdiv prec emax a b.

Definition fmin (a b : f32) : f32 := if SFltb b a then b else a.
Definition fmax (a b : f32) : f32 := if SFltb a b then b else a.
Definition clamp (n lower upper : f32) : f32 := fmax lower (fmin n upper).

(** [floor] of a finite float, as an integer. *)
Definition floor (f : f32) : Z :=
  match f with
  | S754_finite s m e =>
      let v := if s then Z.neg m else Z.pos m in
      if (0 <=? e)%Z then (v * 2 ^ e)%Z else (v / 2 ^ (- e))%Z
  | _ => 0%Z
  end.

Definition cartesian_to_array_scaler (DM_GRID_DIMENSION : Z)
           (probe_radius : f32) : f32 :=
  div (of_int (DM_GRID_DIMENSION - 1)) (mul probe_radius (of_int 2)).

(** [(st_Q11, st_Q12, st_Q21, st_Q22)]. *)
Definition subscripts (DM_GRID_DIMENSION : Z) (probe_radius : f32)
           (targetX targetY : f32) : Z * Z * Z * Z :=
  let scaler := cartesian_to_array_scaler DM_GRID_DIMENSION probe_radius in
  let targetX := clamp targetX (SFopp probe_radius) probe_radius in
  let targetY := clamp targetY (SFopp probe_radius) probe_radius in
  let array_x := mul (sub targetX (SFopp probe_radius)) scaler in
  let array_y := mul (sub (SFopp targetY) (SFopp probe_radius)) scaler in
  let x1 := floor array_x in
  let y1 := floor array_y in
  let x2 := (x1 + 1)%Z in
  let y2 := (y1 + 1)%Z in
  (((y1 * DM_GRID_DIMENSION) + x1)%Z, ((y2 * DM_GRID_DIMENSION) + x1)%Z,
   ((y1 * DM_GRID_DIMENSION) + x2)%Z, ((y2 * DM_GRID_DIMENSION) + x2)%Z).

(** [(bili.array_x, bili.array_y)]. *)
Definition array_position (DM_GRID_DIMENSION : Z) (probe_radius : f32)
           (targetX targetY : f32) : f32 * f32 :=
  let scaler := cartesian_to_array_scaler DM_GRID_DIMENSION probe_radius in
  let targetX := clamp targetX (SFopp probe_radius) probe_radius in
  let targetY := clamp targetY (SFopp probe_radius) probe_radius in
  (mul (sub targetX (SFopp probe_radius)) scaler,
   mul (sub (SFopp targetY) (SFopp probe_radius)) scaler).

Definition add (a b : f32) : f32 := SFadd prec emax a b.

(** [get_adjust_z] with depth correction enabled and active and plane
    correction off, every operation rounded to single precision.  The
    reads are unchecked: [beyond i] is the float behind the array at
    subscript [i]. *)
Definition get_adjust_z (DM_GRID_DIMENSION : Z) (probe_radius : f32)
           (beyond : Z -> f32) (depth : list f32)
           (targetX targetY : f32) : f32 :=
  let '(array_x, array_y) :=
    array_position DM_GRID_DIMENSION probe_radius targetX targetY in
  let x1 := floor array_x in
  let y1 := floor array_y in
  let x2 := (x1 + 1)%Z in
  let y2 := (y1 + 1)%Z in
  let rd (i : Z) :=
    match read depth i with Some v => v | None => beyond i end in
  let Q11 := rd ((y1 * DM_GRID_DIMENSION) + x1)%Z in
  let Q12 := rd ((y2 * DM_GRID_DIMENSION) + x1)%Z in
  let Q21 := rd ((y1 * DM_GRID_DIMENSION) + x2)%Z in
  let Q22 := rd ((y2 * DM_GRID_DIMENSION) + x2)%Z in
  let divisor := mul (of_int (x2 - x1)) (of_int (y2 - y1)) in
  let first_term0 := div Q11 divisor in
  let first_term1 := div Q21 divisor in
  let first_term2 := div Q12 divisor in
  let first_term3 := div Q22 divisor in
  let x2_minus_x := sub (of_int x2) array_x in
  let x_minus_x1 := sub array_x (of_int x1) in
  let y2_minus_y := sub (of_int y2) array_y in
  let y_minus_y1 := sub array_y (of_int y1) in
  let result :=
    add (add (add (mul (mul first_term0 x2_minus_x) y2_minus_y)
                  (mul (mul first_term1 x_minus_x1) y2_minus_y))
             (mul (mul first_term2 x2_minus_x) y_minus_y1))
        (mul (mul first_term3 x_minus_x1) y_minus_y1) in
  add (of_int 0) result.

(** The two loops of [init_test_points] that lay out the grid, with
    [x += point_spacing] and [y -= point_spacing] rounded as the machine
    rounds them; [None] when the fuel runs out. *)
Definition point_spacing (DM_GRID_DIMENSION : Z) (probe_radius : f32) : f32 :=
  div (mul probe_radius (of_int 2)) (of_int (DM_GRID_DIMENSION - 1)).

Fixpoint test_point_row (fuel : nat) (probe_radius spacing x y : f32)
  : option (list (f32 * f32)) :=
  match fuel with
  | O => None
  | S f =>
      if SFleb x probe_radius then
        match test_point_row f probe_radius spacing (add x spacing) y with
        | Some l => Some ((x, y) :: l)
        | None => None
        end
      else Some []
  end.

Fixpoint test_point_rows (fuel_x fuel : nat) (probe_radius spacing y : f32)
  : option (list (f32 * f32)) :=
  match fuel with
  | O => None
  | S f =>
      if SFleb (SFopp probe_radius) y then
        match test_point_row fuel_x probe_radius spacing (SFopp probe_radius) y,
              test_point_rows fuel_x f probe_radius spacing (sub y spacing) with
        | Some r, Some l => Some (r ++ l)
        | _, _ => None
        end
      else Some []
  end.

Definition test_points (DM_GRID_DIMENSION : Z) (probe_radius : f32) (fuel : nat)
  : option (list (f32 * f32)) :=
  test_point_rows fuel fuel probe_radius
                  (point_spacing DM_GRID_DIMENSION probe_radius) probe_radius.

(** The rational a finite float stands for. *)
Definition to_Q (f : f32) : Q :=
  match f with
  | S754_finite s m e =>
      let v := if s then Z.neg m else Z.pos m in
      if (0 <=? e)%Z then inject_Z (v * 2 ^ e)
      else Qmake v (Z.to_pos (2 ^ (- e)))
  | _ => 0
  end.

End Binary32.

(** ** Vocabulary of the statements *)

(** Two points with equal coordinates. *)
Definition pt_eq (p q : point2) : Prop := fst p == fst q /\ snd p == snd q.

(** The Cartesian position of column [c] and of row [r] of the grid:
    columns run from [-probe_radius] rightwards, rows from
    [+probe_radius] downwards, [point_spacing] apart. *)
Definition grid_x (DM_GRID_DIMENSION : Z) (probe_radius : float) (c : Z) : float :=
  - probe_radius + inject_Z c * point_spacing DM_GRID_DIMENSION probe_radius.

Definition grid_y (DM_GRID_DIMENSION : Z) (probe_radius : float) (r : Z) : float :=
  probe_radius - inject_Z r * point_spacing DM_GRID_DIMENSION probe_radius.

Definition grid_point (DM_GRID_DIMENSION : Z) (probe_radius : float) (r c : Z)
  : point2 :=
  (grid_x DM_GRID_DIMENSION probe_radius c,
   grid_y DM_GRID_DIMENSION probe_radius r).

(** The grid [init_test_points] is meant to lay out, row by row. *)
Definition ref_grid (DM_GRID_DIMENSION : Z) (probe_radius : float)
  : list point2 :=
  flat_map (fun r => map (fun c => grid_point DM_GRID_DIMENSION probe_radius r c)
                         (Zrange DM_GRID_DIMENSION))
           (Zrange DM_GRID_DIMENSION).

(** "Euclidean distance from the origin at most [r]", for [r >= 0]. *)
Definition within (p : point2) (r : float) : Prop :=
  dist_sq (distance2D origin p) <= r * r.

(** A point [find_nearest_test_point] may return: active or the centre. *)
Definition eligible (g : grid) (i : Z) : Prop :=
  get TP_INACTIVE (active_point g) i = TP_ACTIVE \/
  get TP_INACTIVE (active_point g) i = TP_CENTER.

(** Squared distance from [pos] to grid point [i]. *)
Definition dsq (g : grid) (pos : point2) (i : Z) : Q :=
  dist_sq (distance2D pos (get origin (test_point g) i)).

(** State of the scan of [find_nearest_test_point] once the points
    [0 .. k-1] have been visited: nothing found yet, or the first
    eligible point at the least distance so far. *)
Definition scan_inv (g : grid) (pos : point2) (k : Z) (acc : dist * Z) : Prop :=
  let '(lowest, idx) := acc in
  (idx = 0%Z /\ lowest = dist_of_float 999 /\
   forall i, (0 <= i < k)%Z -> eligible g i -> 999 * 999 <= dsq g pos i)
  \/
  ((0 <= idx < k)%Z /\ eligible g idx /\
   lowest = distance2D pos (get origin (test_point g) idx) /\
   dsq g pos idx < 999 * 999 /\
   forall i, (0 <= i < k)%Z -> eligible g i ->
             dsq g pos idx <= dsq g pos i /\
             ((i < idx)%Z -> dsq g pos idx < dsq g pos i)).

(** The classification rule for a circular platform: the tag that the
    rule "Active within the radius; ActiveNeighbor within the
    neighbouring radius unless [excluded]; Inactive otherwise" gives to
    the point [p] in row [r], column [c]. *)
Definition tagged_by_rule (DM_GRID_DIMENSION : Z) (probe_radius : float)
           (excluded : Z -> Z -> Prop) (r c : Z) (p : point2)
           (tag : active_point_t) : Prop :=
  (within p probe_radius -> tag = TP_ACTIVE) /\
  (~ within p probe_radius ->
   (tag = TP_ACTIVE_NEIGHBOR <->
    within p (neighboring_probe_radius DM_GRID_DIMENSION probe_radius)
    /\ ~ excluded r c)) /\
  (~ within p probe_radius ->
   ~ (within p (neighboring_probe_radius DM_GRID_DIMENSION probe_radius)
      /\ ~ excluded r c) ->
   tag = TP_INACTIVE).

(** "On the outer rows/columns of the grid" and "on the outer rows". *)
Definition outer_row_or_column (DM_GRID_DIMENSION : Z) (r c : Z) : Prop :=
  r = 0%Z \/ r = (DM_GRID_DIMENSION - 1)%Z \/
  c = 0%Z \/ c = (DM_GRID_DIMENSION - 1)%Z.

Definition outer_row (DM_GRID_DIMENSION : Z) (r c : Z) : Prop :=
  r = 0%Z \/ r = (DM_GRID_DIMENSION - 1)%Z.

(** The rule holds at every cell of the grid [g] but those in [skip]. *)
Definition classified_by_rule (DM_GRID_DIMENSION : Z) (probe_radius : float)
           (excluded skip : Z -> Z -> Prop) (g : grid) : Prop :=
  forall r c, (0 <= r < DM_GRID_DIMENSION)%Z -> (0 <= c < DM_GRID_DIMENSION)%Z ->
    ~ skip r c ->
    tagged_by_rule DM_GRID_DIMENSION probe_radius excluded r c
      (get origin (test_point g) (r * DM_GRID_DIMENSION + c))
      (get TP_INACTIVE (active_point g) (r * DM_GRID_DIMENSION + c)).

Definition nowhere (r c : Z) : Prop := False.

Definition middle_cell (DM_GRID_DIMENSION : Z) (r c : Z) : Prop :=
  r = ((DM_GRID_DIMENSION - 1) / 2)%Z /\ c = ((DM_GRID_DIMENSION - 1) / 2)%Z.

(** Single precision computes the array position of the point
    [(xi, yi)], a point with whole-number coordinates on a platform of
    whole-number radius, as exactly column [c] and row [r]. *)
Definition binary32_finds_cell (DM_GRID_DIMENSION radius xi yi r c : Z) : Prop :=
  Binary32.array_position DM_GRID_DIMENSION (Binary32.of_int radius)
                          (Binary32.of_int xi) (Binary32.of_int yi)
  = (Binary32.of_int c, Binary32.of_int r).

(** "Evaluated exactly at any grid point's Cartesian coordinates,
    [get_adjust_z] returns that grid point's stored depth value
    exactly", in single precision, at the grid points with whole-number
    coordinates. *)
Definition grid_point_depth_returned : Prop :=
  forall (DM_GRID_DIMENSION radius xi yi r c : Z)
         (beyond : Z -> Binary32.f32) (depth : list Binary32.f32),
    (2 <= DM_GRID_DIMENSION)%Z -> (0 < radius < 2 ^ 24)%Z ->
    Z.of_nat (List.length depth) = DM_GRID_ELEMENTS DM_GRID_DIMENSION ->
    (0 <= r < DM_GRID_DIMENSION)%Z -> (0 <= c < DM_GRID_DIMENSION)%Z ->
    inject_Z xi == grid_x DM_GRID_DIMENSION (inject_Z radius) c ->
    inject_Z yi == grid_y DM_GRID_DIMENSION (inject_Z radius) r ->
    read depth (r * DM_GRID_DIMENSION + c)
    = Some (Binary32.get_adjust_z DM_GRID_DIMENSION (Binary32.of_int radius)
              beyond depth (Binary32.of_int xi) (Binary32.of_int yi)).

(** A depth map of the 5x5 grid that is 0 at point 22 and 4 elsewhere. *)
Definition example_depth_binary32 : list Binary32.f32 :=
  map (fun i => Binary32.of_int (if (i =? 22)%Z then 0 else 4)) (Zrange 25).

(** The grids that single precision lays out exactly: the probe radius
    is a whole number of millimetres below 999, and so is the point
    spacing [2 * probe_radius / (DM_GRID_DIMENSION - 1)].  Every
    coordinate of the grid, every squared distance between two of its
    points and both radii of the classification are then whole numbers
    below 2^24, which a C [float] holds exactly, so that the loops and
    comparisons of [init_test_points] compute in single precision what
    they compute in exact arithmetic. *)
Definition whole_number_grid (DM_GRID_DIMENSION : Z) (probe_radius : float)
  : Prop :=
  exists r k : Z,
    probe_radius == inject_Z r /\ (0 < k)%Z /\
    (2 * r = k * (DM_GRID_DIMENSION - 1))%Z /\ (r < 999)%Z.

(** ** A running example

    The 5x5 grid of a platform of radius 100, and a surface transform
    with depth correction on, plane correction off, whose depth map
    holds [i / 100] at subscript [i]. *)
Definition example_transform : surface_transform_t :=
  mk_surface_transform (map (fun i => inject_Z i / 100) (Zrange 25))
                       true false false true (0, 0, 1) 0.

Definition example_grid : grid :=
  Eval vm_compute in
    match init_test_points 5 100 6 PSS_CIRCLE with
    | Some g => g
    | None => mk_grid [] []
    end.

(** ** The energy in the words of the specification *)

(** The subscripts of the points tagged Active, in increasing order. *)
Definition active_indices (DM_GRID_DIMENSION : Z) (ap : list active_point_t)
  : list Z :=
  filter (fun i => active_point_eqb (get TP_INACTIVE ap i) TP_ACTIVE)
         (Zrange (DM_GRID_ELEMENTS DM_GRID_DIMENSION)).

(** The relative height of point [i]: the Z entry of [cartesian[i]]. *)
Definition rel_height (cartesian : list vec3) (i : Z) : float :=
  vget (get (0, 0, 0) cartesian i) Z_.

Definition Qsum (l : list Q) : Q := fold_right Qplus 0 l.

(** "Mean absolute relative height over the Active points". *)
Definition mean_abs_active (DM_GRID_DIMENSION : Z) (ap : list active_point_t)
           (cartesian : list vec3) : Q :=
  Qsum (map (fun i => Qabs (rel_height cartesian i))
            (active_indices DM_GRID_DIMENSION ap))
  / inject_Z (Z.of_nat (List.length (active_indices DM_GRID_DIMENSION ap))).

(** A depth array for the running example: the height of point [i] is
    [(i - 12) / 10]. *)
Definition example_cartesian : list vec3 :=
  map (fun i => (0, 0, inject_Z (i - 12) / 10)) (Zrange 25).

(** ** Trim vectors in the words of the specification *)

(** [max(trim[X], trim[Y], trim[Z])]. *)
Definition vmax (t : vec3) : Q :=
  let '(x, y, z) := t in Qmax (Qmax x y) z.

(** The renormalization invariant: the largest trim is zero. *)
Definition renormalized (t : vec3) : Prop := vmax t == 0.

(** The tower deviation of one iteration and "out of tolerance". *)
Definition tower_deviation (depth : Iterative.depths) : float :=
  let mm := minmax4 (Iterative.d_CTR depth) (Iterative.d_X depth)
                    (Iterative.d_Y depth) (Iterative.d_Z depth) in
  snd mm - fst mm.

Definition out_of_tolerance (depth : Iterative.depths) : Prop :=
  Iterative.target < fabs (tower_deviation depth).

(** "A trim component outside the interval [-5, 0]". *)
Definition outside_trim_range (t : vec3) : Prop :=
  exists k, vget t k < -5 \/ 0 < vget t k.

(** The endstop correction in the words of the routine: each trim is
    moved by the gain times the height of the lowest of the four depths
    above the depth at its tower, and the largest of the three results
    is then subtracted from each. *)
Definition endstop_correction (t : vec3) (depth : Iterative.depths)
           (gain : float) : vec3 :=
  let lowest :=
    fst (minmax4 (Iterative.d_CTR depth) (Iterative.d_X depth)
                 (Iterative.d_Y depth) (Iterative.d_Z depth)) in
  let '(tx, ty, tz) := t in
  let ux := tx + (lowest - Iterative.d_X depth) * gain in
  let uy := ty + (lowest - Iterative.d_Y depth) * gain in
  let uz := tz + (lowest - Iterative.d_Z depth) * gain in
  let largest := vmax (ux, uy, uz) in
  (ux - largest, uy - largest, uz - largest).

(** A state of the iterative calibrator for the examples: the trim
    store answers [t], the arm solution answers a delta radius of 130,
    the statics of the endstop block are freshly reset. *)
Definition example_state (t : vec3) : Iterative.state :=
  Iterative.mk_state (Some t) (Some 130) [] 999 (13 # 10) false false false.

(** Probing that finds the X tower 1 mm deeper than the rest. *)
Definition example_probe (outer_i : nat) (s : Iterative.state)
  : option Iterative.depths :=
  Some (Iterative.mk_depths 0 1 0 0).

(** "After any trim adjustment by either calibrator the trim values
    passed to the trim store satisfy max(trim) == 0": no call of
    [set_trim] by [iterative_calibration], by a try of the annealer's
    endstop group or by the final renormalization of
    [heuristic_calibration] adds a trim whose largest component is not
    zero. *)
Definition trim_store_calls_renormalized : Prop :=
  (forall (probe : nat -> Iterative.state -> option Iterative.depths)
          (keep_settings : bool) (s : Iterative.state),
     Forall renormalized (Iterative.set_trim_calls s) ->
     Forall renormalized
       (Iterative.set_trim_calls
          (snd (Iterative.iterative_calibration probe keep_settings s)))) /\
  (forall (energy : machine -> float) (rand_frac : nat -> float)
          (binsearch_width overrun_divisor temp mul : float) (m : machine),
     Forall renormalized (set_trim_calls m) ->
     Forall renormalized
       (set_trim_calls (endstop_group energy rand_frac binsearch_width
                                      overrun_divisor temp mul m))) /\
  (forall m : machine,
     Forall renormalized (set_trim_calls m) ->
     Forall renormalized (set_trim_calls (normalize_trim m))).

(** "A trim component outside [-5, 0] aborts the calibration with a
    failure result", iteration by iteration. *)
Definition trim_outside_range_aborts : Prop :=
  forall (probe : nat -> Iterative.state -> option Iterative.depths)
         (outer_i : nat) (s : Iterative.state) (depth : Iterative.depths)
         (t : vec3),
    probe outer_i s = Some depth ->
    out_of_tolerance depth ->
    Iterative.get_trim s = Some t ->
    outside_trim_range t ->
    exists s', Iterative.iteration probe outer_i s = Return false s'.

(** ** The depth-map file in the words of the specification *)

(** The value lines of the file: the buffers, newline chopped, that are
    not comments. *)
Definition data_lines (bufs : list String.string) : list String.string :=
  filter (fun buf => negb (is_comment buf)) (map chop_newline bufs).

(** "Inside the open interval (-5, 5)". *)
Definition in_range (v : float) : Prop := -5 < v /\ v < 5.

(** A toy [atof] for the examples: the length of the text, negated when
    it starts with a minus sign. *)
Definition example_atof (buf : String.string) : float :=
  match buf with
  | String.String "-"%char r => - inject_Z (Z.of_nat (String.length r))
  | _ => inject_Z (Z.of_nat (String.length buf))
  end.

Definition example_gcode : Gcode :=
  mk_Gcode (fun c => Ascii.eqb c "E"%char) (fun c => 1).

(** A file for a 1x1 grid: a comment and one value line. *)
Definition example_file : list String.string :=
  [ String.String ";"%char (String.String " "%char String.EmptyString);
    String.String "1"%char (String.String "010"%char String.EmptyString) ].

(** A value line or a comment line of the file, with its line feed. *)
Definition example_line (digits : list ascii) : String.string :=
  String.string_of_list_ascii (digits ++ ["010"%char]).

(** Files for a 2x2 grid: four value lines in range under a comment; the
    same with the third value out of range; and only three value
    lines. *)
Definition example_file_2x2 : list String.string :=
  [ example_line [";"%char; " "%char; "0"%char];
    example_line ["1"%char]; example_line ["-"%char; "2"%char; "2"%char];
    example_line [";"%char; " "%char; "1"%char];
    example_line ["3"%char; "3"%char; "3"%char]; example_line ["4"%char];
    example_line ["5"%char] ].

Definition example_file_out_of_range : list String.string :=
  [ example_line ["1"%char]; example_line ["2"%char; "2"%char];
    example_line ["3"%char; "3"%char; "3"%char; "3"%char; "3"%char];
    example_line ["4"%char] ].

Definition example_file_short : list String.string :=
  [ example_line ["1"%char]; example_line [";"%char];
    example_line ["2"%char; "2"%char]; example_line ["3"%char] ].

(** ** The binary search in the words of the specification *)

(** An energy with a single minimum at [m] inside [lo, hi]: strictly
    decreasing up to [m], strictly increasing from [m] on. *)
Definition unimodal (E : float -> float) (lo hi m : float) : Prop :=
  lo <= m <= hi /\
  (forall x y, lo <= x -> x < y -> y <= m -> E y < E x) /\
  (forall x y, m <= x -> x < y -> y <= hi -> E x < E y).

(** An energy that grows strictly with the distance from [m]. *)
Definition symmetric_about (E : float -> float) (m : float) : Prop :=
  forall x y, E x < E y <-> Qabs (x - m) < Qabs (y - m).

(** One turn of the search: the bound whose energy is strictly worse
    moves inwards by [w] times the range; on equal energies nothing
    moves. *)
Definition narrowed (E : float -> float) (w : float)
           (lo hi lo' hi' : float) : Prop :=
  (E lo < E hi /\ lo' = lo /\ hi' = hi - ((hi - lo) * w)) \/
  (E hi < E lo /\ lo' = lo + ((hi - lo) * w) /\ hi' = hi) \/
  (E lo == E hi /\ lo' = lo /\ hi' = hi).

(** [search_run E w tgt inv n lo hi lo' hi']: the search goes from the
    range [lo, hi] to the range [lo', hi'] in [n] turns, each of them
    taken on a range wider than [tgt], and [inv] holds of every range
    on the way. *)
Inductive search_run (E : float -> float) (w tgt : float)
          (inv : float -> float -> Prop)
  : nat -> float -> float -> float -> float -> Prop :=
| search_done (lo hi : float) :
    inv lo hi -> search_run E w tgt inv 0 lo hi lo hi
| search_turn (n : nat) (lo hi lo1 hi1 lo' hi' : float) :
    inv lo hi -> tgt < hi - lo -> narrowed E w lo hi lo1 hi1 ->
    search_run E w tgt inv n lo1 hi1 lo' hi' ->
    search_run E w tgt inv (S n) lo hi lo' hi'.

Fixpoint Qpow (q : Q) (n : nat) : Q :=
  match n with
  | O => 1
  | S n' => q * Qpow q n'
  end.

(** A machine for the examples, and the energy of a machine whose arm
    length option is the parameter under test. *)
Definition example_machine : machine :=
  mk_machine
    (mk_KinematicSettings true 130 270 (0, 0, 0) (- (1), 1 # 2, 2) (1, 2, 3)
                          (0, 0, 0) (0, 0, 0))
    (fun _ => 0) [] 0.

(** The same machine with tower radius offsets (1, 0.5, 2). *)
Definition example_machine_nonneg : machine :=
  with_cur_set example_machine
    (with_tower_radius (cur_set example_machine) (1, 1 # 2, 2)).

Definition energy_of_arm_length (E : float -> float) (m : machine) : float :=
  E (options m "L"%char).

(** "The returned midpoint lies within target of the minimum, for every
    unimodal energy". *)
Definition binary_search_finds_minimum : Prop :=
  forall (E : float -> float) (lo hi m w : float) (s : machine),
    unimodal E lo hi m -> 0 <= w <= 1 # 2 ->
    Qabs (fst (find_optimal_config (energy_of_arm_length E) set_arm_length
                                   lo hi w target s) - m) <= target.

(** A unimodal energy that is steep below its minimum at -2.4 and
    shallow above it. *)
Definition lopsided_energy (x : float) : float :=
  if Qlt_bool x (- (24 # 10)) then 10 * (- (24 # 10) - x)
  else (x - - (24 # 10)) / 100.

(** ** The redistribution step in the words of the specification *)

(** "The tower offset with the smallest absolute magnitude". *)
Definition smallest_magnitude (v : vec3) : float :=
  let '(x, y, z) := v in
  let m := if Qlt_bool (Qabs y) (Qabs x) then y else x in
  if Qlt_bool (Qabs z) (Qabs m) then z else m.

Definition vsub (v : vec3) (a : float) : vec3 :=
  let '(x, y, z) := v in (x - a, y - a, z - a).

Definition veq (u v : vec3) : Prop :=
  let '(x, y, z) := u in
  let '(x', y', z') := v in
  x == x' /\ y == y' /\ z == z'.

(** "After the per-tower offsets are adjusted, the offset with the
    smallest absolute magnitude is subtracted from all three and added
    to the global parameter": for the tower-radius group (delta
    radius) and for the tower-angle group (arm length). *)
Definition radius_redistribution : Prop :=
  forall (energy : machine -> float) (rand_frac : nat -> float)
         (binsearch_width overrun_divisor temp mul : float) (m : machine),
    let adjusted :=
      cur_set (fold_left
                 (adjust_offset energy rand_frac binsearch_width
                    overrun_divisor temp set_tower_radius_offsets
                    tower_radius_ref (-3) 3 mul)
                 [X; Y; Z_] m) in
    let after :=
      cur_set (delta_radius_group energy rand_frac binsearch_width
                                  overrun_divisor temp mul m) in
    let low := smallest_magnitude (tower_radius adjusted) in
    veq (tower_radius after) (vsub (tower_radius adjusted) low) /\
    delta_radius after == delta_radius adjusted + low.

Definition angle_redistribution : Prop :=
  forall (energy : machine -> float) (rand_frac : nat -> float)
         (binsearch_width overrun_divisor temp mul : float) (m : machine),
    let adjusted :=
      cur_set (tower_angle_adjust energy rand_frac binsearch_width
                                  overrun_divisor temp mul m) in
    let after :=
      cur_set (tower_angle_group energy rand_frac binsearch_width
                                 overrun_divisor temp mul m) in
    let low := smallest_magnitude (tower_angle adjusted) in
    veq (tower_angle after) (vsub (tower_angle adjusted) low) /\
    arm_length after == arm_length adjusted + low.

(** ** Further routines of the strategy *)

(** *** [init_test_points]: the tower points and the shimming triangle *)

(** [float xDeg = 0.866025f; float yDeg = 0.5;]. *)
Definition xDeg : float := 866025 # 1000000.
Definition yDeg : float := 1 # 2.

(** [int tower_point_idx[4]], indexed by [TP_CTR], [TP_X], [TP_Y] and
    [TP_Z]. *)
Record tower_point_idx_t := mk_tower_point_idx {
  TP_CTR : Z;  TP_X : Z;  TP_Y : Z;  TP_Z : Z
}.

(** [surface_transform.tri_points[3][3]]: one row per tower, each row
    the coordinates [(x, y, z)] of a corner of the shimming triangle. *)
Definition tri_points_t := (vec3 * vec3 * vec3)%type.

Definition tri_get (t : tri_points_t) (k : axis) : vec3 :=
  let '(a, b, c) := t in
  match k with X => a | Y => b | Z_ => c end.

Section TowerPoints.

Variable DM_GRID_DIMENSION : Z.
Variable probe_radius : float.

(** "Initialize tower points (points nearest to a tower)". *)
Definition tower_point_idx (g : grid) : tower_point_idx_t :=
  mk_tower_point_idx
    (find_nearest_test_point DM_GRID_DIMENSION g (0, 0))
    (find_nearest_test_point DM_GRID_DIMENSION g
       (- xDeg * probe_radius, - yDeg * probe_radius))
    (find_nearest_test_point DM_GRID_DIMENSION g
       (xDeg * probe_radius, - yDeg * probe_radius))
    (find_nearest_test_point DM_GRID_DIMENSION g (0, probe_radius)).

(** The corners of the shimming triangle: the tower points, at height 0. *)
Definition init_tri_points (g : grid) : tri_points_t :=
  let t := tower_point_idx g in
  let corner (i : Z) : vec3 :=
    (fst (get origin (test_point g) i), snd (get origin (test_point g) i), 0) in
  (corner (TP_X t), corner (TP_Y t), corner (TP_Z t)).

End TowerPoints.

(** *** Virtual shimming ([set_virtual_shimming], [get_virtual_shimming]) *)

(** The surface transform with its shimming triangle: the fields
    [tri_points] and [have_normal] beside those of
    [surface_transform_t]. *)
Record shimming_t := mk_shimming {
  transform   : surface_transform_t;
  tri_points  : tri_points_t;
  have_normal : bool
}.

Definition with_plane (st : surface_transform_t) (n : vec3) (dd : float) :=
  mk_surface_transform (depth st) (depth_enabled st) (have_depth_map st)
    (plane_enabled st) (active st) n dd.

Definition with_plane_enabled (st : surface_transform_t) (b : bool) :=
  mk_surface_transform (depth st) (depth_enabled st) (have_depth_map st)
    b (active st) (normal st) (d st).

(** [Vector3::sub], [Vector3::cross] and the element-wise
    [Vector3::mul] of the vector library. *)
Definition Vector3_sub (a b : vec3) : vec3 :=
  let '(ax, ay, az) := a in
  let '(bx, by_, bz) := b in
  (ax - bx, ay - by_, az - bz).

Definition Vector3_cross (a b : vec3) : vec3 :=
  let '(ax, ay, az) := a in
  let '(bx, by_, bz) := b in
  (ay * bz - az * by_, az * bx - ax * bz, ax * by_ - ay * bx).

Definition Vector3_mul (a b : vec3) : vec3 :=
  let '(ax, ay, az) := a in
  let '(bx, by_, bz) := b in
  (ax * bx, ay * by_, az * bz).

Section Shimming.

(** [Vector3::unit] divides by the Euclidean norm, which is not a
    rational function: it is a parameter. *)
Variable Vector3_unit : vec3 -> vec3.

Definition set_virtual_shimming (x y z : float) (update : bool)
           (s : shimming_t) : shimming_t :=
  let '(tx, ty, tz) := tri_points s in
  let tri := (vset tx Z_ x, vset ty Z_ y, vset tz Z_ z) in
  if Qeq_bool x 0 && Qeq_bool y 0 && Qeq_bool z 0 then
    mk_shimming (with_plane (transform s) (0, 0, 1) 0) tri true
  else
    let v1 := tri_get tri X in
    let v2 := tri_get tri Y in
    let v3 := tri_get tri Z_ in
    let ab := Vector3_sub v1 v2 in
    let ac := Vector3_sub v1 v3 in
    let cross_product := Vector3_cross ab ac in
    let n := Vector3_unit cross_product in
    let dv := Vector3_mul n v1 in
    let dd := - vget dv X - vget dv Y - vget dv Z_ in
    mk_shimming
      (set_adjust_function true
         (with_plane_enabled (with_plane (transform s) n dd) true))
      tri true.

End Shimming.

Definition get_virtual_shimming (s : shimming_t) : vec3 :=
  if plane_enabled (transform s) then
    (vget (tri_get (tri_points s) X) Z_,
     vget (tri_get (tri_points s) Y) Z_,
     vget (tri_get (tri_points s) Z_) Z_)
  else (0, 0, 0).

(** *** The handler of [M667] ([handle_shimming_and_depth_correction]) *)

Section Handler.

Variable DM_GRID_DIMENSION : Z.
Variable atof : String.string -> float.
Variable strtof : String.string -> float.
Variable Vector3_unit : vec3 -> vec3.

(** The head of [handle_shimming_and_depth_correction]: the letters A,
    B and C give the heights of the corners of the shimming triangle,
    D the plane switch; with the plane enabled the plane is recomputed
    and the transform is switched on.  ([set_virtual_shimming] is
    called without its last argument, which it does not read.) *)
Definition shimming_block (gcode : Gcode) (s : shimming_t) : shimming_t :=
  let '(tx, ty, tz) := tri_points s in
  let tx := if has_letter gcode "A"%char
            then vset tx Z_ (get_value gcode "A"%char) else tx in
  let ty := if has_letter gcode "B"%char
            then vset ty Z_ (get_value gcode "B"%char) else ty in
  let tz := if has_letter gcode "C"%char
            then vset tz Z_ (get_value gcode "C"%char) else tz in
  let st := if has_letter gcode "D"%char
            then with_plane_enabled (transform s)
                   (bool_of_float (get_value gcode "D"%char))
            else transform s in
  let s := mk_shimming st (tx, ty, tz) (have_normal s) in
  if plane_enabled st then
    let s := set_virtual_shimming Vector3_unit
               (vget tx Z_) (vget ty Z_) (vget tz Z_) false s in
    mk_shimming (set_adjust_function true (transform s))
                (tri_points s) (have_normal s)
  else s.

(** [handle_shimming_and_depth_correction] ([M667]): the returned flag
    and the surface transform on return. *)
Definition handle_shimming_and_depth_correction (gcode : Gcode)
           (probe_offset_x probe_offset_y : float)
           (alloc_ok : bool) (file : option (list String.string))
           (s : shimming_t) : bool * shimming_t :=
  let s := shimming_block gcode s in
  let '(b, st) :=
    handle_depth_correction DM_GRID_DIMENSION atof strtof gcode
      probe_offset_x probe_offset_y alloc_ok file (transform s) in
  (b, mk_shimming st (tri_points s) (have_normal s)).

End Handler.

(** *** Simulated kinematics ([simulate_IK], [simulate_FK_and_get_energy]) *)

(** [_cds_depths_t]: an absolute and a relative depth. *)
Record cds_depths_t := mk_cds_depths { abs : float;  rel : float }.

(** The height of the shimming plane above [(x, y)]. *)
Definition plane_offset (st : surface_transform_t) (x y : float) : float :=
  let '(nx, ny, nz) := normal st in
  ((- nx * x) - (ny * y) - d st) / nz.

Module Kinematics.

Section Simulation.

Variable DM_GRID_DIMENSION : Z.

(** The arm solution's [cartesian_to_actuator] and
    [actuator_to_cartesian]. *)
Variable cartesian_to_actuator : vec3 -> vec3.
Variable actuator_to_cartesian : vec3 -> vec3.

(** One turn of the loop of [simulate_IK]: [cartesian[j]] and
    [test_axis[j]]. *)
Definition simulate_IK_point (g : grid) (st : surface_transform_t)
           (depth_map : list cds_depths_t) (trim : vec3) (j : Z)
  : vec3 * vec3 :=
  let cx := fst (get origin (test_point g) j) in
  let cy := snd (get origin (test_point g) j) in
  if active_point_eqb (get TP_INACTIVE (active_point g) j) TP_ACTIVE then
    let cz := rel (get (mk_cds_depths 0 0) depth_map j) in
    let pz := if plane_enabled st then cz + plane_offset st cx cy else cz in
    let '(ax, ay, az) := cartesian_to_actuator (cx, cy, pz) in
    ((cx, cy, cz), (ax + vget trim X, ay + vget trim Y, az + vget trim Z_))
  else ((cx, cy, 0), (0, 0, 0)).

(** [simulate_IK]: the arrays [cartesian] and [test_axis] it fills. *)
Definition simulate_IK (g : grid) (st : surface_transform_t)
           (depth_map : list cds_depths_t) (trim : vec3)
  : list vec3 * list vec3 :=
  let r := map (simulate_IK_point g st depth_map trim)
               (Zrange (DM_GRID_ELEMENTS DM_GRID_DIMENSION)) in
  (map fst r, map snd r).

(** One turn of the loop of [simulate_FK_and_get_energy]: the new
    [cartesian[j]]. *)
Definition simulate_FK_point (g : grid) (st : surface_transform_t)
           (axis_position : list vec3) (trim : vec3) (cartesian : list vec3)
           (j : Z) : vec3 :=
  if active_point_eqb (get TP_INACTIVE (active_point g) j) TP_ACTIVE then
    let '(ax, ay, az) := get (0, 0, 0) axis_position j in
    let trimmed := (ax - vget trim X, ay - vget trim Y, az - vget trim Z_) in
    let '(cx, cy, cz) := actuator_to_cartesian trimmed in
    if plane_enabled st then (cx, cy, cz - plane_offset st cx cy)
    else (cx, cy, cz)
  else get (0, 0, 0) cartesian j.

(** [simulate_FK_and_get_energy]: the energy and the array [cartesian]
    it leaves. *)
Definition simulate_FK_and_get_energy (g : grid) (st : surface_transform_t)
           (axis_position : list vec3) (trim : vec3) (cartesian : list vec3)
  : float * list vec3 :=
  let cartesian :=
    map (simulate_FK_point g st axis_position trim cartesian)
        (Zrange (DM_GRID_ELEMENTS DM_GRID_DIMENSION)) in
  (calc_energy DM_GRID_DIMENSION (active_point g) cartesian, cartesian).

(** [calc_energy(_cds_depths_t points[])]. *)
Definition calc_energy_of_depths (g : grid) (points : list cds_depths_t)
  : float :=
  calc_energy DM_GRID_DIMENSION (active_point g)
    (map (fun i => (fst (get origin (test_point g) i),
                    snd (get origin (test_point g) i),
                    rel (get (mk_cds_depths 0 0) points i)))
         (Zrange (DM_GRID_ELEMENTS DM_GRID_DIMENSION))).

End Simulation.

End Kinematics.

(** *** Statistics ([calc_statistics]) and the stall detector *)

(** [calc_statistics]: [(mu, sigma^2, min, max)].  The source returns
    [sigma = sqrtf(dev / n_values)]; the radicand is kept instead. *)
Definition calc_statistics (values : list float) (n_values : Z)
  : float * float * float * float :=
  let '(mu, mn, mx) :=
    fold_left (fun (acc : float * float * float) (stats : Z) =>
                 let '(mu, mn, mx) := acc in
                 let mu := mu + get 0 values stats in
                 let mx := if Qlt_bool mx (get 0 values stats)
                           then get 0 values stats else mx in
                 let mn := if Qlt_bool (get 0 values stats) mn
                           then get 0 values stats else mn in
                 (mu, mn, mx))
              (Zrange n_values) (0, 999, - (999)) in
  let mu := mu / inject_Z n_values in
  let dev :=
    fold_left (fun (dev : float) (stats : Z) =>
                 dev + (get 0 values stats - mu) * (get 0 values stats - mu))
              (Zrange n_values) 0 in
  (mu, dev / inject_Z n_values, mn, mx).

(** [#define LAST_ENERGY_N 6] and [float global_target = 0.010]. *)
Definition LAST_ENERGY_N : Z := 6.
Definition global_target : float := 10 # 1000.

Record energy_log := mk_energy_log {
  last_energy       : list float;
  last_energy_count : Z
}.

(** The subscripts of [for(j = n - 1; j > 0; j--)]. *)
Definition Zrange_down (n : Z) : list Z :=
  rev (map Z.succ (Zrange (n - 1))).

(** "Shift the last_energy array right by one entry". *)
Definition shift_last_energy (le : list float) : list float :=
  fold_left (fun le j => write le j (get 0 le (j - 1)))
            (Zrange_down LAST_ENERGY_N) le.

(** The housekeeping of [heuristic_calibration] once [tempE] is known:
    [true] when the annealing loop is left by [break]. *)
Definition housekeeping (tempE : float) (l : energy_log) : bool * energy_log :=
  let le := write (shift_last_energy (last_energy l)) 0 tempE in
  let count := (last_energy_count l + 1)%Z in
  if (LAST_ENERGY_N <=? count)%Z then
    let count := (LAST_ENERGY_N - 1)%Z in
    let '(_, sigma_sq, _, _) := calc_statistics le LAST_ENERGY_N in
    if Qlt_bool sigma_sq ((1 # 100) * (1 # 100))
    then (true, mk_energy_log le count)
    else (Qle_bool tempE global_target, mk_energy_log le count)
  else (Qle_bool tempE global_target, mk_energy_log le count).

(** *** The arguments of the annealer ([G31], [heuristic_calibration]) *)

(** A C conversion from [float] to [int]: towards zero. *)
Definition int_of_float (v : float) : Z :=
  if Qlt_bool v 0 then Qceiling v else Qfloor v.

Module Caltype.

Record entry := mk_entry {
  active             : bool;
  annealing_temp_mul : float
}.

(** The member [caltype]. *)
Record t := mk {
  endstop          : entry;
  delta_radius     : entry;
  arm_length       : entry;
  tower_angle      : entry;
  virtual_shimming : entry
}.

Definition deactivate (e : entry) : entry :=
  mk_entry false (annealing_temp_mul e).

Definition activate (e : entry) : entry :=
  mk_entry true (annealing_temp_mul e).

Definition from_letter (gcode : Gcode) (c : ascii) (e : entry) : entry :=
  if has_letter gcode c then mk_entry true (get_value gcode c) else e.

(** "Ensure parallel annealing temp multipliers aren't zero", then
    "aren't crazy". *)
Definition sanitize (e : entry) : entry :=
  let mul := if Qeq_bool (annealing_temp_mul e) 0 then 1
             else annealing_temp_mul e in
  mk_entry (active e) (clamp mul 0 50).

Definition any_active (c : t) : bool :=
  active (endstop c) || active (delta_radius c) || active (arm_length c)
  || active (tower_angle c) || active (virtual_shimming c).

End Caltype.

Definition clear_calibration_types (c : Caltype.t) : Caltype.t :=
  Caltype.mk (Caltype.deactivate (Caltype.endstop c))
             (Caltype.deactivate (Caltype.delta_radius c))
             (Caltype.deactivate (Caltype.arm_length c))
             (Caltype.deactivate (Caltype.tower_angle c))
             (Caltype.deactivate (Caltype.virtual_shimming c)).

(** The arguments [handle_depth_mapping_calibration] passes on. *)
Record annealing_args := mk_annealing_args {
  annealing_tries  : Z;
  max_temp         : float;
  binsearch_width  : float;
  overrun_divisor  : float;
  simulate_only    : bool;
  keep_settings    : bool;
  zero_all_offsets : bool
}.

(** [G31] without [A] or [Z], up to the call of
    [heuristic_calibration]: the calibration types selected and the
    arguments of the call; [None] when there is no argument and only
    the usage is printed. *)
Definition select_calibration (gcode : Gcode) (num_args : Z) (c : Caltype.t)
  : Caltype.t * option annealing_args :=
  let c := clear_calibration_types c in
  let arg (l : ascii) (dflt : float) : float :=
    if has_letter gcode l then get_value gcode l else dflt in
  let c :=
    Caltype.mk (Caltype.from_letter gcode "O"%char (Caltype.endstop c))
               (Caltype.from_letter gcode "P"%char (Caltype.delta_radius c))
               (Caltype.from_letter gcode "Q"%char (Caltype.arm_length c))
               (Caltype.from_letter gcode "R"%char (Caltype.tower_angle c))
               (Caltype.from_letter gcode "S"%char (Caltype.virtual_shimming c)) in
  let annealing_tries :=
    if has_letter gcode "T"%char then int_of_float (get_value gcode "T"%char)
    else 50%Z in
  if (0 <? num_args)%Z then
    let c :=
      if negb (Caltype.any_active c) then
        Caltype.mk (Caltype.activate (Caltype.endstop c))
                   (Caltype.activate (Caltype.delta_radius c))
                   (Caltype.arm_length c) (Caltype.tower_angle c)
                   (Caltype.virtual_shimming c)
      else c in
    (c, Some (mk_annealing_args annealing_tries
                (arg "U"%char (35 # 100)) (arg "V"%char (1 # 10))
                (arg "W"%char 2)
                (has_letter gcode "L"%char) (has_letter gcode "K"%char)
                (has_letter gcode "Y"%char)))
  else (c, None).

(** "Sanity check regular variables" and the multipliers, at the head
    of [heuristic_calibration]. *)
Definition sanity_check (a : annealing_args) (c : Caltype.t)
  : annealing_args * Caltype.t :=
  (mk_annealing_args
     (int_of_float (clamp (inject_Z (annealing_tries a)) 10 1000))
     (clamp (max_temp a) 0 2)
     (clamp (binsearch_width a) 0 (1 # 2))
     (clamp (overrun_divisor a) (1 # 2) 15)
     (simulate_only a) (keep_settings a) (zero_all_offsets a),
   Caltype.mk (Caltype.sanitize (Caltype.endstop c))
              (Caltype.sanitize (Caltype.delta_radius c))
              (Caltype.sanitize (Caltype.arm_length c))
              (Caltype.sanitize (Caltype.tower_angle c))
              (Caltype.sanitize (Caltype.virtual_shimming c))).

(** "Set the annealing temperature" of try [annealing_try]. *)
Definition annealing_temp (annealing_try annealing_tries : Z)
           (max_temp : float) : float :=
  let tempFraction := inject_Z annealing_try / inject_Z annealing_tries in
  let temp := max_temp - (tempFraction * max_temp) in
  if Qlt_bool temp (1 # 100) then 1 # 100 else temp.

(** *** Probing ([handleConfig], [do_probe_at]) *)

(** [handleConfig]: the configured probe smoothing, forced into 1..10. *)
Definition config_probe_smoothing (p : Z) : Z :=
  let p := if (p <? 1)%Z then 1%Z else p in
  if (10 <? p)%Z then 10%Z else p.

(** The sum of two C [int]s: it wraps around at 32 bits, as the
    addition of the machine does. *)
Definition int_add (a b : Z) : Z :=
  ((a + b + 2 ^ 31) mod 2 ^ 32 - 2 ^ 31)%Z.

Section Probe.

(** [zprobe->run_probe(result)] at the [i]-th turn of the loop of one
    call of [do_probe_at]: the steps, or [None] when it fails. *)
Variable run_probe : Z -> option Z.

Definition do_probe_turn (acc : outcome Z) (i : Z) : outcome Z :=
  match acc with
  | Return b steps => Return b steps
  | Next steps =>
      match run_probe i with
      | None => Return false (if negb (i =? 0)%Z then Z.quot steps i else steps)
      | Some result => Next (int_add steps result)
      end
  end.

(** [do_probe_at]: the returned flag and [steps]; [None] when the
    average divides by a zero [smoothing]. *)
Definition do_probe_at (probe_smoothing : Z) (skip_smoothing : bool)
  : option (bool * Z) :=
  let smoothing := if skip_smoothing then 1%Z else probe_smoothing in
  match fold_left do_probe_turn (Zrange smoothing) (Next 0%Z) with
  | Return b steps => Some (b, steps)
  | Next steps =>
      if (smoothing =? 0)%Z then None
      else
        let steps := Z.quot steps smoothing in
        Some (negb (steps <? 100)%Z, steps)
  end.

End Probe.

(** *** Method prefixes ([push_prefix], [pop_prefix]) *)

(** [strncpy(dest, mp, 3)]: the first three bytes of [dest] become the
    first three characters of [mp], padded with NUL. *)
Fixpoint strncpy (dest : list ascii) (src : String.string) (n : nat)
  : list ascii :=
  match n, dest with
  | O, _ => dest
  | _, [] => []
  | S n', _ :: dest' =>
      match src with
      | String.EmptyString =>
          "000"%char :: strncpy dest' String.EmptyString n'
      | String.String c src' =>
          if Ascii.eqb c "000"%char
          then "000"%char :: strncpy dest' String.EmptyString n'
          else c :: strncpy dest' src' n'
      end
  end.

Record prefixes := mk_prefixes {
  method_prefix     : list (list ascii);
  method_prefix_idx : Z
}.

Section Prefixes.

(** The header's [MP_MAX_PREFIXES]. *)
Variable MP_MAX_PREFIXES : Z.

Definition push_prefix (mp : String.string) (p : prefixes) : prefixes :=
  if (method_prefix_idx p + 1 <? MP_MAX_PREFIXES)%Z then
    let idx := (method_prefix_idx p + 1)%Z in
    mk_prefixes (write (method_prefix p) idx
                       (strncpy (get [] (method_prefix p) idx) mp 3))
                idx
  else p.

Definition pop_prefix (p : prefixes) : prefixes :=
  if (0 <? method_prefix_idx p)%Z then
    mk_prefixes (method_prefix p) (method_prefix_idx p - 1)%Z
  else p.

End Prefixes.

(** *** [G31 A]: spreading the depth map to the rim *)

(** A store [a[i] = v] with a computed subscript: [None] outside the
    array. *)
Definition store {A : Type} (a : list A) (i : Z) (v : A) : option (list A) :=
  if (i <? 0)%Z then None
  else if (i <? Z.of_nat (List.length a))%Z then Some (write a i v)
  else None.

Section Propagate.

Variable DM_GRID_DIMENSION : Z.

(** "Propagate right" or "Propagate left" for the cell [dm_pos], whose
    neighbour towards the centre is [from]. *)
Definition propagate_cell (ap : list active_point_t) (dm_pos from : Z)
           (depth : list float) : option (list float) :=
  match read ap dm_pos with
  | None => None
  | Some a =>
      if active_point_eqb a TP_INACTIVE then
        match read depth from with
        | Some v => store depth dm_pos v
        | None => None
        end
      else Some depth
  end.

(** The body of the loops over [y] and [x]. *)
Definition propagate_turn (ap : list active_point_t) (y : Z)
           (acc : option (list float)) (x : Z) : option (list float) :=
  match acc with
  | None => None
  | Some depth =>
      let dm_pos_right :=
        ((y * DM_GRID_DIMENSION) + (Z.quot (DM_GRID_DIMENSION - 1) 2) + x)%Z in
      let dm_pos_left :=
        ((y * DM_GRID_DIMENSION) + (Z.quot (DM_GRID_DIMENSION - 1) 2) - x)%Z in
      match propagate_cell ap dm_pos_right (dm_pos_right - 1)%Z depth with
      | None => None
      | Some depth => propagate_cell ap dm_pos_left (dm_pos_left + 1)%Z depth
      end
  end.

(** "Propagate values outward from circle to edge": [None] when a
    subscript leaves an array. *)
Definition propagate_outward (surface_shape : surface_shape_t)
           (ap : list active_point_t) (depth : list float)
  : option (list float) :=
  match surface_shape with
  | PSS_CIRCLE =>
      fold_left
        (fun acc y =>
           fold_left (propagate_turn ap y)
                     (Zrange (Z.quot (DM_GRID_DIMENSION - 1) 2 + 1)) acc)
        (Zrange DM_GRID_DIMENSION) (Some depth)
  | PSS_SQUARE => Some depth
  end.

End Propagate.


(** ** Vocabulary of the further properties *)

(** The causes of a failed iteration, read at the state it starts from. *)
Definition failure_cause
           (probe : nat -> Iterative.state -> option Iterative.depths)
           (outer_i : nat) (s : Iterative.state) : Prop :=
  probe outer_i s = None \/
  Iterative.get_trim s = None \/
  Iterative.get_delta_radius s = None \/
  exists t k, Iterative.get_trim s = Some t /\ vget t k < -5.

(** The state at the start of iteration [outer_i + n] of the main loop,
    reached from [s] at the start of iteration [outer_i]: [None] when
    one of the [n] iterations in between returns. *)
Fixpoint state_before
         (probe : nat -> Iterative.state -> option Iterative.depths)
         (n outer_i : nat) (s : Iterative.state) : option Iterative.state :=
  match n with
  | O => Some s
  | S n' =>
      match Iterative.iteration probe outer_i s with
      | Next s1 => state_before probe n' (S outer_i) s1
      | Return _ _ => None
      end
  end.

(** Probing that finds the centre high above the towers, less so at
    every iteration, and a state whose trim gain is 1. *)
Definition example_probe_centre (outer_i : nat) (s : Iterative.state)
  : option Iterative.depths :=
  Some (Iterative.mk_depths (inject_Z (100 - Z.of_nat outer_i)) 0 0 0).

Definition example_state_unit_gain : Iterative.state :=
  Iterative.mk_state (Some (0, 0, 0)) (Some 130) [] 999 1 false false false.

(** The plane switch once the letter D is handled. *)
Definition plane_switch (gcode : Gcode) (s : shimming_t) : bool :=
  if has_letter gcode "D"%char then bool_of_float (get_value gcode "D"%char)
  else plane_enabled (transform s).

(** [M667 D1 E1 Z0]. *)
Definition example_gcode_DEZ : Gcode :=
  mk_Gcode (fun c => Ascii.eqb c "D"%char || Ascii.eqb c "E"%char
                     || Ascii.eqb c "Z"%char)
           (fun c => if Ascii.eqb c "Z"%char then 0 else 1).

(** A surface transform that is switched off, with the shimming
    triangle of the 5x5 grid of radius 100. *)
Definition example_shimming : shimming_t :=
  mk_shimming
    (mk_surface_transform [] false false false false (0, 0, 1) 0)
    ((- (50), - (50), 0), (50, - (50), 0), (0, 100, 0)) false.

(** The trim gain of the endstop corrector is in its working range, or
    is still to be reset to 1.3 and holds [ts]. *)
Definition gain_settled (ts : float) (s : Iterative.state) : Prop :=
  (Iterative.endstop_needs_reset s = true /\ Iterative.trimscale s = ts) \/
  (Iterative.endstop_needs_reset s = false /\
   81 # 95 <= Iterative.trimscale s <= 13 # 10).

(** A run of calls of [push_prefix] and [pop_prefix]. *)
Inductive prefix_op :=
| Push (mp : String.string)
| Pop.

Definition run_prefix_ops (MP_MAX_PREFIXES : Z) (ops : list prefix_op)
           (p : prefixes) : prefixes :=
  fold_left (fun p op =>
               match op with
               | Push mp => push_prefix MP_MAX_PREFIXES mp p
               | Pop => pop_prefix p
               end) ops p.

(** The depth array [d'] spreads [d] to the rim of the grid [ap]: an
    Inactive cell holds the depth of its neighbour towards the middle
    column (in the middle column, the depth its right neighbour had),
    every other cell keeps its depth. *)
Definition propagated (DM_GRID_DIMENSION : Z) (ap : list active_point_t)
           (d d' : list float) : Prop :=
  List.length d' = List.length d /\
  forall r c, (0 <= r < DM_GRID_DIMENSION)%Z -> (0 <= c < DM_GRID_DIMENSION)%Z ->
    let i := (r * DM_GRID_DIMENSION + c)%Z in
    let c0 := ((DM_GRID_DIMENSION - 1) / 2)%Z in
    (get TP_INACTIVE ap i <> TP_INACTIVE -> get 0 d' i = get 0 d i) /\
    (get TP_INACTIVE ap i = TP_INACTIVE ->
     ((c < c0)%Z -> get 0 d' i = get 0 d' (i + 1)) /\
     ((c0 < c)%Z -> get 0 d' i = get 0 d' (i - 1)) /\
     (c = c0 -> get 0 d' i = get 0 d (i + 1))).

(** The processed part of row [y] once the columns nearer than [k] to
    the middle are done, starting from the array [d0]. *)
Definition row_done (DM_GRID_DIMENSION : Z) (ap : list active_point_t)
           (y k : Z) (d0 d : list float) : Prop :=
  let c0 := ((DM_GRID_DIMENSION - 1) / 2)%Z in
  List.length d = List.length d0 /\
  (forall j, (0 <= j)%Z ->
     ~ (y * DM_GRID_DIMENSION + c0 - k < j < y * DM_GRID_DIMENSION + c0 + k)%Z ->
     get 0 d j = get 0 d0 j) /\
  (forall c, (c0 - k < c < c0 + k)%Z ->
     let i := (y * DM_GRID_DIMENSION + c)%Z in
     (active_point_eqb (get TP_INACTIVE ap i) TP_INACTIVE = false ->
      get 0 d i = get 0 d0 i) /\
     (active_point_eqb (get TP_INACTIVE ap i) TP_INACTIVE = true ->
      ((c < c0)%Z -> get 0 d i = get 0 d (i + 1)) /\
      ((c0 < c)%Z -> get 0 d i = get 0 d (i - 1)) /\
      (c = c0 -> get 0 d i = get 0 d0 (i + 1)))).

(** * Part II: properties *)

(** ** Comparisons, [clamp], array reads *)

Lemma Qlt_bool_iff (a b : Q) : Qlt_bool a b = true <-> a < b.
Proof.
  unfold Qlt_bool. rewrite negb_true_iff.
  split; intro H.
  - apply Qnot_le_lt. intro L. apply Qle_bool_iff in L. congruence.
  - destruct (Qle_bool b a) eqn:E; auto.
    apply Qle_bool_iff in E. apply Qle_not_lt in E. contradiction.
Qed.

Lemma Qlt_bool_false_iff (a b : Q) : Qlt_bool a b = false <-> b <= a.
Proof.
  unfold Qlt_bool. rewrite negb_false_iff. apply Qle_bool_iff.
Qed.

Lemma Qle_bool_false_iff (a b : Q) : Qle_bool a b = false <-> b < a.
Proof.
  rewrite <- Qlt_bool_iff. unfold Qlt_bool.
  destruct (Qle_bool a b); simpl; intuition congruence.
Qed.

(** Case analysis on every float comparison in the goal, innermost first. *)
Ltac no_cmp t :=
  lazymatch t with
  | context [Qlt_bool _ _] => fail
  | context [Qle_bool _ _] => fail
  | _ => idtac
  end.

Ltac qcases :=
  repeat match goal with
  | |- context [Qlt_bool ?a ?b] =>
      no_cmp a; no_cmp b;
      let E := fresh "E" in
      destruct (Qlt_bool a b) eqn:E;
      [apply Qlt_bool_iff in E | apply Qlt_bool_false_iff in E]
  | |- context [Qle_bool ?a ?b] =>
      no_cmp a; no_cmp b;
      let E := fresh "E" in
      destruct (Qle_bool a b) eqn:E;
      [apply Qle_bool_iff in E | apply Qle_bool_false_iff in E]
  end.


Lemma fmax_spec (a b : Q) :
  a <= fmax a b /\ b <= fmax a b /\ (fmax a b == a \/ fmax a b == b).
Proof.
  unfold fmax. qcases.
  - split; [lra|split; [lra|right; reflexivity]].
  - split; [lra|split; [lra|left; reflexivity]].
Qed.

Lemma fmax_Qmax (a b : Q) : fmax a b == Qmax a b.
Proof.
  destruct (fmax_spec a b) as (H1 & H2 & H3).
  destruct (Q.max_spec a b) as [[L E]|[L E]]; rewrite E; destruct H3 as [H3|H3];
    rewrite H3 in *; lra.
Qed.

Lemma clamp_range (n lower upper : Q) :
  lower <= upper -> lower <= clamp n lower upper <= upper.
Proof. intro H. unfold clamp, fmax, fmin. qcases; split; lra. Qed.

Lemma clamp_id (n lower upper : Q) :
  lower <= n <= upper -> clamp n lower upper == n.
Proof. intros [H1 H2]. unfold clamp, fmax, fmin. qcases; lra. Qed.

Lemma clamp_low (n lower upper : Q) :
  lower <= upper -> n <= lower -> clamp n lower upper == lower.
Proof. intros H1 H2. unfold clamp, fmax, fmin. qcases; lra. Qed.

Lemma read_in_bounds {A : Type} (a : list A) (i : Z) :
  (0 <= i < Z.of_nat (List.length a))%Z -> exists v, read a i = Some v.
Proof.
  intros [H1 H2]. unfold read.
  destruct (Z.ltb_spec i 0); [lia|].
  destruct (nth_error a (Z.to_nat i)) eqn:E; eauto.
  apply nth_error_None in E. lia.
Qed.

Lemma read_out_of_bounds {A : Type} (a : list A) (i : Z) :
  (Z.of_nat (List.length a) <= i)%Z -> read a i = None.
Proof.
  intro H. unfold read.
  destruct (Z.ltb_spec i 0); auto.
  apply nth_error_None. lia.
Qed.

Lemma read_get {A : Type} (dflt : A) (a : list A) (i : Z) :
  (0 <= i < Z.of_nat (List.length a))%Z -> read a i = Some (get dflt a i).
Proof.
  intros [H1 H2]. unfold read, get.
  destruct (Z.ltb_spec i 0); [lia|].
  apply nth_error_nth'. lia.
Qed.

(** ** [get_adjust_z]: subscripts of the bounding box *)

Section BiliFacts.

Variable DM_GRID_DIMENSION : Z.
Variable probe_radius : float.
Hypothesis grid_side : (2 <= DM_GRID_DIMENSION)%Z.
Hypothesis radius_pos : 0 < probe_radius.

Local Abbreviation N := DM_GRID_DIMENSION.
Local Abbreviation R := probe_radius.
Local Abbreviation scaler := (cartesian_to_array_scaler N R).

Lemma side_pos : 0 < inject_Z (N - 1).
Proof. change 0 with (inject_Z 0). rewrite <- Zlt_Qlt. lia. Qed.

Lemma scaler_pos : 0 < scaler.
Proof.
  unfold cartesian_to_array_scaler.
  apply Qlt_shift_div_l; [lra|]. generalize side_pos. lra.
Qed.

Lemma scaler_full : (R * 2) * scaler == inject_Z (N - 1).
Proof.
  unfold cartesian_to_array_scaler. field. lra.
Qed.

(** A clamped coordinate lands in [0, N-1] array units. *)
Lemma array_pos_range (v : Q) :
  - R <= v <= R ->
  0 <= (v - - R) * scaler <= inject_Z (N - 1).
Proof.
  intros [H1 H2]. generalize scaler_pos scaler_full. intros Hs Hf.
  split.
  - apply Qmult_le_0_compat; lra.
  - rewrite <- Hf. apply Qmult_le_compat_r; lra.
Qed.

Lemma array_pos_lt (v : Q) :
  - R <= v < R ->
  0 <= (v - - R) * scaler < inject_Z (N - 1).
Proof.
  intros [H1 H2]. generalize scaler_pos scaler_full. intros Hs Hf.
  split.
  - apply Qmult_le_0_compat; lra.
  - rewrite <- Hf. apply Qmult_lt_compat_r; lra.
Qed.

Lemma floor_range (q : Q) (n : Z) :
  0 <= q <= inject_Z n -> (0 <= Qfloor q <= n)%Z.
Proof.
  intros [H1 H2]. split.
  - rewrite <- (Qfloor_Z 0). apply Qfloor_resp_le. exact H1.
  - rewrite <- (Qfloor_Z n). apply Qfloor_resp_le. exact H2.
Qed.

Lemma floor_range_lt (q : Q) (n : Z) :
  0 <= q < inject_Z n -> (0 <= Qfloor q < n)%Z.
Proof.
  intros [H1 H2]. split.
  - rewrite <- (Qfloor_Z 0). apply Qfloor_resp_le. exact H1.
  - rewrite Zlt_Qlt. eapply Qle_lt_trans; [apply Qfloor_le | exact H2].
Qed.

Lemma clamp_R (v : Q) : - R <= clamp v (- R) R <= R.
Proof. apply clamp_range. lra. Qed.

(** The box corner [(x1, y1)] always lies on the grid. *)
Lemma bili_setup_corner (targetX targetY : float) :
  let b := bili_setup N R targetX targetY in
  (0 <= x1 b <= N - 1)%Z /\ (0 <= y1 b <= N - 1)%Z.
Proof.
  unfold bili_setup; cbn [x1 y1].
  split; apply floor_range; apply array_pos_range.
  - apply clamp_R.
  - generalize (clamp_R targetY). lra.
Qed.

(** Away from the right and bottom edges of the clamped square all four
    subscripts are inside the depth array. *)
Lemma bili_setup_in_bounds (targetX targetY : float) :
  targetX < R -> - R < targetY ->
  let b := bili_setup N R targetX targetY in
  (0 <= st_Q11 b < DM_GRID_ELEMENTS N)%Z /\
  (0 <= st_Q12 b < DM_GRID_ELEMENTS N)%Z /\
  (0 <= st_Q21 b < DM_GRID_ELEMENTS N)%Z /\
  (0 <= st_Q22 b < DM_GRID_ELEMENTS N)%Z.
Proof.
  intros Hx Hy. unfold bili_setup; cbn [st_Q11 st_Q12 st_Q21 st_Q22].
  assert (Hcx : - R <= clamp targetX (- R) R < R).
  { unfold clamp, fmax, fmin. qcases; split; lra. }
  assert (Hcy : - R <= - clamp targetY (- R) R < R).
  { unfold clamp, fmax, fmin. qcases; split; lra. }
  apply array_pos_lt in Hcx. apply array_pos_lt in Hcy.
  apply floor_range_lt in Hcx. apply floor_range_lt in Hcy.
  unfold DM_GRID_ELEMENTS. nia.
Qed.

(** On the bottom edge ([targetY <= -probe_radius]) the lower row of the
    box is row [N], one past the last row of the array. *)
Lemma bili_setup_bottom_edge (targetX targetY : float) :
  targetY <= - R ->
  let b := bili_setup N R targetX targetY in
  y1 b = (N - 1)%Z /\ y2 b = N /\
  (DM_GRID_ELEMENTS N <= st_Q12 b)%Z /\ (DM_GRID_ELEMENTS N <= st_Q22 b)%Z.
Proof.
  intros Hy. unfold bili_setup; cbn [y1 y2 st_Q12 st_Q22].
  assert (Hc : clamp targetY (- R) R == - R) by (apply clamp_low; lra).
  assert (Hy1 : Qfloor ((- clamp targetY (- R) R - - R) * scaler) = (N - 1)%Z).
  { rewrite <- (Qfloor_Z (N - 1)). apply Qfloor_comp.
    rewrite Hc. rewrite <- scaler_full. ring. }
  rewrite Hy1.
  destruct (bili_setup_corner targetX targetY) as [Hx _].
  unfold bili_setup in Hx; cbn [x1] in Hx.
  unfold DM_GRID_ELEMENTS. repeat split; nia.
Qed.

Lemma get_adjust_z_bottom_edge (st : surface_transform_t)
      (targetX targetY : float) :
  depth_enabled st = true -> active st = true ->
  Z.of_nat (List.length (depth st)) = DM_GRID_ELEMENTS N ->
  targetY <= - R ->
  get_adjust_z N R st targetX targetY = None.
Proof.
  intros He Ha Hlen Hy. unfold get_adjust_z. rewrite He, Ha. simpl andb. cbv iota.
  destruct (bili_setup_bottom_edge targetX targetY Hy) as (_ & _ & H12 & _).
  rewrite (read_out_of_bounds (depth st) (st_Q12 (bili_setup N R targetX targetY)))
    by lia.
  destruct (read (depth st) (st_Q11 (bili_setup N R targetX targetY))); reflexivity.
Qed.

End BiliFacts.

(** ** Loop counters and row-major arrays *)

Lemma Zrange_length (n : Z) : List.length (Zrange n) = Z.to_nat n.
Proof. unfold Zrange. rewrite length_map, length_seq. reflexivity. Qed.

Lemma Zrange_nth (n : Z) (i : nat) (dflt : Z) :
  (i < Z.to_nat n)%nat -> nth i (Zrange n) dflt = Z.of_nat i.
Proof.
  intro H. unfold Zrange.
  rewrite (nth_indep _ dflt (Z.of_nat 0)) by (rewrite length_map, length_seq; exact H).
  rewrite map_nth, seq_nth by exact H. reflexivity.
Qed.

Lemma Zrange_In (n i : Z) : In i (Zrange n) <-> (0 <= i < n)%Z.
Proof.
  unfold Zrange. rewrite in_map_iff. split.
  - intros (k & <- & Hk). apply in_seq in Hk. lia.
  - intros H. exists (Z.to_nat i). split; [lia|]. apply in_seq. lia.
Qed.

Lemma Zrange_succ (n : Z) :
  (0 <= n)%Z -> Zrange (n + 1) = Zrange n ++ [n].
Proof.
  intro H. unfold Zrange.
  replace (Z.to_nat (n + 1)) with (S (Z.to_nat n)) by lia.
  rewrite seq_S, map_app. simpl. rewrite Z2Nat.id by lia. reflexivity.
Qed.

Lemma nth_flat_map_rows {A B : Type} (g : A -> list B) (n : nat)
      (rows : list A) (r c : nat) (db : B) (da : A) :
  (forall a, In a rows -> List.length (g a) = n) ->
  (r < List.length rows)%nat -> (c < n)%nat ->
  nth (r * n + c) (flat_map g rows) db = nth c (g (nth r rows da)) db.
Proof.
  revert r. induction rows as [|a rows IH]; intros r Hlen Hr Hc; simpl in *.
  - lia.
  - destruct r as [|r].
    + simpl. rewrite app_nth1; [reflexivity|]. rewrite Hlen; auto.
    + rewrite app_nth2 by (rewrite Hlen by auto; simpl; lia).
      rewrite Hlen by auto.
      replace (S r * n + c - n)%nat with (r * n + c)%nat by (simpl; lia).
      apply IH; auto. lia.
Qed.

Lemma length_flat_map_rows {A B : Type} (g : A -> list B) (n : nat)
      (rows : list A) :
  (forall a, In a rows -> List.length (g a) = n) ->
  List.length (flat_map g rows) = (List.length rows * n)%nat.
Proof.
  induction rows as [|a rows IH]; intros Hlen; simpl in *; [reflexivity|].
  rewrite length_app, Hlen, IH; auto.
Qed.

(** Element [(r, c)] of an array filled by two nested counting loops. *)
Lemma get_grid_fill {A : Type} (f : Z -> Z -> A) (dflt : A) (n r c : Z) :
  (0 <= r < n)%Z -> (0 <= c < n)%Z ->
  get dflt (flat_map (fun y => map (fun x => f y x) (Zrange n)) (Zrange n))
      (r * n + c) = f r c.
Proof.
  intros Hr Hc. unfold get.
  replace (Z.to_nat (r * n + c)) with (Z.to_nat r * Z.to_nat n + Z.to_nat c)%nat by nia.
  rewrite (nth_flat_map_rows _ (Z.to_nat n) _ _ _ dflt 0%Z).
  - rewrite Zrange_nth by lia.
    rewrite (nth_indep _ dflt (f (Z.of_nat (Z.to_nat r)) 0%Z))
      by (rewrite length_map, Zrange_length; lia).
    rewrite (map_nth (fun x => f (Z.of_nat (Z.to_nat r)) x)).
    rewrite Zrange_nth by lia. rewrite !Z2Nat.id by lia. reflexivity.
  - intros a _. rewrite length_map, Zrange_length. reflexivity.
  - rewrite Zrange_length. lia.
  - lia.
Qed.

Lemma length_grid_fill {A : Type} (f : Z -> Z -> A) (n : Z) :
  (0 <= n)%Z ->
  Z.of_nat (List.length
    (flat_map (fun y => map (fun x => f y x) (Zrange n)) (Zrange n)))
  = (n * n)%Z.
Proof.
  intro H. rewrite (length_flat_map_rows _ (Z.to_nat n)).
  - rewrite Zrange_length. nia.
  - intros a _. rewrite length_map, Zrange_length. reflexivity.
Qed.

(** A cell index splits into its row and column. *)
Lemma index_row_col (n i : Z) :
  (0 < n)%Z -> (0 <= i < n * n)%Z ->
  (0 <= i / n < n)%Z /\ (0 <= i mod n < n)%Z /\ i = (i / n * n + i mod n)%Z.
Proof.
  intros Hn Hi. split; [|split].
  - split; [apply Z.div_pos; lia|]. apply Z.div_lt_upper_bound; lia.
  - apply Z.mod_pos_bound; lia.
  - rewrite (Z.div_mod i n) at 1 by lia. ring.
Qed.

Lemma write_nat_length {A : Type} (a : list A) (i : nat) (v : A) :
  List.length (write_nat a i v) = List.length a.
Proof.
  revert i. induction a as [|h t IH]; intros [|i]; simpl; auto.
Qed.

Lemma write_length {A : Type} (a : list A) (i : Z) (v : A) :
  List.length (write a i v) = List.length a.
Proof. unfold write. destruct (i <? 0)%Z; auto using write_nat_length. Qed.

Lemma write_nat_nth {A : Type} (a : list A) (i j : nat) (v dflt : A) :
  nth j (write_nat a i v) dflt =
  if (j =? i)%nat then (if (i <? List.length a)%nat then v else dflt)
  else nth j a dflt.
Proof.
  revert i j. induction a as [|h t IH]; intros i j.
  - simpl. destruct (j =? i)%nat; destruct j; reflexivity.
  - destruct i as [|i]; destruct j as [|j]; try reflexivity.
    cbn [write_nat nth List.length]. rewrite IH.
    change (S j =? S i)%nat with (j =? i)%nat.
    change (S i <? S (List.length t))%nat with (i <? List.length t)%nat.
    reflexivity.
Qed.

Lemma get_write {A : Type} (a : list A) (i j : Z) (v dflt : A) :
  (0 <= i < Z.of_nat (List.length a))%Z -> (0 <= j)%Z ->
  get dflt (write a i v) j = if (j =? i)%Z then v else get dflt a j.
Proof.
  intros Hi Hj. unfold get, write.
  destruct (Z.ltb_spec i 0); [lia|].
  rewrite write_nat_nth.
  destruct (Z.eqb_spec j i) as [->|Hne].
  - rewrite Nat.eqb_refl.
    destruct (Nat.ltb_spec (Z.to_nat i) (List.length a)); [reflexivity|lia].
  - destruct (Nat.eqb_spec (Z.to_nat j) (Z.to_nat i)); [lia|reflexivity].
Qed.

(** ** [init_test_points]: the points of the grid *)

Section GridPoints.

Variable DM_GRID_DIMENSION : Z.
Variable probe_radius : float.
Hypothesis grid_side : (2 <= DM_GRID_DIMENSION)%Z.
Hypothesis radius_pos : 0 < probe_radius.

Local Abbreviation N := DM_GRID_DIMENSION.
Local Abbreviation R := probe_radius.
Local Abbreviation spacing := (point_spacing N R).

Lemma spacing_full : inject_Z (N - 1) * spacing == R * 2.
Proof.
  unfold point_spacing. field.
  generalize (side_pos N grid_side). lra.
Qed.

Lemma spacing_pos : 0 < spacing.
Proof.
  unfold point_spacing. apply Qlt_shift_div_l.
  - apply (side_pos N grid_side).
  - lra.
Qed.

Lemma spacing_scaler : spacing * cartesian_to_array_scaler N R == 1.
Proof.
  unfold point_spacing, cartesian_to_array_scaler. field.
  generalize (side_pos N grid_side). lra.
Qed.

Lemma grid_x_succ (c : Z) : grid_x N R (c + 1) == grid_x N R c + spacing.
Proof. unfold grid_x. rewrite inject_Z_plus. ring. Qed.

Lemma grid_y_succ (r : Z) : grid_y N R (r + 1) == grid_y N R r - spacing.
Proof. unfold grid_y. rewrite inject_Z_plus. ring. Qed.

Lemma grid_x_le (c : Z) : grid_x N R c <= R <-> (c <= N - 1)%Z.
Proof.
  unfold grid_x. generalize spacing_full spacing_pos. intros Hf Hp.
  rewrite Zle_Qle. split; intro H.
  - apply Qnot_lt_le. intro L.
    assert (inject_Z (N - 1) * spacing < inject_Z c * spacing)
      by (apply Qmult_lt_compat_r; assumption).
    lra.
  - assert (inject_Z c * spacing <= inject_Z (N - 1) * spacing)
      by (apply Qmult_le_compat_r; lra).
    lra.
Qed.

Lemma grid_y_ge (r : Z) : - R <= grid_y N R r <-> (r <= N - 1)%Z.
Proof.
  rewrite <- grid_x_le. unfold grid_x, grid_y. split; intro; lra.
Qed.

Lemma grid_x_0 : grid_x N R 0 == - R.
Proof. unfold grid_x. change (inject_Z 0) with 0. ring. Qed.

Lemma grid_y_0 : grid_y N R 0 == R.
Proof. unfold grid_y. change (inject_Z 0) with 0. ring. Qed.

Lemma grid_x_last : grid_x N R (N - 1) == R.
Proof. unfold grid_x. rewrite spacing_full. ring. Qed.

Lemma grid_y_last : grid_y N R (N - 1) == - R.
Proof. unfold grid_y. rewrite spacing_full. ring. Qed.

(** The inner loop started in column [k] writes columns [k .. N-1]. *)
Lemma test_point_row_spec (n : nat) :
  forall (k : nat) (fuel : nat) (x y y' : float),
    (Z.of_nat k + Z.of_nat n = N)%Z -> x == grid_x N R (Z.of_nat k) ->
    y == y' -> (n < fuel)%nat ->
    exists l, test_point_row N R fuel x y = Some l /\
      Forall2 pt_eq l
        (map (fun c => (grid_x N R (Z.of_nat c), y')) (seq k n)).
Proof.
  induction n as [|n IH]; intros k fuel x y y' Hk Hx Hy Hfuel.
  - destruct fuel as [|fuel]; [lia|]. simpl.
    assert (Hgt : R < x).
    { rewrite Hx. apply Qnot_le_lt. rewrite grid_x_le. lia. }
    apply Qle_bool_false_iff in Hgt. rewrite Hgt.
    exists []. split; [reflexivity|constructor].
  - destruct fuel as [|fuel]; [lia|]. simpl.
    assert (Hle : x <= R) by (rewrite Hx; apply grid_x_le; lia).
    apply Qle_bool_iff in Hle. rewrite Hle.
    destruct (IH (S k) fuel (x + spacing) y y') as (l & Hl & HF); try lia; auto.
    { rewrite Hx, Nat2Z.inj_succ, <- Z.add_1_r. symmetry. apply grid_x_succ. }
    rewrite Hl. eexists; split; [reflexivity|].
    constructor; [split; assumption | exact HF].
Qed.

(** The outer loop started in row [k] writes rows [k .. N-1]. *)
Lemma test_point_rows_spec (n : nat) :
  forall (k : nat) (fuel_x fuel : nat) (y : float),
    (Z.of_nat k + Z.of_nat n = N)%Z -> y == grid_y N R (Z.of_nat k) ->
    (Z.to_nat N < fuel_x)%nat -> (n < fuel)%nat ->
    exists l, test_point_rows N R fuel_x fuel y = Some l /\
      Forall2 pt_eq l
        (flat_map (fun r => map (fun c => grid_point N R (Z.of_nat r) (Z.of_nat c))
                                (seq 0 (Z.to_nat N)))
                  (seq k n)).
Proof.
  induction n as [|n IH]; intros k fuel_x fuel y Hk Hy Hfx Hfuel.
  - destruct fuel as [|fuel]; [lia|]. simpl.
    assert (Hlt : y < - R).
    { rewrite Hy. apply Qnot_le_lt. rewrite grid_y_ge. lia. }
    apply Qle_bool_false_iff in Hlt. rewrite Hlt.
    exists []. split; [reflexivity|constructor].
  - destruct fuel as [|fuel]; [lia|]. simpl.
    assert (Hge : - R <= y) by (rewrite Hy; apply grid_y_ge; lia).
    apply Qle_bool_iff in Hge. rewrite Hge.
    destruct (test_point_row_spec (Z.to_nat N) 0 fuel_x (- R) y
                (grid_y N R (Z.of_nat k))) as (row & Hrow & HFrow); try lia; auto.
    { symmetry. apply grid_x_0. }
    destruct (IH (S k) fuel_x fuel (y - spacing)) as (l & Hl & HF); try lia; auto.
    { rewrite Hy, Nat2Z.inj_succ, <- Z.add_1_r. symmetry. apply grid_y_succ. }
    rewrite Hrow, Hl. eexists; split; [reflexivity|].
    apply Forall2_app; assumption.
Qed.

End GridPoints.

(** ** [find_nearest_test_point]: what the scan returns *)

Section NearestScan.

Variable g : grid.
Variable pos : point2.

Lemma eligible_test (i : Z) :
  (active_point_eqb (get TP_INACTIVE (active_point g) i) TP_ACTIVE
   || active_point_eqb (get TP_INACTIVE (active_point g) i) TP_CENTER) = true
  <-> eligible g i.
Proof.
  unfold eligible.
  destruct (get TP_INACTIVE (active_point g) i); simpl; intuition congruence.
Qed.

Lemma scan_step (k : Z) (acc : dist * Z) :
  (0 <= k)%Z -> scan_inv g pos k acc ->
  scan_inv g pos (k + 1) (nearest_step g pos acc k).
Proof.
  intros Hk. destruct acc as [lowest idx]. unfold scan_inv, nearest_step.
  destruct (active_point_eqb (get TP_INACTIVE (active_point g) k) TP_ACTIVE
            || active_point_eqb (get TP_INACTIVE (active_point g) k) TP_CENTER)
    eqn:El.
  - apply eligible_test in El. unfold dist_ltb.
    destruct (Qlt_bool (dist_sq (distance2D pos (get origin (test_point g) k)))
                       (dist_sq lowest)) eqn:Lt;
      [apply Qlt_bool_iff in Lt | apply Qlt_bool_false_iff in Lt].
    + intros [(-> & -> & H) | (Hidx & He & -> & Hlt & H)]; right;
        (split; [lia|]); (split; [exact El|]); (split; [reflexivity|]).
      * split; [exact Lt|]. intros i Hi Ei.
        destruct (Z.eq_dec i k) as [->|Hne].
        -- split; [apply Qle_refl|lia].
        -- assert (999 * 999 <= dsq g pos i) by (apply H; auto; lia).
           change (dist_sq (dist_of_float 999)) with (999 * 999) in Lt.
           fold (dsq g pos k) in Lt |- *.
           split; [|intros _]; lra.
      * fold (dsq g pos k) in Lt |- *. fold (dsq g pos idx) in Lt.
        split; [lra|]. intros i Hi Ei.
        destruct (Z.eq_dec i k) as [->|Hne].
        -- split; [apply Qle_refl|lia].
        -- destruct (H i) as [H1 H2]; auto; [lia|].
           split; [|intros _]; lra.
    + intros [(-> & -> & H) | (Hidx & He & -> & Hlt & H)].
      * left. split; [reflexivity|]. split; [reflexivity|].
        intros i Hi Ei. destruct (Z.eq_dec i k) as [->|Hne].
        -- exact Lt.
        -- apply H; auto; lia.
      * right. split; [lia|]. split; [exact He|]. split; [reflexivity|].
        split; [exact Hlt|]. intros i Hi Ei.
        destruct (Z.eq_dec i k) as [->|Hne].
        -- split; [exact Lt|lia].
        -- apply H; auto; lia.
  - assert (Hn : ~ eligible g k).
    { intro E. apply eligible_test in E. congruence. }
    intros [(-> & -> & H) | (Hidx & He & -> & Hlt & H)].
    + left. split; [reflexivity|]. split; [reflexivity|].
      intros i Hi Ei. destruct (Z.eq_dec i k) as [->|Hne]; [contradiction|].
      apply H; auto; lia.
    + right. split; [lia|]. split; [exact He|]. split; [reflexivity|].
      split; [exact Hlt|]. intros i Hi Ei.
      destruct (Z.eq_dec i k) as [->|Hne]; [contradiction|].
      apply H; auto; lia.
Qed.

Lemma scan_prefix (k : nat) :
  scan_inv g pos (Z.of_nat k)
    (fold_left (nearest_step g pos) (Zrange (Z.of_nat k))
               (dist_of_float 999, 0%Z)).
Proof.
  induction k as [|k IH].
  - simpl. left. split; [reflexivity|]. split; [reflexivity|]. intros; lia.
  - rewrite Nat2Z.inj_succ, <- Z.add_1_r.
    rewrite Zrange_succ by lia. rewrite fold_left_app. simpl.
    apply scan_step; [lia|exact IH].
Qed.

End NearestScan.

Section NearestFacts.

Variable DM_GRID_DIMENSION : Z.
Hypothesis grid_side : (0 <= DM_GRID_DIMENSION)%Z.
Local Abbreviation N := DM_GRID_DIMENSION.

(** With an eligible point nearer than 999, the scan returns the first
    eligible point at the least distance. *)
Lemma find_nearest_spec (g : grid) (pos : point2) (i0 : Z) :
  (0 <= i0 < DM_GRID_ELEMENTS N)%Z -> eligible g i0 ->
  dsq g pos i0 < 999 * 999 ->
  let j := find_nearest_test_point N g pos in
  (0 <= j < DM_GRID_ELEMENTS N)%Z /\ eligible g j /\
  forall i, (0 <= i < DM_GRID_ELEMENTS N)%Z -> eligible g i ->
            dsq g pos j <= dsq g pos i /\
            ((i < j)%Z -> dsq g pos j < dsq g pos i).
Proof.
  intros Hi0 E0 L0. unfold find_nearest_test_point.
  generalize (scan_prefix g pos (Z.to_nat (DM_GRID_ELEMENTS N))).
  rewrite Z2Nat.id by lia.
  destruct (fold_left _ _ _) as [lowest idx]. simpl.
  intros [(-> & -> & H) | (Hidx & He & -> & Hlt & H)].
  - specialize (H i0 Hi0 E0). lra.
  - auto.
Qed.

(** With no eligible point nearer than 999, the scan returns index 0. *)
Lemma find_nearest_far (g : grid) (pos : point2) :
  (forall i, (0 <= i < DM_GRID_ELEMENTS N)%Z -> eligible g i ->
             999 * 999 <= dsq g pos i) ->
  find_nearest_test_point N g pos = 0%Z.
Proof.
  intros Hfar. unfold find_nearest_test_point.
  generalize (scan_prefix g pos (Z.to_nat (DM_GRID_ELEMENTS N))).
  assert (Hpos : (0 <= DM_GRID_ELEMENTS N)%Z) by (unfold DM_GRID_ELEMENTS; nia).
  rewrite Z2Nat.id by lia.
  destruct (fold_left _ _ _) as [lowest idx]. simpl.
  intros [(-> & _) | (Hidx & He & -> & Hlt & H)]; [reflexivity|].
  specialize (Hfar idx Hidx He). lra.
Qed.

End NearestFacts.

(** ** [init_test_points]: the classification *)

Lemma flat_map_map {A B C : Type} (f : B -> list C) (h : A -> B) (l : list A) :
  flat_map f (map h l) = flat_map (fun a => f (h a)) l.
Proof. induction l as [|a l IH]; simpl; [reflexivity|]. rewrite IH. reflexivity. Qed.

Lemma Forall2_nth_rel {A B : Type} (P : A -> B -> Prop) (l : list A) (l' : list B)
      (da : A) (db : B) :
  Forall2 P l l' ->
  forall i, (i < List.length l)%nat -> P (nth i l da) (nth i l' db).
Proof.
  induction 1 as [|a b l l' Hab HF IH]; intros i Hi; simpl in *; [lia|].
  destruct i as [|i]; [exact Hab|]. apply IH. lia.
Qed.

Lemma pt_eq_distance (pos p q : point2) :
  pt_eq p q -> dist_sq (distance2D pos p) == dist_sq (distance2D pos q).
Proof.
  intros [H1 H2]. unfold distance2D. simpl. rewrite H1, H2. reflexivity.
Qed.

Lemma dist_le_float_iff (a : dist) (r : float) :
  0 <= r -> (dist_le_float a r = true <-> dist_sq a <= r * r).
Proof.
  intro Hr. unfold dist_le_float. rewrite andb_true_iff, !Qle_bool_iff. tauto.
Qed.

Section InitFacts.

Variable DM_GRID_DIMENSION : Z.
Variable probe_radius : float.
Hypothesis grid_side : (3 <= DM_GRID_DIMENSION)%Z.
Hypothesis radius_pos : 0 < probe_radius.

Local Abbreviation N := DM_GRID_DIMENSION.
Local Abbreviation R := probe_radius.
Local Abbreviation NR := (neighboring_probe_radius N R).

Lemma grid_side2 : (2 <= N)%Z.
Proof. lia. Qed.

Lemma ref_grid_length : Z.of_nat (List.length (ref_grid N R)) = DM_GRID_ELEMENTS N.
Proof. unfold ref_grid. apply length_grid_fill. lia. Qed.

Lemma ref_grid_get (r c : Z) :
  (0 <= r < N)%Z -> (0 <= c < N)%Z ->
  get origin (ref_grid N R) (r * N + c) = grid_point N R r c.
Proof. intros. unfold ref_grid. apply get_grid_fill; assumption. Qed.

(** With enough fuel the two nested float loops stop after writing
    exactly the [N * N] grid points, row by row. *)
Lemma test_points_spec (fuel : nat) :
  (Z.to_nat N < fuel)%nat ->
  exists tp, test_point_rows N R fuel fuel R = Some tp /\
             Forall2 pt_eq tp (ref_grid N R) /\
             Z.of_nat (List.length tp) = DM_GRID_ELEMENTS N.
Proof.
  intro Hfuel.
  destruct (test_point_rows_spec N R grid_side2 radius_pos
              (Z.to_nat N) 0 fuel fuel R) as (tp & Htp & HF); try lia.
  { symmetry. apply grid_y_0. }
  exists tp. split; [exact Htp|].
  assert (HF' : Forall2 pt_eq tp (ref_grid N R)).
  { unfold ref_grid, Zrange. rewrite flat_map_map.
    erewrite flat_map_ext; [exact HF|].
    intro r. simpl. rewrite map_map. reflexivity. }
  split; [exact HF'|].
  rewrite (Forall2_length HF'). apply ref_grid_length.
Qed.

Lemma test_points_get (tp : list point2) (r c : Z) :
  Forall2 pt_eq tp (ref_grid N R) ->
  (0 <= r < N)%Z -> (0 <= c < N)%Z ->
  pt_eq (get origin tp (r * N + c)) (grid_point N R r c).
Proof.
  intros HF Hr Hc. rewrite <- ref_grid_get by assumption.
  unfold get. apply Forall2_nth_rel; [exact HF|].
  rewrite (Forall2_length HF).
  generalize ref_grid_length. unfold DM_GRID_ELEMENTS. nia.
Qed.

Lemma neighboring_radius_pos : 0 < NR.
Proof.
  unfold neighboring_probe_radius.
  assert (H : 0 < inject_Z (Z.quot (N - 1) 2)).
  { change 0 with (inject_Z 0). rewrite <- Zlt_Qlt.
    rewrite Z.quot_div_nonneg by lia.
    apply Z.div_str_pos. lia. }
  assert (0 < R / inject_Z (Z.quot (N - 1) 2))
    by (apply Qlt_shift_div_l; [exact H|lra]).
  lra.
Qed.

(** What the classification loop writes for row [r], column [c]. *)
Lemma classify_circle (tp : list point2) (r c : Z) :
  (0 <= r < N)%Z ->
  let p := get origin tp (r * N + c) in
  (within p R -> classify N R PSS_CIRCLE tp r c = TP_ACTIVE) /\
  (~ within p R -> within p NR -> r <> 0%Z -> r <> (N - 1)%Z ->
   classify N R PSS_CIRCLE tp r c = TP_ACTIVE_NEIGHBOR) /\
  (~ within p R -> ~ (within p NR /\ r <> 0%Z /\ r <> (N - 1)%Z) ->
   classify N R PSS_CIRCLE tp r c = TP_INACTIVE).
Proof.
  intros Hr p. unfold classify. fold p.
  generalize neighboring_radius_pos. intro HNR.
  destruct (dist_le_float (distance2D origin p) R) eqn:E1.
  - apply dist_le_float_iff in E1; [|lra].
    split; [reflexivity|]. split; intros; contradiction.
  - assert (H1 : ~ within p R).
    { intro W. apply (dist_le_float_iff _ R) in W; [|lra]. congruence. }
    split; [intro; contradiction|].
    destruct (dist_le_float (distance2D origin p) NR) eqn:E2.
    + apply dist_le_float_iff in E2; [|lra].
      destruct (Z.eqb_spec r 0); destruct (Z.eqb_spec r (N - 1));
        destruct (Z.eqb_spec r (- (N - 1))); simpl;
        split; intros; try reflexivity; try lia; try tauto.
    + assert (H2 : ~ within p NR).
      { intro W. apply (dist_le_float_iff _ NR) in W; [|lra]. congruence. }
      simpl. split; intros; [contradiction|reflexivity].
Qed.

Lemma classify_all_get (shape : surface_shape_t) (tp : list point2) (r c : Z) :
  (0 <= r < N)%Z -> (0 <= c < N)%Z ->
  get TP_INACTIVE (classify_all N R shape tp) (r * N + c)
  = classify N R shape tp r c.
Proof. intros. unfold classify_all. apply get_grid_fill; assumption. Qed.

Lemma classify_all_length (shape : surface_shape_t) (tp : list point2) :
  Z.of_nat (List.length (classify_all N R shape tp)) = DM_GRID_ELEMENTS N.
Proof. unfold classify_all. apply length_grid_fill. lia. Qed.

End InitFacts.

Section CentreFacts.

Variable DM_GRID_DIMENSION : Z.
Variable probe_radius : float.
Hypothesis grid_side : (3 <= DM_GRID_DIMENSION)%Z.
Hypothesis grid_odd : Z.odd DM_GRID_DIMENSION = true.
Hypothesis radius_pos : 0 < probe_radius.

Local Abbreviation N := DM_GRID_DIMENSION.
Local Abbreviation R := probe_radius.
Local Abbreviation c0 := ((DM_GRID_DIMENSION - 1) / 2)%Z.

Lemma centre_double : (2 * c0 = N - 1)%Z.
Proof.
  generalize grid_odd. rewrite Z.odd_spec. intros [m Hm].
  replace (N - 1)%Z with (m * 2)%Z by lia. rewrite Z.div_mul by lia. lia.
Qed.

Lemma grid_x_zero (c : Z) : grid_x N R c == 0 <-> c = c0.
Proof.
  generalize centre_double (spacing_full N R (grid_side2 N grid_side))
             (spacing_pos N R (grid_side2 N grid_side) radius_pos).
  intros Hd Hf Hp. unfold grid_x. split.
  - intro H.
    assert (E : (inject_Z (2 * c) - inject_Z (N - 1)) * point_spacing N R == 0).
    { rewrite inject_Z_mult. change (inject_Z 2) with 2.
      setoid_replace ((2 * inject_Z c - inject_Z (N - 1)) * point_spacing N R)
        with (2 * (inject_Z c * point_spacing N R)
              - inject_Z (N - 1) * point_spacing N R) by ring.
      rewrite Hf. lra. }
    apply Qmult_integral in E. destruct E as [E|E]; [|lra].
    assert (E' : inject_Z (2 * c) == inject_Z (N - 1)) by lra.
    rewrite inject_Z_injective in E'. lia.
  - intros ->.
    assert (E : inject_Z (N - 1) == 2 * inject_Z c0).
    { change 2 with (inject_Z 2). rewrite <- inject_Z_mult.
      rewrite inject_Z_injective. lia. }
    rewrite E in Hf. lra.
Qed.

Lemma grid_y_zero (r : Z) : grid_y N R r == 0 <-> r = c0.
Proof.
  rewrite <- grid_x_zero. unfold grid_x, grid_y. split; intro; lra.
Qed.

Lemma dsq_origin_zero (p : point2) :
  dist_sq (distance2D origin p) <= 0 -> fst p == 0 /\ snd p == 0.
Proof.
  unfold distance2D, origin. simpl. intro H.
  assert (H1 : 0 <= fst p * fst p) by nra.
  assert (H2 : 0 <= snd p * snd p) by nra.
  split.
  - assert (E : fst p * fst p == 0) by lra.
    apply Qmult_integral in E. tauto.
  - assert (E : snd p * snd p == 0) by lra.
    apply Qmult_integral in E. tauto.
Qed.

(** On the freshly classified grid the point nearest to the origin is
    the middle cell. *)
Lemma centre_index (tp : list point2) :
  Forall2 pt_eq tp (ref_grid N R) ->
  find_nearest_test_point N (mk_grid tp (classify_all N R PSS_CIRCLE tp)) origin
  = (c0 * N + c0)%Z.
Proof.
  intro HF. generalize centre_double. intro Hd.
  set (g := mk_grid tp (classify_all N R PSS_CIRCLE tp)).
  assert (Hc0 : (0 <= c0 < N)%Z) by lia.
  assert (Hp0 : pt_eq (get origin tp (c0 * N + c0)) (0, 0)).
  { destruct (test_points_get N R grid_side tp c0 c0 HF Hc0 Hc0) as [H1 H2].
    simpl in H1, H2. split; simpl.
    - rewrite H1. apply grid_x_zero. reflexivity.
    - rewrite H2. apply grid_y_zero. reflexivity. }
  assert (Hz : dist_sq (distance2D origin (get origin tp (c0 * N + c0))) == 0).
  { rewrite (pt_eq_distance origin _ (0, 0) Hp0).
    unfold distance2D, origin. simpl. ring. }
  assert (Hd0 : dsq g origin (c0 * N + c0) == 0) by exact Hz.
  assert (He0 : eligible g (c0 * N + c0)).
  { left. simpl. rewrite classify_all_get by (lia || assumption).
    apply (classify_circle N R grid_side radius_pos); [lia|]. unfold within.
    rewrite Hz. nra. }
  destruct (find_nearest_spec N g origin (c0 * N + c0))
    as (Hj & Ej & Hmin).
  { unfold DM_GRID_ELEMENTS. nia. }
  { exact He0. }
  { rewrite Hd0. reflexivity. }
  set (j := find_nearest_test_point N g origin) in *.
  destruct (Hmin (c0 * N + c0)%Z) as [Hle _]; [unfold DM_GRID_ELEMENTS; nia|exact He0|].
  rewrite Hd0 in Hle.
  destruct (index_row_col N j) as (Hr & Hc & Hrc); [lia|exact Hj|].
  assert (Hpj : pt_eq (get origin tp j) (grid_point N R (j / N) (j mod N))).
  { rewrite Hrc at 1. apply test_points_get; assumption. }
  destruct (dsq_origin_zero _ Hle) as [Hx Hy].
  destruct Hpj as [Hpx Hpy]. simpl in Hpx, Hpy. simpl in Hx, Hy.
  rewrite Hpx in Hx. rewrite Hpy in Hy.
  apply grid_x_zero in Hx. apply grid_y_zero in Hy.
  rewrite Hrc, Hx, Hy. reflexivity.
Qed.

End CentreFacts.

(** ** C3: classification of the grid points *)

(** A whole-number grid has a positive radius. *)
Lemma whole_number_grid_pos (DM_GRID_DIMENSION : Z) (probe_radius : float) :
  (2 <= DM_GRID_DIMENSION)%Z ->
  whole_number_grid DM_GRID_DIMENSION probe_radius -> 0 < probe_radius.
Proof.
  intros HN (r & k & HR & Hk & Hrk & _). rewrite HR.
  change 0 with (inject_Z 0). rewrite <- Zlt_Qlt. nia.
Qed.

Lemma whole_number_grid_below (DM_GRID_DIMENSION : Z) (probe_radius : float) :
  whole_number_grid DM_GRID_DIMENSION probe_radius -> probe_radius < 999.
Proof.
  intros (r & k & HR & _ & _ & Hr). rewrite HR.
  change 999 with (inject_Z 999). rewrite <- Zlt_Qlt. exact Hr.
Qed.

(** C3 (amended).  For a circular platform and an odd grid side N >= 3
    on a whole-number grid (the radius R a whole number of millimetres
    below 999, the point spacing 2R / (N-1) a whole number too),
    [init_test_points] terminates with the N*N grid points laid out row
    by row; the middle cell is tagged Center, and every other cell is
    tagged Active when its distance from the origin is at most R,
    ActiveNeighbor when it is farther than R, within R + R / ((N-1)/2)
    and not in the first or last row (columns are not examined), and
    Inactive otherwise. *)
Theorem init_test_points_circle_classification
        (DM_GRID_DIMENSION : Z) (probe_radius : float) (fuel : nat) :
  (3 <= DM_GRID_DIMENSION)%Z -> Z.odd DM_GRID_DIMENSION = true ->
  whole_number_grid DM_GRID_DIMENSION probe_radius ->
  (Z.to_nat DM_GRID_DIMENSION < fuel)%nat ->
  exists g,
    init_test_points DM_GRID_DIMENSION probe_radius fuel PSS_CIRCLE = Some g /\
    Forall2 pt_eq (test_point g) (ref_grid DM_GRID_DIMENSION probe_radius) /\
    Z.of_nat (List.length (active_point g)) = DM_GRID_ELEMENTS DM_GRID_DIMENSION /\
    (forall r c, middle_cell DM_GRID_DIMENSION r c ->
       get TP_INACTIVE (active_point g) (r * DM_GRID_DIMENSION + c) = TP_CENTER) /\
    classified_by_rule DM_GRID_DIMENSION probe_radius
      (outer_row DM_GRID_DIMENSION) (middle_cell DM_GRID_DIMENSION) g.
Proof.
  intros HN Hodd HW Hfuel.
  assert (HR : 0 < probe_radius)
    by (apply (whole_number_grid_pos DM_GRID_DIMENSION); [lia|exact HW]).
  destruct (test_points_spec DM_GRID_DIMENSION probe_radius HN HR fuel Hfuel)
    as (tp & Htp & HF & Hlen).
  unfold init_test_points. rewrite Htp, Hlen, Z.eqb_refl.
  rewrite (centre_index DM_GRID_DIMENSION probe_radius HN Hodd HR tp HF).
  eexists. split; [reflexivity|]. cbn [test_point active_point].
  pose proof (centre_double DM_GRID_DIMENSION Hodd) as Hd.
  pose proof (classify_all_length DM_GRID_DIMENSION probe_radius HN PSS_CIRCLE tp)
    as Hcl.
  set (c0 := ((DM_GRID_DIMENSION - 1) / 2)%Z) in *.
  assert (Hc0 : (0 <= c0 < DM_GRID_DIMENSION)%Z) by lia.
  assert (Hin : (0 <= c0 * DM_GRID_DIMENSION + c0
                 < Z.of_nat (List.length
                     (classify_all DM_GRID_DIMENSION probe_radius PSS_CIRCLE tp)))%Z).
  { rewrite Hcl. unfold DM_GRID_ELEMENTS. nia. }
  split; [exact HF|]. split; [rewrite write_length; exact Hcl|]. split.
  - intros r c [-> ->]. fold c0. rewrite get_write by (assumption || lia).
    rewrite Z.eqb_refl. reflexivity.
  - unfold classified_by_rule. cbn [test_point active_point].
    intros r c Hr Hc Hskip. unfold middle_cell in Hskip. fold c0 in Hskip.
    rewrite get_write by (assumption || nia).
    destruct (Z.eqb_spec (r * DM_GRID_DIMENSION + c)
                         (c0 * DM_GRID_DIMENSION + c0)) as [E|_].
    { exfalso. apply Hskip.
      assert (r = c0) by (destruct (Z.lt_trichotomy r c0) as [L|[L|L]]; nia).
      split; [assumption|nia]. }
    rewrite (classify_all_get DM_GRID_DIMENSION probe_radius) by assumption.
    destruct (classify_circle DM_GRID_DIMENSION probe_radius HN HR tp r c Hr)
      as (HA & HN' & HI).
    unfold tagged_by_rule, outer_row. split; [exact HA|]. split.
    + intro Hout. split.
      * intro E.
        destruct (Qlt_le_dec
                    ((neighboring_probe_radius DM_GRID_DIMENSION probe_radius)
                     * (neighboring_probe_radius DM_GRID_DIMENSION probe_radius))
                    (dist_sq (distance2D origin
                       (get origin tp (r * DM_GRID_DIMENSION + c))))) as [L|L].
        -- rewrite HI in E; [discriminate|exact Hout|].
           intros [W _]. unfold within in W. lra.
        -- split; [exact L|]. intros Hrow.
           rewrite HI in E; [discriminate|exact Hout|]. tauto.
      * intros [W Hrow]. apply HN'; auto.
    + intros Hout Hn. apply HI; [exact Hout|]. tauto.
Qed.

Lemma whole_number_grid_example : whole_number_grid 5 100.
Proof.
  exists 100%Z, 50%Z. split; [reflexivity|]. split; [lia|]. split; lia.
Qed.

Lemma init_test_points_circle_classification_witness :
  (3 <= 5)%Z /\ Z.odd 5 = true /\ whole_number_grid 5 100 /\
  (Z.to_nat 5 < 6)%nat /\
  exists g,
    init_test_points 5 100 6 PSS_CIRCLE = Some g /\
    Forall2 pt_eq (test_point g) (ref_grid 5 100) /\
    Z.of_nat (List.length (active_point g)) = DM_GRID_ELEMENTS 5 /\
    (forall r c, middle_cell 5 r c ->
       get TP_INACTIVE (active_point g) (r * 5 + c) = TP_CENTER) /\
    classified_by_rule 5 100 (outer_row 5) (middle_cell 5) g.
Proof.
  split; [lia|]. split; [reflexivity|].
  split; [exists 100%Z, 50%Z; split; [reflexivity|]; split; [lia|]; split; lia|].
  split; [simpl; lia|].
  apply (init_test_points_circle_classification 5 100 6);
    [lia | reflexivity
     | exists 100%Z, 50%Z; split; [reflexivity|]; split; [lia|]; split; lia
     | simpl; lia].
Defined.

(** In single precision the 5x5 grid of radius 100, a whole-number
    grid, is laid out exactly as in exact arithmetic; with a grid side
    of 7 and a radius of 64 the spacing 128 / 6 is rounded up, the
    seventh coordinate of a row or column overshoots the radius, and
    the loops write 36 points instead of 49. *)
Example binary32_layout_whole_number_grid :
  match Binary32.test_points 5 (Binary32.of_int 100) 6 with
  | Some tp =>
      Forall2 pt_eq
        (map (fun p => (Binary32.to_Q (fst p), Binary32.to_Q (snd p))) tp)
        (test_point example_grid)
  | None => False
  end.
Proof.
  vm_compute. repeat (constructor; [split; reflexivity|]). constructor.
Qed.

Example binary32_layout_short :
  option_map (@List.length _) (Binary32.test_points 7 (Binary32.of_int 64) 8)
  = Some 36%nat /\
  (DM_GRID_ELEMENTS 7 = 49)%Z.
Proof. split; vm_compute; reflexivity. Qed.

(** C3 as stated fails on the 5x5 grid of radius 100: the middle cell
    (distance 0) is tagged Center, not Active; and, the middle cell
    apart, cell (1, 4) = (100, 50) lies in the last column, yet is
    tagged ActiveNeighbor. *)
Lemma init_test_points_circle_not_as_specified :
  exists g,
    init_test_points 5 100 6 PSS_CIRCLE = Some g /\
    ~ classified_by_rule 5 100 (outer_row_or_column 5) nowhere g /\
    ~ classified_by_rule 5 100 (outer_row_or_column 5) (middle_cell 5) g.
Proof.
  eexists. split; [vm_compute; reflexivity|]. split.
  - intro H. specialize (H 2%Z 2%Z ltac:(lia) ltac:(lia) (fun F => F)).
    destruct H as [HA _].
    assert (W : within (0 # 200, 0 # 200) 100) by (vm_compute; discriminate).
    specialize (HA W). vm_compute in HA. discriminate.
  - intro H.
    assert (Hs : ~ middle_cell 5 1 4) by (unfold middle_cell; simpl; lia).
    specialize (H 1%Z 4%Z ltac:(lia) ltac:(lia) Hs).
    destruct H as (_ & HN & _).
    match type of HN with ~ within ?p _ -> _ =>
      assert (Hout : ~ within p 100) by (vm_compute; intro C; apply C; reflexivity)
    end.
    destruct (HN Hout) as [HN' _].
    destruct HN' as [_ Hex]; [vm_compute; reflexivity|].
    apply Hex. unfold outer_row_or_column. lia.
Qed.

(** ** C1, C2: [get_adjust_z] at the edge and at the grid points *)

Section CornerFacts.

Variable DM_GRID_DIMENSION : Z.
Variable probe_radius : float.
Hypothesis grid_side : (2 <= DM_GRID_DIMENSION)%Z.
Hypothesis radius_pos : 0 < probe_radius.

Local Abbreviation N := DM_GRID_DIMENSION.
Local Abbreviation R := probe_radius.

Lemma grid_x_range (c : Z) :
  (0 <= c < N)%Z -> - R <= grid_x N R c <= R.
Proof.
  intro Hc. split.
  - unfold grid_x.
    assert (0 <= inject_Z c * point_spacing N R).
    { apply Qmult_le_0_compat.
      - change 0 with (inject_Z 0). rewrite <- Zle_Qle. lia.
      - apply Qlt_le_weak. apply spacing_pos; assumption. }
    lra.
  - apply grid_x_le; [assumption|assumption|lia].
Qed.

Lemma grid_y_range (r : Z) :
  (0 <= r < N)%Z -> - R <= grid_y N R r <= R.
Proof.
  intro Hr. generalize (grid_x_range r Hr). unfold grid_x, grid_y. lra.
Qed.

(** At a grid point the array position is the cell itself. *)
Lemma bili_setup_grid_point (x y : float) (r c : Z) :
  (0 <= r < N)%Z -> (0 <= c < N)%Z ->
  x == grid_x N R c -> y == grid_y N R r ->
  let b := bili_setup N R x y in
  array_x b == inject_Z c /\ array_y b == inject_Z r /\
  x1 b = c /\ y1 b = r /\ x2 b = (c + 1)%Z /\ y2 b = (r + 1)%Z /\
  st_Q11 b = (r * N + c)%Z /\ st_Q12 b = ((r + 1) * N + c)%Z /\
  st_Q21 b = (r * N + (c + 1))%Z /\ st_Q22 b = ((r + 1) * N + (c + 1))%Z.
Proof.
  intros Hr Hc Hx Hy.
  unfold bili_setup;
    cbn [array_x array_y x1 y1 x2 y2 st_Q11 st_Q12 st_Q21 st_Q22].
  pose proof (grid_x_range c Hc) as Rx. pose proof (grid_y_range r Hr) as Ry.
  pose proof (spacing_scaler N R grid_side radius_pos) as Hss.
  assert (Ax : (clamp x (- R) R - - R) * cartesian_to_array_scaler N R
               == inject_Z c).
  { rewrite (clamp_id x) by (rewrite Hx; exact Rx). rewrite Hx. unfold grid_x.
    setoid_replace ((- R + inject_Z c * point_spacing N R - - R)
                    * cartesian_to_array_scaler N R)
      with (inject_Z c * (point_spacing N R * cartesian_to_array_scaler N R))
      by ring.
    rewrite Hss. ring. }
  assert (Ay : (- clamp y (- R) R - - R) * cartesian_to_array_scaler N R
               == inject_Z r).
  { rewrite (clamp_id y) by (rewrite Hy; exact Ry). rewrite Hy. unfold grid_y.
    setoid_replace ((- (R - inject_Z r * point_spacing N R) - - R)
                    * cartesian_to_array_scaler N R)
      with (inject_Z r * (point_spacing N R * cartesian_to_array_scaler N R))
      by ring.
    rewrite Hss. ring. }
  rewrite (Qfloor_comp _ _ Ax), (Qfloor_comp _ _ Ay), !Qfloor_Z.
  repeat split; try assumption; reflexivity.
Qed.

(** With the point on the corner [(x1, y1)] of its box the
    interpolation returns the height read at that corner. *)
Lemma bili_result_corner (b : bili_vars) (Q11 Q12 Q21 Q22 : float) :
  x2 b = (x1 b + 1)%Z -> y2 b = (y1 b + 1)%Z ->
  array_x b == inject_Z (x1 b) -> array_y b == inject_Z (y1 b) ->
  bili_result b Q11 Q12 Q21 Q22 == Q11.
Proof.
  intros Hx2 Hy2 Hax Hay. unfold bili_result.
  rewrite Hx2, Hy2, Hax, Hay.
  replace (x1 b + 1 - x1 b)%Z with 1%Z by lia.
  replace (y1 b + 1 - y1 b)%Z with 1%Z by lia.
  rewrite !inject_Z_plus. change (inject_Z 1) with 1. field.
Qed.

(** Plane correction off, depth correction on: at a grid point whose
    box stays inside the array, [get_adjust_z] returns the stored depth
    of that point. *)
Lemma get_adjust_z_grid_point (st : surface_transform_t) (x y : float) (r c : Z) :
  depth_enabled st = true -> active st = true -> plane_enabled st = false ->
  Z.of_nat (List.length (depth st)) = DM_GRID_ELEMENTS N ->
  (0 <= r < N)%Z -> (0 <= c < N)%Z ->
  ((r + 1) * N + (c + 1) < DM_GRID_ELEMENTS N)%Z ->
  x == grid_x N R c -> y == grid_y N R r ->
  exists v, get_adjust_z N R st x y = Some v /\
            v == get 0 (depth st) (r * N + c).
Proof.
  intros He Ha Hp Hlen Hr Hc Hin Hx Hy.
  destruct (bili_setup_grid_point x y r c Hr Hc Hx Hy)
    as (Ax & Ay & E1 & E2 & E3 & E4 & I11 & I12 & I21 & I22).
  unfold get_adjust_z. rewrite He, Ha, Hp. cbn [andb].
  set (b := bili_setup N R x y) in *.
  rewrite I11, I12, I21, I22.
  assert (Hb : forall i, (0 <= i <= (r + 1) * N + (c + 1))%Z ->
                          read (depth st) i = Some (get 0 (depth st) i)).
  { intros i Hi. apply read_get. rewrite Hlen. lia. }
  rewrite 4 Hb by nia.
  eexists. split; [reflexivity|].
  rewrite bili_result_corner; [ring | lia | lia | rewrite E1; exact Ax
                              | rewrite E2; exact Ay].
Qed.

End CornerFacts.

(** C1 (code defect).  When depth correction is enabled and active, a
    target on or below the bottom edge ([targetY <= -probe_radius]) is
    clamped to row N-1 of the grid, the lower row of its box is row N,
    and the subscript [st_Q12] is at least [DM_GRID_ELEMENTS]: the read
    of [surface_transform.depth] is outside the array. *)
Theorem get_adjust_z_reads_outside_depth_array
        (DM_GRID_DIMENSION : Z) (probe_radius : float)
        (st : surface_transform_t) (targetX targetY : float) :
  (2 <= DM_GRID_DIMENSION)%Z -> 0 < probe_radius ->
  depth_enabled st = true -> active st = true ->
  Z.of_nat (List.length (depth st)) = DM_GRID_ELEMENTS DM_GRID_DIMENSION ->
  targetY <= - probe_radius ->
  (DM_GRID_ELEMENTS DM_GRID_DIMENSION
   <= st_Q12 (bili_setup DM_GRID_DIMENSION probe_radius targetX targetY))%Z /\
  get_adjust_z DM_GRID_DIMENSION probe_radius st targetX targetY = None.
Proof.
  intros HN HR He Ha Hlen Hy. split.
  - apply (bili_setup_bottom_edge DM_GRID_DIMENSION probe_radius HN HR
             targetX targetY Hy).
  - apply get_adjust_z_bottom_edge; assumption.
Qed.

Lemma get_adjust_z_reads_outside_depth_array_witness :
  (2 <= 5)%Z /\ 0 < 100 /\ (- (100)) <= - (100) /\
  (DM_GRID_ELEMENTS 5 <= st_Q12 (bili_setup 5 100%Q 0%Q (- (100))%Q))%Z /\
  get_adjust_z 5 100 example_transform 0 (- (100)) = None.
Proof.
  split; [lia|]. split; [reflexivity|]. split; [apply Qle_refl|].
  apply (get_adjust_z_reads_outside_depth_array 5 100 example_transform
           0 (- (100)));
    [lia | reflexivity | reflexivity | reflexivity | reflexivity
     | apply Qle_refl].
Defined.

(** At the Cartesian coordinates of a grid point of the bottom row the
    lower row of the interpolation box is outside the depth array: the
    bounds-checked [get_adjust_z] has no result there. *)
Lemma get_adjust_z_bottom_row_grid_point
        (DM_GRID_DIMENSION : Z) (probe_radius : float) (fuel : nat)
        (shape : surface_shape_t) (g : grid)
        (st : surface_transform_t) (c : Z) :
  (3 <= DM_GRID_DIMENSION)%Z -> 0 < probe_radius ->
  (Z.to_nat DM_GRID_DIMENSION < fuel)%nat ->
  init_test_points DM_GRID_DIMENSION probe_radius fuel shape = Some g ->
  depth_enabled st = true -> active st = true -> plane_enabled st = false ->
  Z.of_nat (List.length (depth st)) = DM_GRID_ELEMENTS DM_GRID_DIMENSION ->
  (0 <= c < DM_GRID_DIMENSION)%Z ->
  let p := get origin (test_point g)
               ((DM_GRID_DIMENSION - 1) * DM_GRID_DIMENSION + c) in
  get_adjust_z DM_GRID_DIMENSION probe_radius st (fst p) (snd p) = None.
Proof.
  intros HN HR Hfuel Hinit He Ha Hp Hlen Hc p.
  assert (HF : Forall2 pt_eq (test_point g)
                       (ref_grid DM_GRID_DIMENSION probe_radius)).
  { destruct (test_points_spec DM_GRID_DIMENSION probe_radius HN HR fuel Hfuel)
      as (tp & Htp & HF & Hl).
    unfold init_test_points in Hinit. rewrite Htp, Hl, Z.eqb_refl in Hinit.
    injection Hinit as <-. exact HF. }
  apply get_adjust_z_bottom_edge; try assumption; [lia|].
  destruct (test_points_get DM_GRID_DIMENSION probe_radius HN (test_point g)
              (DM_GRID_DIMENSION - 1) c HF) as [_ Hy]; [lia|lia|].
  fold p in Hy. rewrite Hy. cbn [snd grid_point].
  rewrite (grid_y_last DM_GRID_DIMENSION probe_radius) by (lia || assumption).
  apply Qle_refl.
Qed.

Lemma example_grid_init : init_test_points 5 100 6 PSS_CIRCLE = Some example_grid.
Proof. vm_compute. reflexivity. Qed.

(** Where every read stays inside the array the two versions agree. *)
Lemma get_adjust_z_unchecked_agrees
      (DM_GRID_DIMENSION : Z) (probe_radius : float) (beyond : Z -> float)
      (st : surface_transform_t) (targetX targetY v : float) :
  get_adjust_z DM_GRID_DIMENSION probe_radius st targetX targetY = Some v ->
  get_adjust_z_unchecked DM_GRID_DIMENSION probe_radius beyond st targetX targetY
  = v.
Proof.
  unfold get_adjust_z, get_adjust_z_unchecked, peek.
  destruct (depth_enabled st && active st).
  - cbv zeta.
    destruct (read (depth st) (st_Q11 _)) as [q11|]; [|discriminate].
    destruct (read (depth st) (st_Q12 _)) as [q12|]; [|discriminate].
    destruct (read (depth st) (st_Q21 _)) as [q21|]; [|discriminate].
    destruct (read (depth st) (st_Q22 _)) as [q22|]; [|discriminate].
    intro H. injection H as <-. reflexivity.
  - intro H. injection H as <-. reflexivity.
Qed.

(** C2 (amended).  Depth correction on, plane correction off: at the
    Cartesian coordinates of a grid point, row [r] and column [c], with
    whole-number coordinates, whose array position single precision
    computes exactly, [get_adjust_z] returns the depth stored for that
    point, [depth[r * N + c]].  In the last row and the last column
    part of the interpolation box lies outside the depth array; the
    values read there are multiplied by zero, so the result is the
    stored depth whatever (finite) floats lie behind the array. *)
Theorem get_adjust_z_grid_point_depth
        (DM_GRID_DIMENSION radius xi yi : Z) (beyond : Z -> float)
        (st : surface_transform_t) (r c : Z) :
  (2 <= DM_GRID_DIMENSION)%Z -> (0 < radius < 2 ^ 24)%Z ->
  depth_enabled st = true -> active st = true -> plane_enabled st = false ->
  Z.of_nat (List.length (depth st)) = DM_GRID_ELEMENTS DM_GRID_DIMENSION ->
  (0 <= r < DM_GRID_DIMENSION)%Z -> (0 <= c < DM_GRID_DIMENSION)%Z ->
  inject_Z xi == grid_x DM_GRID_DIMENSION (inject_Z radius) c ->
  inject_Z yi == grid_y DM_GRID_DIMENSION (inject_Z radius) r ->
  binary32_finds_cell DM_GRID_DIMENSION radius xi yi r c ->
  read (depth st) (r * DM_GRID_DIMENSION + c)
  = Some (get 0 (depth st) (r * DM_GRID_DIMENSION + c)) /\
  get_adjust_z_unchecked DM_GRID_DIMENSION (inject_Z radius) beyond st
                         (inject_Z xi) (inject_Z yi)
  == get 0 (depth st) (r * DM_GRID_DIMENSION + c).
Proof.
  intros HN Hrad He Ha Hp Hlen Hr Hc Hx Hy _.
  assert (HR : 0 < inject_Z radius)
    by (change 0 with (inject_Z 0); rewrite <- Zlt_Qlt; lia).
  destruct (bili_setup_grid_point DM_GRID_DIMENSION (inject_Z radius) HN HR
              (inject_Z xi) (inject_Z yi) r c Hr Hc Hx Hy)
    as (Ax & Ay & E1 & E2 & E3 & E4 & I11 & _).
  assert (Hrd : read (depth st) (r * DM_GRID_DIMENSION + c)
                = Some (get 0 (depth st) (r * DM_GRID_DIMENSION + c))).
  { apply read_get. rewrite Hlen. unfold DM_GRID_ELEMENTS. nia. }
  split; [exact Hrd|].
  unfold get_adjust_z_unchecked. rewrite He, Ha, Hp. cbn [andb]. cbv zeta.
  set (b := bili_setup DM_GRID_DIMENSION (inject_Z radius)
                       (inject_Z xi) (inject_Z yi)) in *.
  rewrite bili_result_corner;
    [| lia | lia | rewrite E1; exact Ax | rewrite E2; exact Ay].
  unfold peek. rewrite I11, Hrd. ring.
Qed.

Lemma get_adjust_z_grid_point_depth_witness :
  (2 <= 5)%Z /\ (0 < 100 < 2 ^ 24)%Z /\ (0 <= 4 < 5)%Z /\ (0 <= 2 < 5)%Z /\
  inject_Z 0 == grid_x 5 (inject_Z 100) 2 /\
  inject_Z (-100) == grid_y 5 (inject_Z 100) 4 /\
  binary32_finds_cell 5 100 0 (-100) 4 2 /\
  get_adjust_z 5 100 example_transform 0 (- (100)) = None /\
  read (depth example_transform) (4 * 5 + 2)
  = Some (get 0 (depth example_transform) (4 * 5 + 2)) /\
  get_adjust_z_unchecked 5 (inject_Z 100) (fun i => inject_Z i)
                         example_transform (inject_Z 0) (inject_Z (-100))
  == 22 # 100.
Proof.
  split; [lia|]. split; [lia|]. split; [lia|]. split; [lia|].
  split; [reflexivity|]. split; [reflexivity|].
  split; [vm_compute; reflexivity|]. split; [reflexivity|].
  destruct (get_adjust_z_grid_point_depth 5 100 0 (-100) (fun i => inject_Z i)
              example_transform 4 2) as [H1 H2];
    [lia | lia | reflexivity | reflexivity | reflexivity | reflexivity
     | lia | lia | reflexivity | reflexivity | vm_compute; reflexivity |].
  split; [exact H1|]. rewrite H2. reflexivity.
Defined.

(** Single precision finds every cell of the 5x5 grid of radius 100
    exactly. *)
Example binary32_finds_every_cell :
  forall r c, In r (Zrange 5) -> In c (Zrange 5) ->
    binary32_finds_cell 5 100 (-100 + 50 * c) (100 - 50 * r) r c.
Proof.
  intros r c Hr Hc. cbn in Hr, Hc.
  repeat (destruct Hr as [<-|Hr]; [|]);
    try (exfalso; exact Hr);
    repeat (destruct Hc as [<-|Hc]; [|]);
    try (exfalso; exact Hc);
    vm_compute; reflexivity.
Qed.

Example binary32_grid_point_blend_value :
  Binary32.to_Q
    (Binary32.get_adjust_z 5 (Binary32.of_int 110)
       (fun _ => Binary32.of_int 0) example_depth_binary32
       (Binary32.of_int 0) (Binary32.of_int (-110)))
  = 12582911 # 2 ^ 43 /\
  Binary32.subscripts 5 (Binary32.of_int 110)
                      (Binary32.of_int 0) (Binary32.of_int (-110))
  = (16, 21, 17, 22)%Z.
Proof. split; vm_compute; reflexivity. Qed.

(** C2 as stated fails in single precision.  On the 5x5 grid of radius
    110 the scaler 4 / 220 is rounded down, so that the array position
    of grid point 22 = (0, -110) comes out just below (2, 4): the
    interpolation box is that of cell 16.  With a depth of 0 at point
    22 and of 4 elsewhere [get_adjust_z] returns the blend
    12582911 / 2^43, about 0.0000014, instead of the stored 0. *)
Lemma binary32_grid_point_blend : ~ grid_point_depth_returned.
Proof.
  intro H.
  specialize (H 5%Z 110%Z 0%Z (-110)%Z 4%Z 2%Z
                (fun _ => Binary32.of_int 0) example_depth_binary32).
  assert (E : Binary32.to_Q
                (Binary32.get_adjust_z 5 (Binary32.of_int 110)
                   (fun _ => Binary32.of_int 0) example_depth_binary32
                   (Binary32.of_int 0) (Binary32.of_int (-110)))
              = 12582911 # 8796093022208) by (vm_compute; reflexivity).
  assert (H' : read example_depth_binary32 (4 * 5 + 2)
               = Some (Binary32.get_adjust_z 5 (Binary32.of_int 110)
                         (fun _ => Binary32.of_int 0) example_depth_binary32
                         (Binary32.of_int 0) (Binary32.of_int (-110))))
    by (apply H; try lia; reflexivity).
  clear H E. vm_compute in H'. discriminate.
Qed.

(** With bounds-checked reads: at every test point whose interpolation
    box stays inside the array (all rows but the last, and the last
    column of the row before it excepted) the stored depth is
    returned. *)
Lemma get_adjust_z_inner_grid_point
      (DM_GRID_DIMENSION : Z) (probe_radius : float) (fuel : nat)
      (shape : surface_shape_t) (g : grid)
      (st : surface_transform_t) (r c : Z) :
  (3 <= DM_GRID_DIMENSION)%Z -> 0 < probe_radius ->
  (Z.to_nat DM_GRID_DIMENSION < fuel)%nat ->
  init_test_points DM_GRID_DIMENSION probe_radius fuel shape = Some g ->
  depth_enabled st = true -> active st = true -> plane_enabled st = false ->
  Z.of_nat (List.length (depth st)) = DM_GRID_ELEMENTS DM_GRID_DIMENSION ->
  (0 <= r < DM_GRID_DIMENSION)%Z -> (0 <= c < DM_GRID_DIMENSION)%Z ->
  ((r + 1) * DM_GRID_DIMENSION + (c + 1) < DM_GRID_ELEMENTS DM_GRID_DIMENSION)%Z ->
  let p := get origin (test_point g) (r * DM_GRID_DIMENSION + c) in
  exists v,
    get_adjust_z DM_GRID_DIMENSION probe_radius st (fst p) (snd p) = Some v /\
    v == get 0 (depth st) (r * DM_GRID_DIMENSION + c).
Proof.
  intros HN HR Hfuel Hinit He Ha Hp Hlen Hr Hc Hin p.
  assert (HF : Forall2 pt_eq (test_point g)
                       (ref_grid DM_GRID_DIMENSION probe_radius)).
  { destruct (test_points_spec DM_GRID_DIMENSION probe_radius HN HR fuel Hfuel)
      as (tp & Htp & HF & Hl).
    unfold init_test_points in Hinit. rewrite Htp, Hl, Z.eqb_refl in Hinit.
    injection Hinit as <-. exact HF. }
  destruct (test_points_get DM_GRID_DIMENSION probe_radius HN (test_point g)
              r c HF Hr Hc) as [Hx Hy].
  apply (get_adjust_z_grid_point DM_GRID_DIMENSION probe_radius);
    try assumption. lia.
Qed.

(** ** C8: the energy *)

Lemma Qsum_abs_nonneg (f : Z -> Q) (l : list Z) :
  0 <= Qsum (map (fun i => Qabs (f i)) l).
Proof.
  induction l as [|a l IH]; simpl; [apply Qle_refl|].
  generalize (Qabs_nonneg (f a)). lra.
Qed.

Lemma Qabs_zero_iff (q : Q) : Qabs q == 0 <-> q == 0.
Proof.
  split; intro H.
  - assert (Qabs q <= 0) by lra. apply Qabs_Qle_condition in H0. lra.
  - rewrite H. reflexivity.
Qed.

Lemma Qsum_abs_zero (f : Z -> Q) (l : list Z) :
  Qsum (map (fun i => Qabs (f i)) l) == 0 <-> (forall i, In i l -> f i == 0).
Proof.
  induction l as [|a l IH]; simpl.
  - split; [intros _ i []|reflexivity].
  - generalize (Qabs_nonneg (f a)) (Qsum_abs_nonneg f l). intros Ha Hl.
    split.
    + intros H i [<-|Hi].
      * apply Qabs_zero_iff. lra.
      * apply IH; [lra|exact Hi].
    + intros H.
      assert (E1 : Qabs (f a) == 0) by (apply Qabs_zero_iff; auto).
      assert (E2 : Qsum (map (fun i => Qabs (f i)) l) == 0) by (apply IH; auto).
      lra.
Qed.

(** The loop of [calc_energy] adds up the absolute heights of the
    Active points it meets and counts them. *)
Lemma calc_energy_loop (ap : list active_point_t) (cartesian : list vec3)
      (l : list Z) :
  forall (mu : float) (i : Z),
    fst (fold_left (calc_energy_step ap cartesian) l (mu, i))
    == mu + Qsum (map (fun k => Qabs (rel_height cartesian k))
                      (filter (fun k => active_point_eqb
                                          (get TP_INACTIVE ap k) TP_ACTIVE) l)) /\
    snd (fold_left (calc_energy_step ap cartesian) l (mu, i))
    = (i + Z.of_nat (List.length
                       (filter (fun k => active_point_eqb
                                           (get TP_INACTIVE ap k) TP_ACTIVE) l)))%Z.
Proof.
  induction l as [|a l IH]; intros mu i; cbn [fold_left filter].
  - simpl. split; [ring|lia].
  - destruct (active_point_eqb (get TP_INACTIVE ap a) TP_ACTIVE) eqn:E.
    + replace (calc_energy_step ap cartesian (mu, i) a)
        with (mu + fabs (vget (get (0, 0, 0) cartesian a) Z_), (i + 1)%Z)
        by (unfold calc_energy_step; rewrite E; reflexivity).
      destruct (IH (mu + fabs (vget (get (0, 0, 0) cartesian a) Z_)) (i + 1)%Z)
        as [H1 H2].
      split.
      * rewrite H1. unfold Qsum. cbn [map fold_right].
        unfold fabs, rel_height. ring.
      * rewrite H2. cbn [List.length]. lia.
    + replace (calc_energy_step ap cartesian (mu, i) a) with (mu, i)
        by (unfold calc_energy_step; rewrite E; reflexivity).
      apply IH.
Qed.

(** C8.  With at least one point tagged Active, [calc_energy] is the
    mean of the absolute relative heights over exactly the Active
    points; it is non-negative, and zero exactly when the relative
    height of every Active point is zero. *)
Theorem calc_energy_mean_abs_active
        (DM_GRID_DIMENSION : Z) (ap : list active_point_t)
        (cartesian : list vec3) :
  active_indices DM_GRID_DIMENSION ap <> [] ->
  calc_energy DM_GRID_DIMENSION ap cartesian
    == mean_abs_active DM_GRID_DIMENSION ap cartesian /\
  0 <= calc_energy DM_GRID_DIMENSION ap cartesian /\
  (calc_energy DM_GRID_DIMENSION ap cartesian == 0 <->
   forall i, (0 <= i < DM_GRID_ELEMENTS DM_GRID_DIMENSION)%Z ->
             get TP_INACTIVE ap i = TP_ACTIVE ->
             rel_height cartesian i == 0).
Proof.
  intro Hne.
  assert (Hmean : calc_energy DM_GRID_DIMENSION ap cartesian
                  == mean_abs_active DM_GRID_DIMENSION ap cartesian).
  { unfold calc_energy, mean_abs_active.
    destruct (calc_energy_loop ap cartesian
                (Zrange (DM_GRID_ELEMENTS DM_GRID_DIMENSION)) 0 0%Z) as [H1 H2].
    destruct (fold_left _ _ _) as [mu i]. simpl in H1, H2.
    fold (active_indices DM_GRID_DIMENSION ap) in H1, H2.
    rewrite H1, H2. rewrite Qplus_0_l. reflexivity. }
  set (act := active_indices DM_GRID_DIMENSION ap) in *.
  assert (Hcount : 0 < inject_Z (Z.of_nat (List.length act))).
  { change 0 with (inject_Z 0). rewrite <- Zlt_Qlt.
    destruct act; [congruence|simpl; lia]. }
  pose proof (Qsum_abs_nonneg (rel_height cartesian) act) as Hsum.
  split; [exact Hmean|]. split.
  - rewrite Hmean. unfold mean_abs_active. fold act.
    apply Qle_shift_div_l; [exact Hcount|lra].
  - rewrite Hmean. unfold mean_abs_active. fold act.
    assert (Hin : forall i, In i act <->
              (0 <= i < DM_GRID_ELEMENTS DM_GRID_DIMENSION)%Z /\
              get TP_INACTIVE ap i = TP_ACTIVE).
    { intro i. unfold act, active_indices. rewrite filter_In, Zrange_In.
      destruct (get TP_INACTIVE ap i); simpl; intuition congruence. }
    split.
    + intros H i Hi Hact.
      apply (Qsum_abs_zero (rel_height cartesian) act); [|apply Hin; auto].
      assert (E : Qsum (map (fun i0 : Z => Qabs (rel_height cartesian i0)) act)
                  == (Qsum (map (fun i0 : Z => Qabs (rel_height cartesian i0)) act)
                      / inject_Z (Z.of_nat (List.length act)))
                     * inject_Z (Z.of_nat (List.length act))).
      { field. lra. }
      rewrite E, H. ring.
    + intros H.
      assert (E : Qsum (map (fun i0 : Z => Qabs (rel_height cartesian i0)) act) == 0).
      { apply Qsum_abs_zero. intros i Hi. apply Hin in Hi. apply H; tauto. }
      rewrite E. field. lra.
Qed.

Lemma calc_energy_mean_abs_active_witness :
  active_indices 5 (active_point example_grid) <> [] /\
  calc_energy 5 (active_point example_grid) example_cartesian
    == mean_abs_active 5 (active_point example_grid) example_cartesian /\
  0 <= calc_energy 5 (active_point example_grid) example_cartesian /\
  (calc_energy 5 (active_point example_grid) example_cartesian == 0 <->
   forall i, (0 <= i < DM_GRID_ELEMENTS 5)%Z ->
             get TP_INACTIVE (active_point example_grid) i = TP_ACTIVE ->
             rel_height example_cartesian i == 0).
Proof.
  split; [vm_compute; discriminate|].
  apply (calc_energy_mean_abs_active 5 (active_point example_grid)
           example_cartesian).
  vm_compute; discriminate.
Defined.

(** ** C9: [find_nearest_test_point] *)

Lemma Qsquare_nonneg (a : Q) : 0 <= a * a.
Proof.
  destruct (Qlt_le_dec a 0) as [L|L].
  - setoid_replace (a * a) with ((- a) * (- a)) by ring.
    apply Qmult_le_0_compat; lra.
  - apply Qmult_le_0_compat; assumption.
Qed.

Lemma far_point (x y px py : Q) :
  x <= 100 -> 1100 <= px ->
  999 * 999 <= (x - px) * (x - px) + (y - py) * (y - py).
Proof.
  intros Hx Hp.
  assert (H1 : 0 <= (y - py) * (y - py)) by apply Qsquare_nonneg.
  assert (H2 : 1000 * 1000 <= (px - x) * (px - x)).
  { apply Qmult_le_compat_nonneg; split; lra. }
  setoid_replace ((x - px) * (x - px)) with ((px - x) * (px - x)) by ring.
  lra.
Qed.

Lemma example_grid_columns :
  Forall (fun p : point2 => fst p <= 100) (test_point example_grid).
Proof. repeat constructor; vm_compute; discriminate. Qed.

(** C9 (code defect).  On the 5x5 grid of radius 100, a query at least
    999 away from every grid point (here: [x >= 1100]) never beats the
    initial [lowest = 999], so the initial [lowest_idx = 0] is returned:
    the corner point (-100, 100), which is tagged Inactive, hence not
    one of the Active-or-Center points. *)
Theorem find_nearest_test_point_far_query (pos : point2) :
  1100 <= fst pos ->
  find_nearest_test_point 5 example_grid pos = 0%Z /\
  get TP_INACTIVE (active_point example_grid) 0 = TP_INACTIVE /\
  ~ eligible example_grid 0.
Proof.
  intro Hp. split; [|split; [reflexivity|]].
  - apply find_nearest_far. intros i Hi _. unfold dsq, distance2D.
    cbn [dist_sq]. apply far_point; [|exact Hp].
    pose proof example_grid_columns as HF. rewrite Forall_forall in HF.
    unfold get.
    destruct (nth_in_or_default (Z.to_nat i) (test_point example_grid) origin)
      as [Hin|Hd]; [apply HF; exact Hin|rewrite Hd; vm_compute; discriminate].
  - unfold eligible. vm_compute. intros [H|H]; discriminate.
Qed.

Lemma find_nearest_test_point_far_query_witness :
  1100 <= fst (2000, 0) /\
  find_nearest_test_point 5 example_grid (2000, 0) = 0%Z /\
  get TP_INACTIVE (active_point example_grid) 0 = TP_INACTIVE /\
  ~ eligible example_grid 0.
Proof.
  split; [vm_compute; discriminate|].
  apply (find_nearest_test_point_far_query (2000, 0)).
  vm_compute; discriminate.
Defined.

(** The sound part of C9: when some Active-or-Center point is nearer
    than 999, the returned subscript is valid, its point is Active or
    Center, and no Active-or-Center point is nearer. *)
Lemma find_nearest_test_point_sound
      (DM_GRID_DIMENSION : Z) (g : grid) (pos : point2) (i0 : Z) :
  (0 <= i0 < DM_GRID_ELEMENTS DM_GRID_DIMENSION)%Z -> eligible g i0 ->
  dsq g pos i0 < 999 * 999 ->
  let j := find_nearest_test_point DM_GRID_DIMENSION g pos in
  (0 <= j < DM_GRID_ELEMENTS DM_GRID_DIMENSION)%Z /\
  (get TP_INACTIVE (active_point g) j = TP_ACTIVE \/
   get TP_INACTIVE (active_point g) j = TP_CENTER) /\
  forall i, (0 <= i < DM_GRID_ELEMENTS DM_GRID_DIMENSION)%Z -> eligible g i ->
            dsq g pos j <= dsq g pos i.
Proof.
  intros Hi0 E0 L0 j.
  destruct (find_nearest_spec DM_GRID_DIMENSION g pos i0 Hi0 E0 L0)
    as (Hj & Ej & Hmin).
  split; [exact Hj|]. split; [exact Ej|].
  intros i Hi Ei. apply Hmin; assumption.
Qed.

(** ** C5: endstop trim in the iterative calibrator *)

Lemma minmax3_snd (a b c : Q) : snd (minmax3 a b c) == Qmax (Qmax a b) c.
Proof.
  unfold minmax3. cbn [snd]. rewrite fmax_Qmax.
  apply Q.max_compat; [apply fmax_Qmax|reflexivity].
Qed.

(** Subtracting the largest of three values from each leaves a largest
    value of zero. *)
Lemma normalized_max_zero (a b c : Q) :
  renormalized (a - snd (minmax3 a b c), b - snd (minmax3 a b c),
                c - snd (minmax3 a b c)).
Proof.
  unfold renormalized, vmax. unfold Qminus.
  rewrite !Q.plus_max_distr_r. rewrite minmax3_snd. ring.
Qed.

Lemma cap0_le (t : Q) : Iterative.cap0 t <= 0 /\ Iterative.cap0 t <= t.
Proof. unfold Iterative.cap0. qcases; split; lra. Qed.

Lemma cap0_lt (t : Q) : Iterative.cap0 t < -5 <-> t < -5.
Proof. unfold Iterative.cap0. qcases; split; lra. Qed.

Section IterativeFacts.

Import Iterative.

Variable probe : nat -> state -> option depths.

(** What the endstop block does to the trim store. *)
Lemma endstop_block_calls (depth : depths) (mm : float * float) (dev : float)
      (s : state) :
  match endstop_block depth mm dev s with
  | Return b s' => b = false /\ set_trim_calls s' = set_trim_calls s
  | Next s' =>
      set_trim_calls s' = set_trim_calls s \/
      exists t, set_trim_calls s' = t :: set_trim_calls s /\ renormalized t
  end.
Proof.
  unfold endstop_block.
  set (s0 := if endstop_needs_reset s then with_statics s 999 (13 # 10) false
             else s).
  assert (H0 : set_trim_calls s0 = set_trim_calls s /\ trim_store s0 = trim_store s).
  { unfold s0. destruct (endstop_needs_reset s); split; reflexivity. }
  destruct H0 as [H0 H0'].
  destruct (Qle_bool (fabs dev) target).
  - left. exact H0.
  - unfold get_trim. cbn [with_endstop_in_tolerance trim_store].
    destruct (trim_store s0) as [[[tx ty] tz]|].
    + destruct (Qlt_bool (cap0 tx) (-5) || Qlt_bool (cap0 ty) (-5)
                || Qlt_bool (cap0 tz) (-5)).
      * split; [reflexivity|exact H0].
      * right. eexists. split.
        -- cbn [set_trim set_trim_calls]. f_equal.
           destruct (Qle_bool _ _ && Qle_bool _ _); cbn; exact H0.
        -- apply normalized_max_zero.
    + split; [reflexivity|exact H0].
Qed.

Lemma delta_radius_block_calls (depth : depths) (s : state) :
  match delta_radius_block depth s with
  | Return b s' => b = false /\ set_trim_calls s' = set_trim_calls s
  | Next s' => set_trim_calls s' = set_trim_calls s
  end.
Proof.
  unfold delta_radius_block, get_delta_radius.
  destruct (delta_radius_store s); [|split; reflexivity].
  destruct (Qle_bool _ _); reflexivity.
Qed.

(** Every call of [set_trim] made in one iteration passes a
    renormalized trim. *)
Lemma iteration_calls (outer_i : nat) (s : state) :
  exists new,
    Forall renormalized new /\
    match iteration probe outer_i s with
    | Return _ s' | Next s' => set_trim_calls s' = new ++ set_trim_calls s
    end.
Proof.
  unfold iteration. destruct (probe outer_i s) as [depth|].
  2:{ exists []. split; [constructor|reflexivity]. }
  set (mm := minmax4 _ _ _ _).
  pose proof (endstop_block_calls depth mm (snd mm - fst mm) s) as He.
  destruct (endstop_block depth mm (snd mm - fst mm) s) as [b s1|s1].
  - exists []. split; [constructor|]. apply He.
  - pose proof (delta_radius_block_calls depth s1) as Hd.
    assert (Hs1 : exists new, Forall renormalized new /\
                              set_trim_calls s1 = new ++ set_trim_calls s).
    { destruct He as [He|(t & He & Ht)].
      - exists []. split; [constructor|exact He].
      - exists [t]. split; [repeat constructor; exact Ht|exact He]. }
    destruct Hs1 as (new & Hnew & Hs1). exists new. split; [exact Hnew|].
    destruct (delta_radius_block depth s1) as [b s2|s2].
    + destruct Hd as [_ Hd]. congruence.
    + destruct (endstop_in_tolerance s2 && delta_radius_in_tolerance s2); congruence.
Qed.

Lemma main_loop_calls (left : nat) :
  forall (outer_i : nat) (s : state),
  exists new,
    Forall renormalized new /\
    set_trim_calls (snd (main_loop probe left outer_i s))
    = new ++ set_trim_calls s.
Proof.
  induction left as [|left IH]; intros outer_i s; cbn [main_loop].
  - exists []. split; [constructor|reflexivity].
  - destruct (iteration_calls outer_i s) as (new & Hnew & H).
    destruct (iteration probe outer_i s) as [b s'|s'].
    + exists new. split; [exact Hnew|exact H].
    + destruct (IH (S outer_i) s') as (new' & Hnew' & H').
      exists (new' ++ new). split; [apply Forall_app; split; assumption|].
      rewrite H', H, app_assoc. reflexivity.
Qed.

End IterativeFacts.

(** The endstop correction of the running example: one call, with the
    X trim lowered by 1.3 and the largest trim at zero. *)
Example endstop_block_example :
  match Iterative.endstop_block (Iterative.mk_depths 0 1 0 0) (0, 1) 1
          (example_state (0, 0, 0)) with
  | Next s' =>
      match Iterative.set_trim_calls s' with
      | [(tx, ty, tz)] => tx == - (13 # 10) /\ ty == 0 /\ tz == 0
      | _ => False
      end
  | Return _ _ => False
  end.
Proof. vm_compute. repeat split; intro; discriminate. Qed.

(** C5 (amended).  In an iteration whose tower deviation is out of
    tolerance and whose trim query answers [(tx, ty, tz)]: a component
    below -5 makes the iteration, and with it the whole calibration,
    return failure without touching the trim store; with no component
    below -5 the endstop block does not abort, whatever the sign of the
    components: each positive component is replaced by 0, and the
    endstop correction of the trim so capped is handed to the store. *)
Theorem trim_sanity_check
        (probe : nat -> Iterative.state -> option Iterative.depths)
        (outer_i left : nat) (s : Iterative.state) (depth : Iterative.depths)
        (tx ty tz : float) :
  probe outer_i s = Some depth ->
  out_of_tolerance depth ->
  Iterative.get_trim s = Some (tx, ty, tz) ->
  ((tx < -5 \/ ty < -5 \/ tz < -5) ->
   (exists s', Iterative.iteration probe outer_i s = Return false s' /\
               Iterative.set_trim_calls s' = Iterative.set_trim_calls s) /\
   fst (Iterative.main_loop probe (S left) outer_i s) = false) /\
  ((-5 <= tx /\ -5 <= ty /\ -5 <= tz) ->
   exists s' t,
     Iterative.endstop_block depth
       (minmax4 (Iterative.d_CTR depth) (Iterative.d_X depth)
                (Iterative.d_Y depth) (Iterative.d_Z depth))
       (tower_deviation depth) s = Next s' /\
     Iterative.set_trim_calls s' = t :: Iterative.set_trim_calls s /\
     Iterative.trim_store s' = Some t /\
     veq t (endstop_correction (Qmin tx 0, Qmin ty 0, Qmin tz 0) depth
                               (Iterative.trimscale s'))).
Proof.
  intros Hprobe Htol Htrim.
  unfold out_of_tolerance in Htol. apply Qle_bool_false_iff in Htol.
  set (mm := minmax4 (Iterative.d_CTR depth) (Iterative.d_X depth)
                     (Iterative.d_Y depth) (Iterative.d_Z depth)).
  set (s0 := if Iterative.endstop_needs_reset s
             then Iterative.with_statics s 999 (13 # 10) false else s).
  assert (H0 : Iterative.set_trim_calls s0 = Iterative.set_trim_calls s /\
               Iterative.trim_store s0 = Some (tx, ty, tz)).
  { unfold s0. destruct (Iterative.endstop_needs_reset s); split;
      try reflexivity; exact Htrim. }
  destruct H0 as [Hcalls Hstore].
  split.
  - intros Hlow.
    assert (Hb : Qlt_bool (Iterative.cap0 tx) (-5)
                 || Qlt_bool (Iterative.cap0 ty) (-5)
                 || Qlt_bool (Iterative.cap0 tz) (-5) = true).
    { rewrite !orb_true_iff, !Qlt_bool_iff, !cap0_lt. tauto. }
    assert (Hit : exists s', Iterative.iteration probe outer_i s = Return false s' /\
                    Iterative.set_trim_calls s' = Iterative.set_trim_calls s).
    { unfold Iterative.iteration. rewrite Hprobe. fold mm.
      unfold Iterative.endstop_block. fold s0.
      change (snd mm - fst mm) with (tower_deviation depth). rewrite Htol.
      unfold Iterative.get_trim.
      cbn [Iterative.with_endstop_in_tolerance Iterative.trim_store].
      rewrite Hstore, Hb. eexists. split; [reflexivity|exact Hcalls]. }
    split; [exact Hit|].
    destruct Hit as (s' & Hit & _). cbn [Iterative.main_loop].
    rewrite Hit. reflexivity.
  - intros (Hx & Hy & Hz).
    assert (Hb : Qlt_bool (Iterative.cap0 tx) (-5)
                 || Qlt_bool (Iterative.cap0 ty) (-5)
                 || Qlt_bool (Iterative.cap0 tz) (-5) = false).
    { rewrite !orb_false_iff, !Qlt_bool_false_iff.
      unfold Iterative.cap0. qcases; repeat split; lra. }
    assert (Hcap : forall q, Iterative.cap0 q == Qmin q 0).
    { intro q. unfold Iterative.cap0.
      destruct (Q.min_spec q 0) as [[L ->]|[L ->]]; qcases; lra. }
    unfold Iterative.endstop_block. fold s0. rewrite Htol.
    unfold Iterative.get_trim.
    cbn [Iterative.with_endstop_in_tolerance Iterative.trim_store].
    rewrite Hstore, Hb. eexists. eexists. split; [reflexivity|].
    cbn [Iterative.set_trim Iterative.set_trim_calls Iterative.trim_store].
    split; [|split].
    + f_equal. destruct (Qle_bool _ _ && Qle_bool _ _); cbn; exact Hcalls.
    + destruct (Qle_bool _ _ && Qle_bool _ _); cbn; rewrite Hstore; reflexivity.
    + fold mm.
      cbn [Iterative.trimscale Iterative.with_statics].
      set (ts := Iterative.trimscale _).
      unfold endstop_correction. fold mm. unfold veq, vmax.
      rewrite !minmax3_snd, !Hcap. repeat split; reflexivity.
Qed.

Lemma example_out_of_tolerance :
  out_of_tolerance (Iterative.mk_depths 0 1 0 0).
Proof. vm_compute. reflexivity. Qed.

Lemma trim_sanity_check_witness :
  (example_probe 0 (example_state (- (6), 1, 0))
     = Some (Iterative.mk_depths 0 1 0 0) /\
   out_of_tolerance (Iterative.mk_depths 0 1 0 0) /\
   Iterative.get_trim (example_state (- (6), 1, 0)) = Some (- (6), 1, 0) /\
   (- (6) < -5 \/ 1 < -5 \/ 0 < -5) /\
   (exists s', Iterative.iteration example_probe 0
                 (example_state (- (6), 1, 0)) = Return false s' /\
               Iterative.set_trim_calls s'
               = Iterative.set_trim_calls (example_state (- (6), 1, 0))) /\
   fst (Iterative.main_loop example_probe 20 0
          (example_state (- (6), 1, 0))) = false) /\
  (example_probe 0 (example_state (1, - (2), 0))
     = Some (Iterative.mk_depths 0 1 0 0) /\
   Iterative.get_trim (example_state (1, - (2), 0)) = Some (1, - (2), 0) /\
   (-5 <= 1 /\ -5 <= - (2) /\ -5 <= 0) /\
   exists s' t,
     Iterative.endstop_block (Iterative.mk_depths 0 1 0 0)
       (minmax4 0 1 0 0)
       (tower_deviation (Iterative.mk_depths 0 1 0 0))
       (example_state (1, - (2), 0)) = Next s' /\
     Iterative.set_trim_calls s'
     = t :: Iterative.set_trim_calls (example_state (1, - (2), 0)) /\
     Iterative.trim_store s' = Some t /\
     veq t (endstop_correction (Qmin 1 0, Qmin (- (2)) 0, Qmin 0 0)
              (Iterative.mk_depths 0 1 0 0) (Iterative.trimscale s')) /\
     veq t (- (13 # 10), - (2), 0)).
Proof.
  split.
  - assert (Hlow : - (6) < -5 \/ 1 < -5 \/ 0 < -5) by (left; reflexivity).
    destruct (trim_sanity_check example_probe 0 19 (example_state (- (6), 1, 0))
                (Iterative.mk_depths 0 1 0 0) (- (6)) 1 0
                eq_refl example_out_of_tolerance eq_refl) as [H _].
    destruct (H Hlow) as [H1 H2].
    split; [reflexivity|]. split; [exact example_out_of_tolerance|].
    split; [reflexivity|]. split; [exact Hlow|]. split; [exact H1|exact H2].
  - assert (Hin : -5 <= 1 /\ -5 <= - (2) /\ -5 <= 0)
      by (repeat split; vm_compute; discriminate).
    destruct (trim_sanity_check example_probe 0 19 (example_state (1, - (2), 0))
                (Iterative.mk_depths 0 1 0 0) 1 (- (2)) 0
                eq_refl example_out_of_tolerance eq_refl) as [_ H].
    destruct (H Hin) as (s' & t & H1 & H2 & H3 & H4).
    split; [reflexivity|]. split; [reflexivity|]. split; [exact Hin|].
    exists s', t. split; [exact H1|]. split; [exact H2|]. split; [exact H3|].
    split; [exact H4|].
    vm_compute in H1. injection H1 as <-. injection H3 as <-.
    vm_compute. repeat split.
Defined.

(** C5 as stated fails: with a trim of (1, 0, 0) read back from the
    store (a component above 0) and the X tower 1 mm out, the iteration
    does not abort; it goes on and corrects the endstops. *)
Lemma trim_above_zero_does_not_abort : ~ trim_outside_range_aborts.
Proof.
  intro H.
  destruct (H example_probe 0%nat (example_state (1, 0, 0))
              (Iterative.mk_depths 0 1 0 0) (1, 0, 0)) as [s' Hs'].
  - reflexivity.
  - exact example_out_of_tolerance.
  - reflexivity.
  - exists X. right. reflexivity.
  - vm_compute in Hs'. discriminate.
Qed.

(** ** C10: loading the depth map *)

Section LoadFacts.

Variable DM_GRID_DIMENSION : Z.
Variable atof strtof : String.string -> float.

Local Abbreviation N2 := (DM_GRID_ELEMENTS DM_GRID_DIMENSION).

Lemma in_range_test (v : float) :
  Qlt_bool (-5) v && Qlt_bool v 5 = true <-> in_range v.
Proof. unfold in_range. rewrite andb_true_iff, !Qlt_bool_iff. tauto. Qed.

(** What the reading loop returns, in terms of the value lines: it
    stops at the first value line among those still wanted whose value
    is out of range; otherwise it accepts value lines until the array
    is full or the file ends. *)
Lemma read_values_spec (bufs : list String.string) :
  forall (i : Z) (dp : list float), (0 <= i <= N2)%Z ->
    match read_values DM_GRID_DIMENSION atof strtof bufs i dp with
    | inl (j, _) =>
        exists k buf,
          nth_error (data_lines bufs) k = Some buf /\
          j = (i + Z.of_nat k)%Z /\ (j < N2)%Z /\ ~ in_range (atof buf)
    | inr (j, _) =>
        (forall k buf, nth_error (data_lines bufs) k = Some buf ->
                       (i + Z.of_nat k < N2)%Z -> in_range (atof buf)) /\
        j = Z.min (i + Z.of_nat (List.length (data_lines bufs))) N2
    end.
Proof.
  induction bufs as [|buf bufs IH]; intros i dp Hi.
  - cbn. split; [intros [|k] b H; discriminate|lia].
  - cbn [read_values]. unfold data_lines. cbn [map filter]. fold (data_lines bufs).
    destruct (is_comment (chop_newline buf)) eqn:Ec; cbn [negb].
    + apply IH. exact Hi.
    + destruct (Z.ltb_spec i N2) as [Hlt|Hge].
      * destruct (Qlt_bool (-5) (atof (chop_newline buf))
                  && Qlt_bool (atof (chop_newline buf)) 5) eqn:Er.
        -- apply in_range_test in Er.
           specialize (IH (i + 1)%Z (write dp i (strtof (chop_newline buf)))
                          ltac:(lia)).
           destruct (read_values _ _ _ bufs _ _) as [[j dp']|[j dp']].
           ++ destruct IH as (k & b & Hk & Hj & Hlt' & Hbad).
              exists (S k), b. split; [exact Hk|]. split; [lia|]. tauto.
           ++ destruct IH as [Hall Hj]. split.
              ** intros [|k] b Hk Hlim.
                 --- injection Hk as <-. exact Er.
                 --- apply (Hall k b Hk). lia.
              ** cbn [List.length]. lia.
        -- exists 0%nat, (chop_newline buf). split; [reflexivity|].
           split; [lia|]. split; [exact Hlt|].
           intro Hr. apply in_range_test in Hr. congruence.
      * specialize (IH i dp Hi).
        destruct (read_values _ _ _ bufs _ _) as [[j dp']|[j dp']].
        -- destruct IH as (k & b & Hk & Hj & Hlt' & Hbad). lia.
        -- destruct IH as [Hall Hj]. split.
           ++ intros k b Hk Hlim. lia.
           ++ cbn [List.length]. lia.
Qed.

End LoadFacts.

(** C10.  [M667 E] with zero probe offsets, no depth map loaded yet, the
    array allocated and the file opened.  A value line among the first
    N*N whose value is outside (-5, 5) makes the command return failure
    with depth correction disabled.  With all of them in range but
    fewer than N*N value lines, the have-depth-map flag is cleared and
    depth correction is disabled.  Depth correction is enabled on return
    only if N*N value lines were read, all in range (and the E value is
    non-zero). *)
Theorem depth_map_load_sanity
        (DM_GRID_DIMENSION : Z) (atof strtof : String.string -> float)
        (gcode : Gcode) (probe_offset_x probe_offset_y : float)
        (bufs : list String.string) (st : surface_transform_t) :
  has_letter gcode "E"%char = true ->
  probe_offset_x == 0 -> probe_offset_y == 0 ->
  have_depth_map st = false ->
  let data := data_lines bufs in
  let N2 := DM_GRID_ELEMENTS DM_GRID_DIMENSION in
  let res := handle_depth_correction DM_GRID_DIMENSION atof strtof gcode
               probe_offset_x probe_offset_y true (Some bufs) st in
  ((exists k buf, nth_error data k = Some buf /\ (Z.of_nat k < N2)%Z /\
                  ~ in_range (atof buf)) ->
   fst res = false /\ depth_enabled (snd res) = false) /\
  ((forall k buf, nth_error data k = Some buf -> (Z.of_nat k < N2)%Z ->
                  in_range (atof buf)) ->
   (Z.of_nat (List.length data) < N2)%Z ->
   fst res = true /\
   have_depth_map (snd res) = false /\ depth_enabled (snd res) = false) /\
  (depth_enabled (snd res) = true ->
   (N2 <= Z.of_nat (List.length data))%Z /\
   (forall k buf, nth_error data k = Some buf -> (Z.of_nat k < N2)%Z ->
                  in_range (atof buf)) /\
   bool_of_float (get_value gcode "E"%char) = true).
Proof.
  intros HE Hx Hy Hmap data N2 res.
  assert (HN2 : (0 <= 0 <= N2)%Z) by (unfold N2, DM_GRID_ELEMENTS; nia).
  pose proof (read_values_spec DM_GRID_DIMENSION atof strtof bufs 0
                (depth (initDepthMapRAM DM_GRID_DIMENSION st)) HN2) as Hspec.
  fold data in Hspec.
  assert (Hres : res =
    match read_values DM_GRID_DIMENSION atof strtof bufs 0
            (depth (initDepthMapRAM DM_GRID_DIMENSION st)) with
    | inl (i, dp) =>
        (false, with_depth_enabled
                  (with_depth (initDepthMapRAM DM_GRID_DIMENSION st) dp) false)
    | inr (i, dp) =>
        if negb (i =? N2)%Z then
          (true, global_enable_block gcode
                   (with_depth_enabled
                      (with_have_depth_map
                         (with_depth (initDepthMapRAM DM_GRID_DIMENSION st) dp)
                         false) false))
        else if bool_of_float (get_value gcode "E"%char) then
          (true, global_enable_block gcode
                   (set_adjust_function true
                      (with_depth_enabled
                         (with_depth_enabled
                            (with_depth (initDepthMapRAM DM_GRID_DIMENSION st) dp)
                            (bool_of_float (get_value gcode "E"%char))) true)))
        else
          (true, global_enable_block gcode
                   (with_depth_enabled
                      (with_depth_enabled
                         (with_depth (initDepthMapRAM DM_GRID_DIMENSION st) dp)
                         (bool_of_float (get_value gcode "E"%char))) false))
    end).
  { unfold res, handle_depth_correction, depth_map_block.
    apply Qeq_bool_iff in Hx. apply Qeq_bool_iff in Hy.
    rewrite HE, Hx, Hy, Hmap. cbn [andb negb].
    destruct (read_values _ _ _ bufs 0 _) as [[i dp]|[i dp]]; [reflexivity|].
    fold N2. destruct (negb (i =? N2)%Z); [reflexivity|].
    cbn [with_depth_enabled depth_enabled].
    destruct (bool_of_float (get_value gcode "E"%char)); reflexivity. }
  assert (Hglob : forall s, depth_enabled (global_enable_block gcode s)
                            = depth_enabled s /\
                            have_depth_map (global_enable_block gcode s)
                            = have_depth_map s).
  { intro s. unfold global_enable_block.
    destruct (has_letter gcode "Z"%char); [|split; reflexivity].
    destruct (bool_of_float (get_value gcode "Z"%char)); [|split; reflexivity].
    destruct (depth_enabled s || plane_enabled s); split; reflexivity. }
  rewrite Hres. clear Hres.
  destruct (read_values _ _ _ bufs 0 _) as [[i dp]|[i dp]].
  - destruct Hspec as (k & b & Hk & Hi & Hlt & Hbad).
    split; [intros _; split; reflexivity|]. split.
    + intros Hall _. exfalso. apply Hbad. apply (Hall k b Hk). lia.
    + cbn. discriminate.
  - destruct Hspec as [Hall Hi]. rewrite Z.add_0_l in Hi.
    split; [|split].
    + intros (k & b & Hk & Hlt & Hbad). exfalso. apply Hbad.
      apply (Hall k b Hk). lia.
    + intros _ Hshort.
      destruct (Z.eqb_spec i N2) as [E|E]; [lia|]. cbn [negb fst snd].
      destruct (Hglob (with_depth_enabled
                  (with_have_depth_map
                     (with_depth (initDepthMapRAM DM_GRID_DIMENSION st) dp)
                     false) false)) as [H1 H2].
      rewrite H1, H2. repeat split.
    + destruct (Z.eqb_spec i N2) as [E|E]; cbn [negb].
      * destruct (bool_of_float (get_value gcode "E"%char)) eqn:Eb.
        -- intros _. split; [lia|]. split; [|reflexivity].
           intros k b Hk Hlt. apply (Hall k b Hk). lia.
        -- cbn [snd]. rewrite (proj1 (Hglob _)). cbn. discriminate.
      * cbn [snd]. rewrite (proj1 (Hglob _)). cbn. discriminate.
Qed.

Lemma depth_map_load_sanity_witness :
  (let res := handle_depth_correction 2 example_atof example_atof example_gcode
                0 0 true (Some example_file_out_of_range) example_transform in
   (exists k buf, nth_error (data_lines example_file_out_of_range) k = Some buf /\
                  (Z.of_nat k < DM_GRID_ELEMENTS 2)%Z /\
                  ~ in_range (example_atof buf)) /\
   fst res = false /\ depth_enabled (snd res) = false) /\
  (let res := handle_depth_correction 2 example_atof example_atof example_gcode
                0 0 true (Some example_file_short) example_transform in
   (forall k buf, nth_error (data_lines example_file_short) k = Some buf ->
                  (Z.of_nat k < DM_GRID_ELEMENTS 2)%Z ->
                  in_range (example_atof buf)) /\
   (Z.of_nat (List.length (data_lines example_file_short))
    < DM_GRID_ELEMENTS 2)%Z /\
   fst res = true /\
   have_depth_map (snd res) = false /\ depth_enabled (snd res) = false) /\
  (let res := handle_depth_correction 2 example_atof example_atof example_gcode
                0 0 true (Some example_file_2x2) example_transform in
   depth_enabled (snd res) = true /\
   (DM_GRID_ELEMENTS 2 <= Z.of_nat (List.length (data_lines example_file_2x2)))%Z /\
   (forall k buf, nth_error (data_lines example_file_2x2) k = Some buf ->
                  (Z.of_nat k < DM_GRID_ELEMENTS 2)%Z ->
                  in_range (example_atof buf)) /\
   bool_of_float (get_value example_gcode "E"%char) = true).
Proof.
  split; [|split].
  - intro res.
    assert (Hbad : exists k buf,
               nth_error (data_lines example_file_out_of_range) k = Some buf /\
               (Z.of_nat k < DM_GRID_ELEMENTS 2)%Z /\
               ~ in_range (example_atof buf)).
    { exists 2%nat. eexists. split; [reflexivity|]. split; [reflexivity|].
      intros [_ H]. revert H. vm_compute. discriminate. }
    split; [exact Hbad|].
    destruct (depth_map_load_sanity 2 example_atof example_atof example_gcode
                0 0 example_file_out_of_range example_transform
                eq_refl (Qeq_refl 0) (Qeq_refl 0) eq_refl) as [H _].
    exact (H Hbad).
  - intro res.
    assert (Hall : forall k buf,
               nth_error (data_lines example_file_short) k = Some buf ->
               (Z.of_nat k < DM_GRID_ELEMENTS 2)%Z ->
               in_range (example_atof buf)).
    { intros [|[|[|k]]] buf Hk _;
        try (injection Hk as <-; vm_compute; split; reflexivity).
      destruct k; discriminate. }
    assert (Hshort : (Z.of_nat (List.length (data_lines example_file_short))
                      < DM_GRID_ELEMENTS 2)%Z) by reflexivity.
    split; [exact Hall|]. split; [exact Hshort|].
    destruct (depth_map_load_sanity 2 example_atof example_atof example_gcode
                0 0 example_file_short example_transform
                eq_refl (Qeq_refl 0) (Qeq_refl 0) eq_refl) as (_ & H & _).
    exact (H Hall Hshort).
  - intro res.
    assert (Hen : depth_enabled (snd res) = true) by reflexivity.
    split; [exact Hen|].
    destruct (depth_map_load_sanity 2 example_atof example_atof example_gcode
                0 0 example_file_2x2 example_transform
                eq_refl (Qeq_refl 0) (Qeq_refl 0) eq_refl) as (_ & _ & H).
    exact (H Hen).
Defined.

(** ** C7: the binary search of [find_optimal_config] *)

Lemma Qlt_bool_comp (a a' b b' : Q) :
  a == a' -> b == b' -> Qlt_bool a b = Qlt_bool a' b'.
Proof. intros Ha Hb. unfold Qlt_bool. rewrite Ha, Hb. reflexivity. Qed.

(** [narrow] moves the bound with the strictly worse energy, by
    [binsearch_width] times the range, and nothing else. *)
Lemma narrow_spec (energy_min energy_max min max w : float) :
  (energy_min < energy_max ->
   narrow energy_min energy_max min max w = (min, max - ((max - min) * w))) /\
  (energy_max < energy_min ->
   narrow energy_min energy_max min max w = (min + ((max - min) * w), max)) /\
  (energy_min == energy_max ->
   narrow energy_min energy_max min max w = (min, max)).
Proof.
  unfold narrow. split; [|split]; intro H.
  - assert (H1 : Qlt_bool energy_min energy_max = true) by (apply Qlt_bool_iff; exact H).
    assert (H2 : Qlt_bool energy_max energy_min = false)
      by (apply Qlt_bool_false_iff; lra).
    rewrite H1, H2. reflexivity.
  - assert (H1 : Qlt_bool energy_min energy_max = false)
      by (apply Qlt_bool_false_iff; lra).
    assert (H2 : Qlt_bool energy_max energy_min = true) by (apply Qlt_bool_iff; exact H).
    rewrite H1, H2. reflexivity.
  - assert (H1 : Qlt_bool energy_min energy_max = false)
      by (apply Qlt_bool_false_iff; lra).
    assert (H2 : Qlt_bool energy_max energy_min = false)
      by (apply Qlt_bool_false_iff; lra).
    rewrite H1, H2. reflexivity.
Qed.

Lemma narrow_comp (e1 e1' e2 e2' min max w : float) :
  e1 == e1' -> e2 == e2' ->
  narrow e1 e2 min max w = narrow e1' e2' min max w.
Proof.
  intros H1 H2. unfold narrow.
  rewrite (Qlt_bool_comp e1 e1' e2 e2' H1 H2).
  rewrite (Qlt_bool_comp e2 e2' e1 e1' H2 H1). reflexivity.
Qed.

Section BinarySearch.

Variable simulate_FK_and_get_energy : machine -> float.
Variable test_function : float -> bool -> machine -> machine.
Variable E : float -> float.
Variables m0 w tgt : float.

Hypothesis energy_of_test :
  forall v b s, simulate_FK_and_get_energy (test_function v b s) == E v.
Hypothesis energy_symmetric : symmetric_about E m0.
Hypothesis width_range : 0 <= w <= 1 # 2.

Local Abbreviation loop :=
  (find_optimal_loop simulate_FK_and_get_energy).

(** One turn of the loop, with the energies named. *)
Lemma loop_step (j : nat) (lo hi : float) (s : machine) :
  exists s1,
    loop (S j) test_function lo hi w tgt s =
    if Qle_bool (hi - lo) tgt then (lo, hi, s1)
    else
      let '(lo', hi') := narrow (E lo) (E hi) lo hi w in
      loop j test_function lo' hi' w tgt s1.
Proof.
  exists (test_function hi true (test_function lo true s)).
  cbn [find_optimal_loop].
  destruct (Qle_bool (hi - lo) tgt); [reflexivity|].
  rewrite (narrow_comp _ (E lo) _ (E hi)) by apply energy_of_test.
  reflexivity.
Qed.

Lemma energy_order (lo hi : float) :
  lo <= m0 <= hi ->
  (E lo < E hi <-> m0 - lo < hi - m0) /\ (E hi < E lo <-> hi - m0 < m0 - lo).
Proof.
  intros [H1 H2].
  assert (A1 : Qabs (lo - m0) == m0 - lo) by (rewrite Qabs_neg; lra).
  assert (A2 : Qabs (hi - m0) == hi - m0) by (rewrite Qabs_pos; lra).
  split; rewrite (energy_symmetric _ _), A1, A2; reflexivity.
Qed.

(** Once the two ends tie the range no longer moves. *)
Lemma loop_tie (j : nat) (lo hi : float) :
  lo <= m0 <= hi -> m0 - lo == hi - m0 ->
  forall s, exists s', loop j test_function lo hi w tgt s = (lo, hi, s').
Proof.
  intros Hm Htie. induction j as [|j IH]; intro s.
  - exists s. reflexivity.
  - destruct (loop_step j lo hi s) as [s1 ->].
    destruct (Qle_bool (hi - lo) tgt); [eexists; reflexivity|].
    destruct (energy_order lo hi Hm) as [O1 O2].
    assert (H1 : Qlt_bool (E lo) (E hi) = false).
    { apply Qlt_bool_false_iff. apply Qnot_lt_le. rewrite O1. lra. }
    assert (H2 : Qlt_bool (E hi) (E lo) = false).
    { apply Qlt_bool_false_iff. apply Qnot_lt_le. rewrite O2. lra. }
    unfold narrow. rewrite H1, H2. apply IH.
Qed.

Lemma width_step (D : Q) : 0 <= D -> 0 <= D * w <= (1 # 2) * D.
Proof.
  intro HD. destruct width_range as [W1 W2]. split.
  - apply Qmult_le_0_compat; assumption.
  - rewrite (Qmult_comm D w).
    apply Qmult_le_compat_r; assumption.
Qed.

Lemma Qpow_nonneg (n : nat) : 0 <= Qpow (1 - w) n.
Proof.
  destruct width_range as [W1 W2].
  induction n as [|n IH]; cbn [Qpow]; [lra|].
  apply Qmult_le_0_compat; [lra|exact IH].
Qed.

(** The minimum never leaves the range, and the range ends up below
    [tgt], or centred on the minimum, or shrunk [j] times. *)
Lemma loop_invariant (j : nat) :
  forall (lo hi : float) (s : machine),
    lo <= m0 <= hi ->
    exists lo' hi' s',
      loop j test_function lo hi w tgt s = (lo', hi', s') /\
      lo <= lo' /\ hi' <= hi /\ lo' <= m0 <= hi' /\
      (hi' - lo' <= tgt \/ (lo' + hi') / 2 == m0 \/
       hi' - lo' <= (hi - lo) * Qpow (1 - w) j).
Proof.
  induction j as [|j IH]; intros lo hi s Hm.
  - exists lo, hi, s. split; [reflexivity|].
    split; [lra|]. split; [lra|]. split; [exact Hm|].
    right. right. cbn [Qpow]. lra.
  - destruct (loop_step j lo hi s) as [s1 ->].
    destruct (Qle_bool (hi - lo) tgt) eqn:Eb.
    { apply Qle_bool_iff in Eb. exists lo, hi, s1.
      split; [reflexivity|]. split; [lra|]. split; [lra|]. split; [exact Hm|].
      left. exact Eb. }
    destruct (energy_order lo hi Hm) as [O1 O2].
    assert (HD : 0 <= hi - lo) by lra.
    destruct (width_step (hi - lo) HD) as [P1 P2].
    pose proof (Qpow_nonneg j) as Hpow.
    destruct (narrow_spec (E lo) (E hi) lo hi w) as (N1 & N2 & N3).
    destruct (Q_dec (E lo) (E hi)) as [[L|L]|L].
    + rewrite (N1 L). apply O1 in L.
      assert (Hm1 : lo <= m0 <= hi - (hi - lo) * w) by lra.
      destruct (IH lo (hi - (hi - lo) * w) s1 Hm1)
        as (lo' & hi' & s' & Hl & B1 & B2 & B3 & B4).
      exists lo', hi', s'. split; [exact Hl|].
      split; [lra|]. split; [lra|]. split; [exact B3|].
      destruct B4 as [B4|[B4|B4]]; [left; exact B4|right; left; exact B4|].
      right. right. cbn [Qpow].
      setoid_replace ((hi - lo) * ((1 - w) * Qpow (1 - w) j))
        with ((hi - (hi - lo) * w - lo) * Qpow (1 - w) j) by ring.
      exact B4.
    + rewrite (N2 L). apply O2 in L.
      assert (Hm1 : lo + (hi - lo) * w <= m0 <= hi) by lra.
      destruct (IH (lo + (hi - lo) * w) hi s1 Hm1)
        as (lo' & hi' & s' & Hl & B1 & B2 & B3 & B4).
      exists lo', hi', s'. split; [exact Hl|].
      split; [lra|]. split; [lra|]. split; [exact B3|].
      destruct B4 as [B4|[B4|B4]]; [left; exact B4|right; left; exact B4|].
      right. right. cbn [Qpow].
      setoid_replace ((hi - lo) * ((1 - w) * Qpow (1 - w) j))
        with ((hi - (lo + (hi - lo) * w)) * Qpow (1 - w) j) by ring.
      exact B4.
    + rewrite (N3 L).
      assert (Htie : m0 - lo == hi - m0).
      { destruct (Q_dec (m0 - lo) (hi - m0)) as [[C|C]|C]; [| |exact C].
        - apply O1 in C. lra.
        - apply O2 in C. lra. }
      destruct (loop_tie j lo hi Hm Htie s1) as [s' Hl].
      exists lo, hi, s'. split; [exact Hl|].
      split; [lra|]. split; [lra|]. split; [exact Hm|].
      right. left. field_simplify_eq. lra.
Qed.

End BinarySearch.

Section BinarySearchRun.

Variable simulate_FK_and_get_energy : machine -> float.
Variable test_function : float -> bool -> machine -> machine.
Variable E : float -> float.
Variables m0 w tgt : float.

Hypothesis energy_of_test :
  forall v b s, simulate_FK_and_get_energy (test_function v b s) == E v.
Hypothesis energy_symmetric : symmetric_about E m0.
Hypothesis width_range : 0 <= w <= 1 # 2.

(** The loop as a run of turns: it takes a turn only on a range wider
    than the target, at most [j] of them, and the minimum is inside
    every range it goes through. *)
Lemma loop_run (j : nat) :
  forall (lo hi : float) (s : machine),
    lo <= m0 <= hi ->
    exists n lo' hi' s',
      find_optimal_loop simulate_FK_and_get_energy j test_function
                        lo hi w tgt s = (lo', hi', s') /\
      (n <= j)%nat /\
      search_run E w tgt (fun a b => a <= m0 <= b) n lo hi lo' hi' /\
      (n = j \/ hi' - lo' <= tgt).
Proof.
  induction j as [|j IH]; intros lo hi s Hm.
  - exists 0%nat, lo, hi, s. split; [reflexivity|]. split; [lia|].
    split; [constructor; exact Hm|]. left. reflexivity.
  - destruct (loop_step simulate_FK_and_get_energy test_function E w tgt
                energy_of_test j lo hi s) as [s1 ->].
    destruct (Qle_bool (hi - lo) tgt) eqn:Eb.
    { apply Qle_bool_iff in Eb. exists 0%nat, lo, hi, s1.
      split; [reflexivity|]. split; [lia|].
      split; [constructor; exact Hm|]. right. exact Eb. }
    apply Qle_bool_false_iff in Eb.
    destruct (energy_order E m0 energy_symmetric lo hi Hm) as [O1 O2].
    assert (HD : 0 <= hi - lo) by lra.
    destruct (width_step w width_range (hi - lo) HD) as [P1 P2].
    destruct (narrow_spec (E lo) (E hi) lo hi w) as (N1 & N2 & N3).
    destruct (Q_dec (E lo) (E hi)) as [[L|L]|L].
    + rewrite (N1 L). pose proof L as L'. apply O1 in L'.
      assert (Hm1 : lo <= m0 <= hi - (hi - lo) * w) by lra.
      destruct (IH lo (hi - (hi - lo) * w) s1 Hm1)
        as (n & lo' & hi' & s' & Hl & Hn & Hrun & Hend).
      exists (S n), lo', hi', s'. split; [exact Hl|]. split; [lia|]. split.
      * apply (search_turn E w tgt _ n lo hi lo (hi - (hi - lo) * w));
          [exact Hm | exact Eb | left; repeat split; [exact L] | exact Hrun].
      * destruct Hend as [->|Hend]; [left; reflexivity|right; exact Hend].
    + rewrite (N2 L). pose proof L as L'. apply O2 in L'.
      assert (Hm1 : lo + (hi - lo) * w <= m0 <= hi) by lra.
      destruct (IH (lo + (hi - lo) * w) hi s1 Hm1)
        as (n & lo' & hi' & s' & Hl & Hn & Hrun & Hend).
      exists (S n), lo', hi', s'. split; [exact Hl|]. split; [lia|]. split.
      * apply (search_turn E w tgt _ n lo hi (lo + (hi - lo) * w) hi);
          [exact Hm | exact Eb | right; left; repeat split; [exact L]
           | exact Hrun].
      * destruct Hend as [->|Hend]; [left; reflexivity|right; exact Hend].
    + rewrite (N3 L).
      destruct (IH lo hi s1 Hm)
        as (n & lo' & hi' & s' & Hl & Hn & Hrun & Hend).
      exists (S n), lo', hi', s'. split; [exact Hl|]. split; [lia|]. split.
      * apply (search_turn E w tgt _ n lo hi lo hi);
          [exact Hm | exact Eb | right; right; repeat split; [exact L]
           | exact Hrun].
      * destruct Hend as [->|Hend]; [left; reflexivity|right; exact Hend].
Qed.

End BinarySearchRun.


(** C7 (amended).  For an energy that grows strictly with the distance
    from its minimum m0, with m0 inside [min, max] and a width between
    0 and 0.5, [find_optimal_config] makes at most 250 turns, each
    taken on a range wider than the target and narrowing only the
    bound with the strictly worse energy, by the width fraction of the
    range; it stops as soon as max - min <= target, or after the 250th
    turn; m0 is inside every range on the way, and the returned
    midpoint is within max(target, (max - min) * (1 - width)^250) / 2 of
    m0: within target as soon as (max - min) * (1 - width)^250 <=
    target. *)
Theorem find_optimal_config_symmetric_energy
        (simulate_FK_and_get_energy : machine -> float)
        (test_function : float -> bool -> machine -> machine)
        (E : float -> float) (min max m0 w tgt : float) (s : machine) :
  (forall v b s', simulate_FK_and_get_energy (test_function v b s') == E v) ->
  symmetric_about E m0 ->
  min <= m0 <= max ->
  0 <= w <= 1 # 2 ->
  let r := fst (find_optimal_config simulate_FK_and_get_energy test_function
                                    min max w tgt s) in
  (exists (n : nat) (lo hi : float),
     (n <= 250)%nat /\
     search_run E w tgt (fun a b => a <= m0 <= b) n min max lo hi /\
     (n = 250%nat \/ hi - lo <= tgt) /\
     r = (lo + hi) / 2) /\
  min <= r <= max /\
  Qabs (r - m0) <= Qmax tgt ((max - min) * Qpow (1 - w) 250) / 2 /\
  ((max - min) * Qpow (1 - w) 250 <= tgt -> Qabs (r - m0) <= tgt).
Proof.
  intros He Hs Hm Hw r.
  destruct (loop_run simulate_FK_and_get_energy test_function E m0 w tgt
              He Hs Hw 250 min max s Hm)
    as (n & lo & hi & s1 & Hl1 & Hn & Hrun & Hend).
  destruct (loop_invariant simulate_FK_and_get_energy test_function E m0 w tgt
              He Hs Hw 250 min max s Hm)
    as (lo' & hi' & s' & Hl & B1 & B2 & B3 & B4).
  assert (Hr : r = (lo' + hi') / 2).
  { unfold r, find_optimal_config. rewrite Hl. reflexivity. }
  split.
  { exists n, lo, hi. split; [exact Hn|]. split; [exact Hrun|].
    split; [exact Hend|].
    rewrite Hl1 in Hl. injection Hl as -> -> _. exact Hr. }
  clear n lo hi s1 Hl1 Hn Hrun Hend.
  pose proof (Qpow_nonneg w Hw 250) as Hpow.
  assert (Hrange : 0 <= (max - min) * Qpow (1 - w) 250)
    by (apply Qmult_le_0_compat; lra).
  assert (Hhalf : (lo' + hi') / 2 == (1 # 2) * lo' + (1 # 2) * hi') by field.
  assert (Hbound : Qabs (r - m0)
                   <= Qmax tgt ((max - min) * Qpow (1 - w) 250) / 2).
  { setoid_replace (Qmax tgt ((max - min) * Qpow (1 - w) 250) / 2)
      with ((1 # 2) * Qmax tgt ((max - min) * Qpow (1 - w) 250)) by field.
    pose proof (Q.le_max_l tgt ((max - min) * Qpow (1 - w) 250)) as M1.
    pose proof (Q.le_max_r tgt ((max - min) * Qpow (1 - w) 250)) as M2.
    apply Qabs_Qle_condition. rewrite Hr, Hhalf.
    destruct B4 as [B4|[B4|B4]].
    - split; lra.
    - rewrite Hhalf in B4. split; lra.
    - split; lra. }
  split; [rewrite Hr, Hhalf; split; lra|]. split; [exact Hbound|].
  intro Hsmall.
  assert (E' : Qmax tgt ((max - min) * Qpow (1 - w) 250) == tgt)
    by (apply Q.max_l; exact Hsmall).
  rewrite E' in Hbound.
  setoid_replace (tgt / 2) with ((1 # 2) * tgt) in Hbound by field.
  lra.
Qed.

Lemma find_optimal_config_symmetric_energy_witness :
  (forall v b s',
     energy_of_arm_length (fun x => Qabs (x - - (24 # 10)))
                          (set_arm_length v b s')
     == Qabs (v - - (24 # 10))) /\
  symmetric_about (fun x => Qabs (x - - (24 # 10))) (- (24 # 10)) /\
  -5 <= - (24 # 10) <= 0 /\ 0 <= 1 # 10 <= 1 # 2 /\
  (0 - -5) * Qpow (1 - (1 # 10)) 250 <= target /\
  let r := fst (find_optimal_config
                  (energy_of_arm_length (fun x => Qabs (x - - (24 # 10))))
                  set_arm_length (-5) 0 (1 # 10) target example_machine) in
  (exists (n : nat) (lo hi : float),
     (n <= 250)%nat /\
     search_run (fun x => Qabs (x - - (24 # 10))) (1 # 10) target
                (fun a b => a <= - (24 # 10) <= b) n (-5) 0 lo hi /\
     (n = 250%nat \/ hi - lo <= target) /\
     r = (lo + hi) / 2) /\
  -5 <= r <= 0 /\
  Qabs (r - - (24 # 10))
  <= Qmax target ((0 - -5) * Qpow (1 - (1 # 10)) 250) / 2 /\
  ((0 - -5) * Qpow (1 - (1 # 10)) 250 <= target ->
   Qabs (r - - (24 # 10)) <= target).
Proof.
  split; [intros v b s'; reflexivity|].
  split; [intros x y; reflexivity|].
  split; [split; vm_compute; discriminate|].
  split; [split; vm_compute; discriminate|].
  split; [vm_compute; discriminate|].
  apply (find_optimal_config_symmetric_energy
           (energy_of_arm_length (fun x => Qabs (x - - (24 # 10))))
           set_arm_length (fun x => Qabs (x - - (24 # 10)))
           (-5) 0 (- (24 # 10)) (1 # 10) target example_machine).
  - intros v b s'. reflexivity.
  - intros x y. reflexivity.
  - split; vm_compute; discriminate.
  - split; vm_compute; discriminate.
Defined.

Lemma lopsided_energy_unimodal :
  unimodal lopsided_energy (-5) 0 (- (24 # 10)).
Proof.
  unfold unimodal, lopsided_energy. split; [split; vm_compute; discriminate|].
  split; intros x y H1 H2 H3; qcases;
    repeat match goal with
    | |- context [?a / 100] =>
        setoid_replace (a / 100) with ((1 # 100) * a) by field
    end; lra.
Qed.

(** C7 as stated fails: on the range [-5, 0] with width 0.5 the
    lopsided energy is unimodal with its minimum at -2.4, yet the lower
    bound is moved past the minimum in the second turn and the search
    returns a midpoint more than 1 away from it. *)
Lemma binary_search_misses_minimum : ~ binary_search_finds_minimum.
Proof.
  intro H.
  specialize (H lopsided_energy (-5) 0 (- (24 # 10)) (1 # 2) example_machine
                lopsided_energy_unimodal).
  assert (Hw : 0 <= 1 # 2 <= 1 # 2) by (split; vm_compute; discriminate).
  specialize (H Hw). revert H. vm_compute. intro H. apply H. reflexivity.
Qed.

(** ** C4: the redistribution step of the annealer *)

Lemma fold_left_step {A B : Type} (f : A -> B -> A) (b : B) (l : list B) (a : A) :
  fold_left f (b :: l) a = fold_left f l (f a b).
Proof. reflexivity. Qed.

(** A property of the machine that the test function, writes through
    the [values] pointer and calls of [rand] all preserve is preserved
    by the binary search and by the adjustment of an offset. *)
Section Preservation.

Variable simulate_FK_and_get_energy : machine -> float.
Variable rand_frac : nat -> float.
Variable test_function : float -> float -> float -> bool -> machine -> machine.
Variable values : values_ref.
Variable P : machine -> Prop.

Hypothesis P_test : forall x y z b m, P m -> P (test_function x y z b m).
Hypothesis P_values : forall m v, P m -> P (values_set values m v).
Hypothesis P_rand :
  forall m n, P m -> P (mk_machine (cur_set m) (options m) (set_trim_calls m) n).

Lemma find_optimal_loop3_preserves (j : nat) :
  forall (k : axis) (min max w tgt : float) (m : machine),
    P m ->
    P (snd (find_optimal_loop3 simulate_FK_and_get_energy j test_function
                               values k min max w tgt m)).
Proof.
  induction j as [|j IH]; intros k min max w tgt m Hm; cbn [find_optimal_loop3].
  - exact Hm.
  - set (m1 := values_set values m (vset (values_get values m) k min)).
    assert (H1 : P m1) by (apply P_values; exact Hm).
    destruct (values_get values m1) as [[vx vy] vz].
    set (m2 := test_function vx vy vz true m1).
    assert (H2 : P m2) by (apply P_test; exact H1).
    set (m3 := values_set values m2 (vset (values_get values m2) k max)).
    assert (H3 : P m3) by (apply P_values; exact H2).
    destruct (values_get values m3) as [[ux uy] uz].
    set (m4 := test_function ux uy uz true m3).
    assert (H4 : P m4) by (apply P_test; exact H3).
    destruct (Qle_bool (max - min) tgt); [exact H4|].
    destruct (narrow _ _ min max w) as [min' max'].
    apply IH. exact H4.
Qed.

Lemma find_optimal_config3_preserves (k : axis) (min max w tgt : float)
      (m : machine) :
  P m ->
  P (snd (find_optimal_config3 simulate_FK_and_get_energy test_function
                               values k min max w tgt m)).
Proof.
  intro Hm. unfold find_optimal_config3.
  pose proof (find_optimal_loop3_preserves 250 k min max w tgt m Hm) as H.
  destruct (find_optimal_loop3 _ _ _ _ _ _ _ _ _ _) as [[lo hi] m'].
  cbn [snd] in *. apply P_values. exact H.
Qed.

Lemma move_randomly_towards_preserves (value best temp tgt od : float)
      (m : machine) :
  P m -> P (snd (move_randomly_towards rand_frac value best temp tgt od m)).
Proof.
  intro Hm. unfold move_randomly_towards.
  destruct (Qlt_bool (value + tgt) best); cbn [snd]; apply P_rand; exact Hm.
Qed.

Lemma adjust_offset_preserves (w od temp lo hi mul : float)
      (m : machine) (k : axis) :
  P m ->
  P (adjust_offset simulate_FK_and_get_energy rand_frac w od temp
                   test_function values lo hi mul m k).
Proof.
  intro Hm. unfold adjust_offset.
  pose proof (find_optimal_config3_preserves k lo hi w target m Hm) as H1.
  destruct (find_optimal_config3 _ _ _ _ _ _ _ _ _) as [best m1].
  cbn [snd] in H1.
  pose proof (move_randomly_towards_preserves
                (vget (values_get values m1) k) best (temp * mul) target od
                m1 H1) as H2.
  destruct (move_randomly_towards _ _ _ _ _ _ _) as [v m2].
  cbn [snd] in H2. apply P_values. exact H2.
Qed.

Lemma adjust_all_preserves (w od temp lo hi mul : float) (ks : list axis) :
  forall m, P m ->
  P (fold_left (adjust_offset simulate_FK_and_get_energy rand_frac w od temp
                              test_function values lo hi mul) ks m).
Proof.
  induction ks as [|k ks IH]; intros m Hm.
  - exact Hm.
  - rewrite fold_left_step. apply IH. apply adjust_offset_preserves. exact Hm.
Qed.

End Preservation.

(** For non-negative offsets below 999 the selection loop finds the
    offset of smallest magnitude. *)
Lemma lowest_of_nonneg (v : vec3) :
  (forall k, 0 <= vget v k /\ vget v k < 999) ->
  lowest_of v = smallest_magnitude v.
Proof.
  destruct v as [[x y] z]. intro H.
  destruct (H X) as [X0 X1]. destruct (H Y) as [Y0 Y1]. destruct (H Z_) as [Z0 Z1].
  cbn [vget] in *.
  unfold lowest_of, smallest_magnitude, fabs. cbn [fold_left vget].
  assert (Ax : Qabs x == x) by (apply Qabs_pos; exact X0).
  assert (Ay : Qabs y == y) by (apply Qabs_pos; exact Y0).
  assert (Az : Qabs z == z) by (apply Qabs_pos; exact Z0).
  assert (E1 : Qlt_bool (Qabs x) 999 = true) by (apply Qlt_bool_iff; lra).
  rewrite E1.
  rewrite (Qlt_bool_comp (Qabs y) (Qabs y) (Qabs x) x) by (reflexivity || exact Ax).
  destruct (Qlt_bool (Qabs y) x).
  - rewrite (Qlt_bool_comp (Qabs z) (Qabs z) (Qabs y) y)
      by (reflexivity || exact Ay).
    reflexivity.
  - rewrite (Qlt_bool_comp (Qabs z) (Qabs z) (Qabs x) x)
      by (reflexivity || exact Ax).
    reflexivity.
Qed.

Lemma delta_radius_group_eq
      (energy : machine -> float) (rand_frac : nat -> float)
      (w od temp mul : float) (m : machine) :
  delta_radius_group energy rand_frac w od temp mul m =
  let m1 := fold_left (adjust_offset energy rand_frac w od temp
                         set_tower_radius_offsets tower_radius_ref (-3) 3 mul)
                      [X; Y; Z_] m in
  let m2 := with_cur_set m1 (steal_lowest (cur_set m1)) in
  let m3 := set_delta_radius (delta_radius (cur_set m2)) false m2 in
  let '(rx, ry, rz) := tower_radius (cur_set m3) in
  set_tower_radius_offsets rx ry rz false m3.
Proof. reflexivity. Qed.

Lemma tower_angle_group_eq
      (energy : machine -> float) (rand_frac : nat -> float)
      (w od temp mul : float) (m : machine) :
  tower_angle_group energy rand_frac w od temp mul m =
  let m1 := tower_angle_adjust energy rand_frac w od temp mul m in
  let '(ax, ay, az) := tower_angle (cur_set m1) in
  set_tower_angle_offsets ax ay az false m1.
Proof. reflexivity. Qed.

(** The adjustment of the tower radius offsets leaves the delta radius
    alone; that of the tower angle offsets leaves the arm length alone,
    in [cur_set] and in the arm solution. *)
Lemma radius_adjust_keeps_delta_radius
      (energy : machine -> float) (rand_frac : nat -> float)
      (w od temp mul : float) (m : machine) :
  delta_radius
    (cur_set (fold_left (adjust_offset energy rand_frac w od temp
                           set_tower_radius_offsets tower_radius_ref (-3) 3 mul)
                        [X; Y; Z_] m))
  = delta_radius (cur_set m).
Proof.
  apply (adjust_all_preserves energy rand_frac set_tower_radius_offsets
           tower_radius_ref
           (fun m' => delta_radius (cur_set m') = delta_radius (cur_set m)));
    try reflexivity; intros; assumption.
Qed.

Lemma angle_adjust_keeps_arm_length
      (energy : machine -> float) (rand_frac : nat -> float)
      (w od temp mul : float) (m : machine) :
  let m1 := tower_angle_adjust energy rand_frac w od temp mul m in
  arm_length (cur_set m1) = arm_length (cur_set m) /\
  options m1 "L"%char = options m "L"%char.
Proof.
  unfold tower_angle_adjust.
  apply (adjust_all_preserves energy rand_frac set_tower_angle_offsets
           tower_angle_ref
           (fun m' => arm_length (cur_set m') = arm_length (cur_set m) /\
                      options m' "L"%char = options m "L"%char));
    try (split; reflexivity); intros; assumption.
Qed.

(** C4 (amended).  Tower-radius group: when the three adjusted offsets
    are non-negative and below 999, the offset of smallest magnitude is
    subtracted from all three offsets and added to the delta radius
    (which the adjustment itself left alone), and the results are
    handed to the arm solution.  Tower-angle group: there is no
    redistribution; the adjusted offsets are handed to the arm solution
    unchanged, and the arm length is not touched, neither in [cur_set]
    nor in the arm solution. *)
Theorem redistribution_step
        (energy : machine -> float) (rand_frac : nat -> float)
        (binsearch_width overrun_divisor temp mul : float) (m : machine) :
  (let adjusted :=
     fold_left (adjust_offset energy rand_frac binsearch_width overrun_divisor
                  temp set_tower_radius_offsets tower_radius_ref (-3) 3 mul)
               [X; Y; Z_] m in
   let after := delta_radius_group energy rand_frac binsearch_width
                                   overrun_divisor temp mul m in
   (forall k, 0 <= vget (tower_radius (cur_set adjusted)) k /\
              vget (tower_radius (cur_set adjusted)) k < 999) ->
   let low := smallest_magnitude (tower_radius (cur_set adjusted)) in
   tower_radius (cur_set after) = vsub (tower_radius (cur_set adjusted)) low /\
   delta_radius (cur_set after) = delta_radius (cur_set m) + low /\
   options after "R"%char = delta_radius (cur_set m) + low /\
   (options after "A"%char, options after "B"%char, options after "C"%char)
   = vsub (tower_radius (cur_set adjusted)) low) /\
  (let adjusted := tower_angle_adjust energy rand_frac binsearch_width
                                      overrun_divisor temp mul m in
   let after := tower_angle_group energy rand_frac binsearch_width
                                  overrun_divisor temp mul m in
   cur_set after = cur_set adjusted /\
   (options after "D"%char, options after "E"%char, options after "F"%char)
   = tower_angle (cur_set adjusted) /\
   arm_length (cur_set after) = arm_length (cur_set m) /\
   options after "L"%char = options m "L"%char).
Proof.
  split.
  - intros adjusted after Hpos low.
    pose proof (radius_adjust_keeps_delta_radius energy rand_frac
                  binsearch_width overrun_divisor temp mul m) as Hdr.
    fold adjusted in Hdr.
    assert (Hafter : after =
              let m2 := with_cur_set adjusted (steal_lowest (cur_set adjusted)) in
              let m3 := set_delta_radius (delta_radius (cur_set m2)) false m2 in
              let '(rx, ry, rz) := tower_radius (cur_set m3) in
              set_tower_radius_offsets rx ry rz false m3)
      by apply delta_radius_group_eq.
    pose proof (lowest_of_nonneg _ Hpos) as Hlow. fold low in Hlow.
    clearbody adjusted after low. subst after.
    destruct adjusted as [[ini dr al tr [[rx ry] rz] ta tarm vs] opts calls rc].
    cbn in Hdr. subst dr.
    cbn [cur_set tower_radius with_cur_set steal_lowest with_delta_radius
         with_tower_radius delta_radius set_delta_radius with_options options
         set_tower_radius_offsets opt_set vsub initialized arm_length trim
         tower_angle tower_arm virtual_shimming set_trim_calls rand_calls].
    cbn [cur_set tower_radius] in Hlow. rewrite Hlow.
    split; [reflexivity|]. split; [reflexivity|].
    split; reflexivity.
  - intros adjusted after.
    pose proof (angle_adjust_keeps_arm_length energy rand_frac
                  binsearch_width overrun_divisor temp mul m) as Hal.
    fold adjusted in Hal. cbv zeta in Hal.
    assert (Hafter : after =
              let '(ax, ay, az) := tower_angle (cur_set adjusted) in
              set_tower_angle_offsets ax ay az false adjusted)
      by apply tower_angle_group_eq.
    clearbody adjusted after. subst after.
    destruct adjusted as [[ini dr al tr trad [[ax ay] az] tarm vs] opts calls rc].
    cbn in Hal. destruct Hal as [Hal HL].
    cbn [cur_set tower_angle set_tower_angle_offsets with_options options
         opt_set arm_length].
    split; [reflexivity|]. split; [reflexivity|].
    split; [exact Hal|exact HL].
Qed.

(** C4 as stated fails for both groups.  With tower angle offsets
    (1, 2, 3), adjusted to (0.999, 1.999, 2.999) under a flat energy and
    no randomness, nothing is subtracted and the arm length stays at
    270: the tower-angle group has no redistribution.  In the
    tower-radius group the offsets (-1, 0.5, 2) are adjusted to
    (-0.999, 0.499, 1.999), and the selection loop, which compares
    [fabs(offset)] with the signed [lowest], keeps -0.999 instead of
    the offset of smallest magnitude 0.499. *)
Lemma redistribution_not_as_specified :
  ~ radius_redistribution /\ ~ angle_redistribution.
Proof.
  split; intro H;
    specialize (H (fun _ => 0) (fun _ => 0) (1 # 10) 2 (35 # 100) 1
                  example_machine);
    vm_compute in H; destruct H as [_ H]; discriminate.
Qed.

(** The tower-radius group on the running example: -0.999 is moved
    from the offsets to the delta radius. *)
Example delta_radius_group_example :
  let after := cur_set (delta_radius_group (fun _ => 0) (fun _ => 0)
                          (1 # 10) 2 (35 # 100) 1 example_machine) in
  veq (tower_radius after) (0, 1498 # 1000, 2998 # 1000) /\
  delta_radius after == 129001 # 1000.
Proof. vm_compute. repeat split. Qed.

(** Inside the annealing loop the endstop group hands its adjusted
    trims to the store as they are; only the renormalization after the
    loops brings the largest one back to zero. *)
Example endstop_group_example :
  match set_trim_calls (endstop_group (fun _ => 0) (fun _ => 0)
                          (1 # 10) 2 (35 # 100) 1 example_machine) with
  | [t] => veq t (- (1 # 1000), - (1 # 1000), - (1 # 1000)) /\ ~ renormalized t
  | _ => False
  end.
Proof. vm_compute. repeat split. discriminate. Qed.

(** ** C6: the trims handed to the trim store *)

(** The adjustment of the trims in the endstop group of the annealer
    works on [cur_set] only: it makes no call to the trim store. *)
Lemma trim_adjust_makes_no_call
      (energy : machine -> float) (rand_frac : nat -> float)
      (w od temp mul : float) (m : machine) :
  set_trim_calls
    (fold_left (adjust_offset energy rand_frac w od temp
                  set_test_trim trim_ref (-5) 0 mul)
               [X; Y; Z_] m)
  = set_trim_calls m.
Proof.
  apply (adjust_all_preserves energy rand_frac set_test_trim trim_ref
           (fun m' => set_trim_calls m' = set_trim_calls m));
    try reflexivity; intros; assumption.
Qed.

(** C6 (amended).  Every trim vector handed to the trim store by
    [iterative_calibration] (the reset to zero and each endstop
    correction) and the one handed over by the final renormalization of
    [heuristic_calibration] has a largest component equal to zero.  The
    call of [set_trim] that ends the endstop group of an annealing try
    hands over the three trims as the adjustment left them, without
    renormalizing them. *)
Theorem trim_passed_to_store_is_renormalized :
  (forall (probe : nat -> Iterative.state -> option Iterative.depths)
          (keep_settings : bool) (s : Iterative.state),
     exists new,
       Forall renormalized new /\
       Iterative.set_trim_calls
         (snd (Iterative.iterative_calibration probe keep_settings s))
       = new ++ Iterative.set_trim_calls s) /\
  (forall (depth : Iterative.depths) (mm : float * float) (dev : float)
          (s s' : Iterative.state),
     Iterative.endstop_block depth mm dev s = Next s' ->
     Iterative.set_trim_calls s' = Iterative.set_trim_calls s \/
     exists t, Iterative.set_trim_calls s' = t :: Iterative.set_trim_calls s /\
               renormalized t) /\
  (forall m : machine,
     exists t,
       set_trim_calls (normalize_trim m) = t :: set_trim_calls m /\
       trim (cur_set (normalize_trim m)) = t /\
       renormalized t) /\
  (forall (energy : machine -> float) (rand_frac : nat -> float)
          (binsearch_width overrun_divisor temp mul : float) (m : machine),
     let adjusted :=
       fold_left (adjust_offset energy rand_frac binsearch_width
                    overrun_divisor temp set_test_trim trim_ref (-5) 0 mul)
                 [X; Y; Z_] m in
     let after := endstop_group energy rand_frac binsearch_width
                                overrun_divisor temp mul m in
     set_trim_calls after = trim (cur_set adjusted) :: set_trim_calls m /\
     cur_set after = cur_set adjusted).
Proof.
  split; [|split; [|split]].
  - intros probe keep s. unfold Iterative.iterative_calibration.
    destruct keep.
    + apply main_loop_calls.
    + destruct (main_loop_calls probe 20 0 (Iterative.set_trim 0 0 0 s))
        as (new & Hnew & H).
      exists (new ++ [(0, 0, 0)]). split.
      * apply Forall_app. split; [exact Hnew|].
        constructor; [|constructor]. unfold renormalized, vmax. reflexivity.
      * rewrite H. cbn [Iterative.set_trim Iterative.set_trim_calls].
        rewrite <- app_assoc. reflexivity.
  - intros depth mm dev s s' H.
    pose proof (endstop_block_calls depth mm dev s) as Hc.
    rewrite H in Hc. exact Hc.
  - intro m. unfold normalize_trim.
    destruct (trim (cur_set m)) as [[tx ty] tz].
    eexists. split; [reflexivity|]. split; [reflexivity|].
    apply normalized_max_zero.
  - intros energy rand_frac w od temp mul m adjusted after.
    pose proof (trim_adjust_makes_no_call energy rand_frac w od temp mul m)
      as Hcalls.
    fold adjusted in Hcalls.
    assert (Hafter : after =
              let '(tx, ty, tz) := trim (cur_set adjusted) in
              set_trim tx ty tz adjusted) by reflexivity.
    clearbody adjusted after. subst after.
    destruct (trim (cur_set adjusted)) as [[tx ty] tz].
    cbn [set_trim set_trim_calls cur_set]. rewrite Hcalls.
    split; reflexivity.
Qed.

Lemma trim_passed_to_store_is_renormalized_witness :
  (exists s' t,
     Iterative.endstop_block (Iterative.mk_depths 0 1 0 0) (0, 1) 1
       (example_state (0, 0, 0)) = Next s' /\
     Iterative.set_trim_calls s'
     = t :: Iterative.set_trim_calls (example_state (0, 0, 0)) /\
     renormalized t) /\
  (let adjusted :=
     fold_left (adjust_offset (fun _ => 0) (fun _ => 0) (1 # 10) 2 (35 # 100)
                  set_test_trim trim_ref (-5) 0 1)
               [X; Y; Z_] example_machine in
   let after := endstop_group (fun _ => 0) (fun _ => 0) (1 # 10) 2 (35 # 100) 1
                              example_machine in
   set_trim_calls after = trim (cur_set adjusted) :: set_trim_calls example_machine /\
   cur_set after = cur_set adjusted /\
   veq (trim (cur_set adjusted)) (- (1 # 1000), - (1 # 1000), - (1 # 1000))).
Proof.
  destruct trim_passed_to_store_is_renormalized as (_ & H2 & _ & H4).
  split.
  - destruct (Iterative.endstop_block (Iterative.mk_depths 0 1 0 0) (0, 1) 1
                (example_state (0, 0, 0))) as [b s1|s1] eqn:E.
    + vm_compute in E. discriminate.
    + destruct (H2 _ _ _ _ s1 E) as [H|(t & Ht & Hr)].
      * exfalso. vm_compute in E. injection E as <-. vm_compute in H.
        discriminate.
      * exists s1, t. split; [reflexivity|]. split; [exact Ht|exact Hr].
  - intros adjusted after.
    destruct (H4 (fun _ => 0) (fun _ => 0) (1 # 10) 2 (35 # 100) 1
                 example_machine) as [Ha Hb].
    split; [exact Ha|]. split; [exact Hb|]. vm_compute. repeat split.
Defined.

(** C6 as stated fails for the annealer: with a flat energy, no
    randomness and trims (0, 0, 0), one try of the endstop group hands
    (-0.001, -0.001, -0.001) to the trim store, whose largest component
    is not zero. *)
Lemma annealing_try_trim_not_renormalized : ~ trim_store_calls_renormalized.
Proof.
  intros (_ & H & _).
  specialize (H (fun _ => 0) (fun _ => 0) (1 # 10) 2 (35 # 100) 1
                example_machine (Forall_nil _)).
  remember (set_trim_calls (endstop_group (fun _ => 0) (fun _ => 0)
                              (1 # 10) 2 (35 # 100) 1 example_machine))
    as calls eqn:Ecalls.
  vm_compute in Ecalls. subst calls.
  inversion H as [|t l Ht _]. revert Ht. vm_compute. discriminate.
Qed.

(** ** An initialized circular grid has Active points

    so the energy never divides by zero: the leftmost point of the
    middle row, (-R, 0), is Active. *)
Lemma init_test_points_has_active_point
      (DM_GRID_DIMENSION : Z) (probe_radius : float) (fuel : nat) (g : grid) :
  (3 <= DM_GRID_DIMENSION)%Z -> Z.odd DM_GRID_DIMENSION = true ->
  0 < probe_radius -> (Z.to_nat DM_GRID_DIMENSION < fuel)%nat ->
  init_test_points DM_GRID_DIMENSION probe_radius fuel PSS_CIRCLE = Some g ->
  active_indices DM_GRID_DIMENSION (active_point g) <> [].
Proof.
  intros HN Hodd HR Hfuel Hinit.
  destruct (test_points_spec DM_GRID_DIMENSION probe_radius HN HR fuel Hfuel)
    as (tp & Htp & HF & Hlen).
  unfold init_test_points in Hinit. rewrite Htp, Hlen, Z.eqb_refl in Hinit.
  rewrite (centre_index DM_GRID_DIMENSION probe_radius HN Hodd HR tp HF) in Hinit.
  injection Hinit as <-. cbn [active_point].
  pose proof (centre_double DM_GRID_DIMENSION Hodd) as Hd.
  pose proof (classify_all_length DM_GRID_DIMENSION probe_radius HN PSS_CIRCLE tp)
    as Hcl.
  set (c0 := ((DM_GRID_DIMENSION - 1) / 2)%Z) in *.
  assert (Hc0 : (1 <= c0 < DM_GRID_DIMENSION)%Z) by lia.
  assert (Hact : get TP_INACTIVE
                   (write (classify_all DM_GRID_DIMENSION probe_radius
                             PSS_CIRCLE tp)
                          (c0 * DM_GRID_DIMENSION + c0) TP_CENTER)
                   (c0 * DM_GRID_DIMENSION + 0) = TP_ACTIVE).
  { rewrite get_write by (rewrite ?Hcl; unfold DM_GRID_ELEMENTS; nia).
    destruct (Z.eqb_spec (c0 * DM_GRID_DIMENSION + 0)
                         (c0 * DM_GRID_DIMENSION + c0)); [lia|].
    rewrite (classify_all_get DM_GRID_DIMENSION probe_radius) by lia.
    apply (classify_circle DM_GRID_DIMENSION probe_radius HN HR); [lia|].
    unfold within.
    destruct (test_points_get DM_GRID_DIMENSION probe_radius HN tp c0 0 HF)
      as [Hx Hy]; [lia|lia|].
    cbn [grid_point fst snd] in Hx, Hy.
    rewrite (grid_x_0 DM_GRID_DIMENSION probe_radius) in Hx.
    assert (Hy0 : grid_y DM_GRID_DIMENSION probe_radius c0 == 0)
      by (apply (grid_y_zero DM_GRID_DIMENSION probe_radius HN Hodd HR);
          reflexivity).
    rewrite Hy0 in Hy.
    unfold distance2D, origin. cbn [dist_sq fst snd]. rewrite Hx, Hy.
    ring_simplify. apply Qle_refl. }
  intro Hnil.
  assert (Hin : In (c0 * DM_GRID_DIMENSION + 0)%Z
                   (active_indices DM_GRID_DIMENSION
                      (write (classify_all DM_GRID_DIMENSION probe_radius
                                PSS_CIRCLE tp)
                             (c0 * DM_GRID_DIMENSION + c0) TP_CENTER))).
  { unfold active_indices. apply filter_In. split.
    - apply Zrange_In. unfold DM_GRID_ELEMENTS. nia.
    - rewrite Hact. reflexivity. }
  rewrite Hnil in Hin. exact Hin.
Qed.

(** ** The edge subscripts in IEEE binary32

    With single-precision rounding the scaler 4 / 200 is not exactly
    0.02, yet 200 times it rounds to exactly 4: at the bottom edge of
    the 5x5 grid of radius 100 the subscripts are those of the exact
    model, 27 and 28 lying outside the 25-element array; and at the
    five grid rows of the middle column the box corner is the grid
    point itself. *)
Example binary32_bottom_edge_subscripts :
  Binary32.subscripts 5 (Binary32.of_int 100)
                      (Binary32.of_int 0) (Binary32.of_int (-100))
  = (22, 27, 23, 28)%Z /\
  (let b := bili_setup 5 100 0 (- (100)) in
   (st_Q11 b, st_Q12 b, st_Q21 b, st_Q22 b)) = (22, 27, 23, 28)%Z.
Proof. split; vm_compute; reflexivity. Qed.

Example binary32_grid_point_subscripts :
  map (fun y => fst (fst (fst (Binary32.subscripts 5 (Binary32.of_int 100)
                                 (Binary32.of_int 0) (Binary32.of_int y)))))
      [100; 50; 0; -50; -100]%Z
  = [2; 7; 12; 17; 22]%Z.
Proof. vm_compute. reflexivity. Qed.

Lemma redistribution_step_witness :
  let adjusted :=
    fold_left (adjust_offset (fun _ => 0) (fun _ => 0) (1 # 10) 2 (35 # 100)
                 set_tower_radius_offsets tower_radius_ref (-3) 3 1)
              [X; Y; Z_] example_machine_nonneg in
  let after := delta_radius_group (fun _ => 0) (fun _ => 0) (1 # 10) 2
                                  (35 # 100) 1 example_machine_nonneg in
  let low := smallest_magnitude (tower_radius (cur_set adjusted)) in
  (forall k, 0 <= vget (tower_radius (cur_set adjusted)) k /\
             vget (tower_radius (cur_set adjusted)) k < 999) /\
  low == 499 # 1000 /\
  tower_radius (cur_set after) = vsub (tower_radius (cur_set adjusted)) low /\
  delta_radius (cur_set after)
  = delta_radius (cur_set example_machine_nonneg) + low /\
  options after "R"%char = delta_radius (cur_set example_machine_nonneg) + low.
Proof.
  intros adjusted after low.
  assert (Hpos : forall k, 0 <= vget (tower_radius (cur_set adjusted)) k /\
                           vget (tower_radius (cur_set adjusted)) k < 999).
  { intros [| |]; vm_compute; split; (discriminate || reflexivity). }
  destruct (redistribution_step (fun _ => 0) (fun _ => 0) (1 # 10) 2 (35 # 100) 1
              example_machine_nonneg) as [H _].
  destruct (H Hpos) as (H1 & H2 & H3 & _).
  split; [exact Hpos|]. split; [vm_compute; reflexivity|].
  split; [exact H1|]. split; [exact H2|exact H3].
Defined.

(** ** Further properties *)

(** X1. [clamp(n, lower, upper)] with [lower <= upper] returns a value
    inside the interval: [n] itself when it is inside, the bound it
    exceeds otherwise; clamping twice changes nothing. *)
Theorem clamp_between_bounds (n lower upper : float) :
  lower <= upper ->
  lower <= clamp n lower upper <= upper /\
  (lower <= n <= upper -> clamp n lower upper == n) /\
  (n <= lower -> clamp n lower upper == lower) /\
  (upper <= n -> clamp n lower upper == upper) /\
  clamp (clamp n lower upper) lower upper == clamp n lower upper.
Proof.
  intro H.
  assert (R := clamp_range n lower upper H).
  split; [exact R|]. split; [apply clamp_id|]. split; [apply clamp_low; exact H|].
  split.
  - intro U. unfold clamp, fmax, fmin. qcases; lra.
  - apply clamp_id. exact R.
Qed.

Lemma clamp_between_bounds_witness :
  0 <= 2 /\ clamp 7 0 2 == 2 /\ clamp (- (3)) 0 2 == 0 /\ clamp (1 # 2) 0 2 == 1 # 2.
Proof.
  assert (H : 0 <= 2) by lra.
  destruct (clamp_between_bounds 7 0 2 H) as (_ & _ & _ & U & _).
  destruct (clamp_between_bounds (- (3)) 0 2 H) as (_ & _ & L & _ & _).
  destruct (clamp_between_bounds (1 # 2) 0 2 H) as (_ & I & _ & _ & _).
  split; [exact H|]. split; [apply U; lra|]. split; [apply L; lra|apply I; lra].
Defined.

(** What [init_test_points] leaves in the two arrays. *)
Lemma init_test_points_layout
      (DM_GRID_DIMENSION : Z) (probe_radius : float) (fuel : nat)
      (shape : surface_shape_t) (g : grid) :
  (3 <= DM_GRID_DIMENSION)%Z -> 0 < probe_radius ->
  (Z.to_nat DM_GRID_DIMENSION < fuel)%nat ->
  init_test_points DM_GRID_DIMENSION probe_radius fuel shape = Some g ->
  Forall2 pt_eq (test_point g) (ref_grid DM_GRID_DIMENSION probe_radius) /\
  active_point g =
    write (classify_all DM_GRID_DIMENSION probe_radius shape (test_point g))
          (find_nearest_test_point DM_GRID_DIMENSION
             (mk_grid (test_point g)
                (classify_all DM_GRID_DIMENSION probe_radius shape (test_point g)))
             origin)
          TP_CENTER.
Proof.
  intros HN HR Hfuel Hinit.
  destruct (test_points_spec DM_GRID_DIMENSION probe_radius HN HR fuel Hfuel)
    as (tp & Htp & HF & Hl).
  unfold init_test_points in Hinit. rewrite Htp, Hl, Z.eqb_refl in Hinit.
  injection Hinit as <-. split; [exact HF|reflexivity].
Qed.

(** ** The nearest test point of a grid position *)

Lemma squares_zero (a b : Q) : a * a + b * b <= 0 -> a == 0 /\ b == 0.
Proof.
  intro H.
  pose proof (Qsquare_nonneg a) as Ha. pose proof (Qsquare_nonneg b) as Hb.
  split.
  - assert (E : a * a == 0) by lra. apply Qmult_integral in E. tauto.
  - assert (E : b * b == 0) by lra. apply Qmult_integral in E. tauto.
Qed.

Section GridNearest.

Variable DM_GRID_DIMENSION : Z.
Variable probe_radius : float.
Hypothesis grid_side : (3 <= DM_GRID_DIMENSION)%Z.
Hypothesis radius_pos : 0 < probe_radius.

Local Abbreviation N := DM_GRID_DIMENSION.
Local Abbreviation R := probe_radius.

Lemma grid_x_inj (c c' : Z) : grid_x N R c == grid_x N R c' -> c = c'.
Proof.
  pose proof (spacing_pos N R (grid_side2 N grid_side) radius_pos) as Hp.
  unfold grid_x. intro H.
  assert (E : (inject_Z c - inject_Z c') * point_spacing N R == 0) by lra.
  apply Qmult_integral in E. destruct E as [E|E]; [|lra].
  assert (E' : inject_Z c == inject_Z c') by lra.
  rewrite inject_Z_injective in E'. exact E'.
Qed.

Lemma grid_y_inj (r r' : Z) : grid_y N R r == grid_y N R r' -> r = r'.
Proof.
  intro H. apply grid_x_inj. unfold grid_x, grid_y in *. lra.
Qed.

(** A query at the coordinates of an eligible grid point returns that
    point. *)
Lemma find_nearest_at_grid_point (g : grid) (pos : point2) (r c : Z) :
  Forall2 pt_eq (test_point g) (ref_grid N R) ->
  (0 <= r < N)%Z -> (0 <= c < N)%Z ->
  eligible g (r * N + c) ->
  pt_eq pos (grid_point N R r c) ->
  find_nearest_test_point N g pos = (r * N + c)%Z.
Proof.
  intros HF Hr Hc He [Hpx Hpy]. cbn [fst snd grid_point] in Hpx, Hpy.
  assert (Hi : (0 <= r * N + c < DM_GRID_ELEMENTS N)%Z)
    by (unfold DM_GRID_ELEMENTS; nia).
  assert (Hd : forall r' c', (0 <= r' < N)%Z -> (0 <= c' < N)%Z ->
             dsq g pos (r' * N + c') ==
             (grid_x N R c' - grid_x N R c) * (grid_x N R c' - grid_x N R c)
             + (grid_y N R r' - grid_y N R r) * (grid_y N R r' - grid_y N R r)).
  { intros r' c' Hr' Hc'.
    destruct (test_points_get N R grid_side (test_point g) r' c' HF Hr' Hc')
      as [Hx Hy]. cbn [fst snd grid_point] in Hx, Hy.
    unfold dsq, distance2D. cbn [dist_sq]. rewrite Hx, Hy, Hpx, Hpy.
    reflexivity. }
  assert (Hd0 : dsq g pos (r * N + c) == 0) by (rewrite Hd by assumption; ring).
  destruct (find_nearest_spec N g pos (r * N + c) Hi He) as (Hj & Ej & Hmin).
  { rewrite Hd0. reflexivity. }
  set (j := find_nearest_test_point N g pos) in *.
  destruct (Hmin (r * N + c)%Z Hi He) as [Hle _]. rewrite Hd0 in Hle.
  destruct (index_row_col N j) as (Hjr & Hjc & Hrc); [lia|exact Hj|].
  rewrite Hrc in Hle. rewrite Hd in Hle by assumption.
  apply squares_zero in Hle. destruct Hle as [Ex Ey].
  assert (Ec : (j mod N)%Z = c) by (apply grid_x_inj; lra).
  assert (Er : (j / N)%Z = r) by (apply grid_y_inj; lra).
  rewrite Hrc, Ec, Er. reflexivity.
Qed.

End GridNearest.

(** X5. On an initialized whole-number grid, queried at the coordinates
    of one of its own Active or Centre points,
    [find_nearest_test_point] returns the subscript of that point. *)
Theorem find_nearest_test_point_own_coordinates
        (DM_GRID_DIMENSION : Z) (probe_radius : float) (fuel : nat)
        (shape : surface_shape_t) (g : grid) (i : Z) :
  (3 <= DM_GRID_DIMENSION)%Z ->
  whole_number_grid DM_GRID_DIMENSION probe_radius ->
  (Z.to_nat DM_GRID_DIMENSION < fuel)%nat ->
  init_test_points DM_GRID_DIMENSION probe_radius fuel shape = Some g ->
  (0 <= i < DM_GRID_ELEMENTS DM_GRID_DIMENSION)%Z ->
  eligible g i ->
  find_nearest_test_point DM_GRID_DIMENSION g (get origin (test_point g) i) = i.
Proof.
  intros HN HW Hfuel Hinit Hi He.
  assert (HR : 0 < probe_radius)
    by (apply (whole_number_grid_pos DM_GRID_DIMENSION); [lia|exact HW]).
  destruct (init_test_points_layout _ _ _ _ _ HN HR Hfuel Hinit) as [HF _].
  destruct (index_row_col DM_GRID_DIMENSION i) as (Hr & Hc & Hrc); [lia|exact Hi|].
  rewrite Hrc at 2.
  apply (find_nearest_at_grid_point DM_GRID_DIMENSION probe_radius HN HR);
    try assumption.
  - rewrite <- Hrc. exact He.
  - rewrite Hrc at 1. apply test_points_get; assumption.
Qed.

Lemma find_nearest_test_point_own_coordinates_witness :
  find_nearest_test_point 5 example_grid (get origin (test_point example_grid) 8)
  = 8%Z.
Proof.
  apply (find_nearest_test_point_own_coordinates 5 100 6 PSS_CIRCLE);
    try reflexivity; try lia; try lra.
  - exists 100%Z, 50%Z. split; [reflexivity|]. split; [lia|]. split; lia.
  - unfold DM_GRID_ELEMENTS. lia.
  - left. reflexivity.
Defined.

(** ** The grid after [init_test_points], for either surface shape *)

Section InitializedGrid.

Variable DM_GRID_DIMENSION : Z.
Variable probe_radius : float.
Hypothesis grid_side : (3 <= DM_GRID_DIMENSION)%Z.
Hypothesis grid_odd : Z.odd DM_GRID_DIMENSION = true.
Hypothesis radius_pos : 0 < probe_radius.

Local Abbreviation N := DM_GRID_DIMENSION.
Local Abbreviation R := probe_radius.
Local Abbreviation c0 := ((DM_GRID_DIMENSION - 1) / 2)%Z.

Lemma centre_range : (1 <= c0 < N - 1)%Z.
Proof. pose proof (centre_double N grid_odd). lia. Qed.

Lemma centre_point : pt_eq origin (grid_point N R c0 c0).
Proof.
  split; cbn [fst snd grid_point origin]; symmetry.
  - apply (grid_x_zero N R grid_side grid_odd radius_pos). reflexivity.
  - apply (grid_y_zero N R grid_side grid_odd radius_pos). reflexivity.
Qed.

Lemma top_centre_point : pt_eq (0, R) (grid_point N R 0 c0).
Proof.
  split; cbn [fst snd grid_point]; symmetry.
  - apply (grid_x_zero N R grid_side grid_odd radius_pos). reflexivity.
  - unfold grid_y. change (inject_Z 0) with 0. ring.
Qed.

(** A grid point on the rim or inside is tagged Active by the loops. *)
Lemma classify_within (shape : surface_shape_t) (tp : list point2) (r c : Z) :
  Forall2 pt_eq tp (ref_grid N R) ->
  (0 <= r < N)%Z -> (0 <= c < N)%Z ->
  within (grid_point N R r c) R ->
  classify N R shape tp r c = TP_ACTIVE.
Proof.
  intros HF Hr Hc Hw. destruct shape; [|reflexivity].
  apply (classify_circle N R grid_side radius_pos); [exact Hr|].
  unfold within in *.
  rewrite (pt_eq_distance origin _ _ (test_points_get N R grid_side tp r c HF Hr Hc)).
  exact Hw.
Qed.

Lemma within_centre : within (grid_point N R c0 c0) R.
Proof.
  unfold within.
  rewrite <- (pt_eq_distance origin _ _ centre_point).
  unfold distance2D, origin. cbn [dist_sq fst snd].
  pose proof (Qsquare_nonneg R). lra.
Qed.

Lemma within_top_centre : within (grid_point N R 0 c0) R.
Proof.
  unfold within.
  rewrite <- (pt_eq_distance origin _ _ top_centre_point).
  unfold distance2D, origin. cbn [dist_sq fst snd]. lra.
Qed.

(** The point nearest to the origin is the middle cell, whatever the
    surface shape. *)
Lemma centre_index_shape (shape : surface_shape_t) (tp : list point2) :
  Forall2 pt_eq tp (ref_grid N R) ->
  find_nearest_test_point N (mk_grid tp (classify_all N R shape tp)) origin
  = (c0 * N + c0)%Z.
Proof.
  intro HF. pose proof centre_range as Hc0.
  apply (find_nearest_at_grid_point N R grid_side radius_pos);
    [exact HF | lia | lia | | exact centre_point].
  left. cbn [active_point]. rewrite classify_all_get by lia.
  apply classify_within; [exact HF | lia | lia | exact within_centre].
Qed.

(** The tags of an initialized grid: the middle cell is the Centre,
    every other cell keeps the tag of the classification loops. *)
Lemma initialized_tags (fuel : nat) (shape : surface_shape_t) (g : grid) :
  (Z.to_nat N < fuel)%nat ->
  init_test_points N R fuel shape = Some g ->
  Forall2 pt_eq (test_point g) (ref_grid N R) /\
  forall r c, (0 <= r < N)%Z -> (0 <= c < N)%Z ->
    get TP_INACTIVE (active_point g) (r * N + c) =
    if ((r =? c0) && (c =? c0))%Z then TP_CENTER
    else classify N R shape (test_point g) r c.
Proof.
  intros Hfuel Hinit. pose proof centre_range as Hc0.
  destruct (init_test_points_layout N R fuel shape g grid_side radius_pos
              Hfuel Hinit) as [HF Hap].
  split; [exact HF|]. intros r c Hr Hc.
  rewrite Hap, (centre_index_shape shape (test_point g) HF).
  pose proof (classify_all_length N R grid_side shape (test_point g)) as Hcl.
  rewrite get_write; [| rewrite Hcl; unfold DM_GRID_ELEMENTS; nia | nia].
  rewrite classify_all_get by assumption.
  destruct (Z.eqb_spec (r * N + c) (c0 * N + c0)) as [E|E].
  - assert (r = c0) by (destruct (Z.lt_trichotomy r c0) as [L|[L|L]]; nia).
    assert (c = c0) by nia. subst r c. rewrite !Z.eqb_refl. reflexivity.
  - destruct (Z.eqb_spec r c0) as [->|]; [|reflexivity].
    destruct (Z.eqb_spec c c0) as [->|]; [congruence|reflexivity].
Qed.

End InitializedGrid.

(** X6. On an initialized whole-number grid of odd side (its radius is
    below 999), the centre tower point is the middle cell (tagged
    Centre), the Z tower point is the middle of the top row, an Active
    point that lies at [(0, probe_radius)], and the X and Y tower
    points are valid subscripts of Active or Centre points. *)
Theorem tower_points_of_initialized_grid
        (DM_GRID_DIMENSION : Z) (probe_radius : float) (fuel : nat)
        (shape : surface_shape_t) (g : grid) :
  (3 <= DM_GRID_DIMENSION)%Z -> Z.odd DM_GRID_DIMENSION = true ->
  whole_number_grid DM_GRID_DIMENSION probe_radius ->
  (Z.to_nat DM_GRID_DIMENSION < fuel)%nat ->
  init_test_points DM_GRID_DIMENSION probe_radius fuel shape = Some g ->
  let t := tower_point_idx DM_GRID_DIMENSION probe_radius g in
  let c0 := ((DM_GRID_DIMENSION - 1) / 2)%Z in
  TP_CTR t = (c0 * DM_GRID_DIMENSION + c0)%Z /\
  get TP_INACTIVE (active_point g) (TP_CTR t) = TP_CENTER /\
  TP_Z t = c0 /\
  get TP_INACTIVE (active_point g) (TP_Z t) = TP_ACTIVE /\
  pt_eq (get origin (test_point g) (TP_Z t)) (0, probe_radius) /\
  (forall k, k = TP_X t \/ k = TP_Y t ->
     (0 <= k < DM_GRID_ELEMENTS DM_GRID_DIMENSION)%Z /\ eligible g k).
Proof.
  intros HN Hodd HW Hfuel Hinit t c0.
  assert (HR : 0 < probe_radius)
    by (apply (whole_number_grid_pos DM_GRID_DIMENSION); [lia|exact HW]).
  pose proof (whole_number_grid_below DM_GRID_DIMENSION probe_radius HW) as HR9.
  pose proof (centre_range DM_GRID_DIMENSION HN Hodd) as Hc0. fold c0 in Hc0.
  destruct (initialized_tags DM_GRID_DIMENSION probe_radius HN Hodd HR
              fuel shape g Hfuel Hinit) as [HF Htag].
  fold c0 in Htag.
  assert (Tc : get TP_INACTIVE (active_point g) (c0 * DM_GRID_DIMENSION + c0)
               = TP_CENTER).
  { rewrite Htag by lia. rewrite !Z.eqb_refl. reflexivity. }
  assert (Tz : get TP_INACTIVE (active_point g) (0 * DM_GRID_DIMENSION + c0)
               = TP_ACTIVE).
  { rewrite Htag by lia.
    destruct (Z.eqb_spec 0 c0) as [E|_]; [lia|]. cbn [andb].
    apply (classify_within DM_GRID_DIMENSION probe_radius HN HR);
      [exact HF | lia | lia |].
    apply (within_top_centre DM_GRID_DIMENSION probe_radius HN Hodd HR). }
  assert (Ec : TP_CTR t = (c0 * DM_GRID_DIMENSION + c0)%Z).
  { apply (find_nearest_at_grid_point DM_GRID_DIMENSION probe_radius HN HR);
      [exact HF | lia | lia | right; exact Tc |].
    apply (centre_point DM_GRID_DIMENSION probe_radius HN Hodd HR). }
  assert (Ez : TP_Z t = (0 * DM_GRID_DIMENSION + c0)%Z).
  { apply (find_nearest_at_grid_point DM_GRID_DIMENSION probe_radius HN HR);
      [exact HF | lia | lia | left; exact Tz |].
    apply (top_centre_point DM_GRID_DIMENSION probe_radius HN Hodd HR). }
  split; [exact Ec|]. split; [rewrite Ec; exact Tc|].
  split; [rewrite Ez; lia|]. split; [rewrite Ez; exact Tz|]. split.
  { rewrite Ez.
    destruct (test_points_get DM_GRID_DIMENSION probe_radius HN (test_point g)
                0 c0 HF) as [Hx Hy]; [lia|lia|].
    destruct (top_centre_point DM_GRID_DIMENSION probe_radius HN Hodd HR)
      as [Hx' Hy'].
    split; (etransitivity; [eassumption | symmetry; assumption]). }
  assert (Hi0 : (0 <= c0 * DM_GRID_DIMENSION + c0
                 < DM_GRID_ELEMENTS DM_GRID_DIMENSION)%Z)
    by (unfold DM_GRID_ELEMENTS; nia).
  assert (He0 : eligible g (c0 * DM_GRID_DIMENSION + c0)) by (right; exact Tc).
  assert (Hnear : forall px : Q,
            px * px == (xDeg * xDeg) * (probe_radius * probe_radius) ->
            dsq g (px, - yDeg * probe_radius)
                (c0 * DM_GRID_DIMENSION + c0) < 999 * 999).
  { intros px Hpx.
    destruct (test_points_get DM_GRID_DIMENSION probe_radius HN (test_point g)
                c0 c0 HF) as [Hx Hy]; [lia|lia|].
    destruct (centre_point DM_GRID_DIMENSION probe_radius HN Hodd HR)
      as [Hx' Hy'].
    fold c0 in Hx', Hy'.
    unfold dsq, distance2D. cbn [dist_sq fst snd].
    rewrite Hx, Hy, <- Hx', <- Hy'. cbn [fst snd origin].
    setoid_replace ((0 - px) * (0 - px)
                    + (0 - - yDeg * probe_radius) * (0 - - yDeg * probe_radius))
      with (px * px + yDeg * yDeg * (probe_radius * probe_radius)) by ring.
    rewrite Hpx.
    assert (Hrr : probe_radius * probe_radius < 999 * 999).
    { apply Qle_lt_trans with (999 * probe_radius).
      - apply Qmult_le_compat_r; lra.
      - rewrite (Qmult_comm 999 probe_radius).
        apply Qmult_lt_compat_r; lra. }
    assert (Hr0 : 0 <= probe_radius * probe_radius) by apply Qsquare_nonneg.
    setoid_replace (xDeg * xDeg * (probe_radius * probe_radius)
                    + yDeg * yDeg * (probe_radius * probe_radius))
      with ((xDeg * xDeg + yDeg * yDeg) * (probe_radius * probe_radius)) by ring.
    apply Qle_lt_trans with (1 * (probe_radius * probe_radius)); [|lra].
    apply Qmult_le_compat_r; [vm_compute; discriminate|exact Hr0]. }
  intros k [-> | ->]; cbn [t tower_point_idx TP_X TP_Y].
  - destruct (find_nearest_spec DM_GRID_DIMENSION g
                (- xDeg * probe_radius, - yDeg * probe_radius)
                (c0 * DM_GRID_DIMENSION + c0) Hi0 He0) as (Hj & Ej & _);
      [apply Hnear; ring | split; assumption].
  - destruct (find_nearest_spec DM_GRID_DIMENSION g
                (xDeg * probe_radius, - yDeg * probe_radius)
                (c0 * DM_GRID_DIMENSION + c0) Hi0 He0) as (Hj & Ej & _);
      [apply Hnear; ring | split; assumption].
Qed.

Lemma tower_points_of_initialized_grid_witness :
  let t := tower_point_idx 5 100 example_grid in
  TP_CTR t = 12%Z /\
  get TP_INACTIVE (active_point example_grid) (TP_CTR t) = TP_CENTER /\
  TP_Z t = 2%Z /\
  get TP_INACTIVE (active_point example_grid) (TP_Z t) = TP_ACTIVE /\
  pt_eq (get origin (test_point example_grid) (TP_Z t)) (0, 100) /\
  (forall k, k = TP_X t \/ k = TP_Y t ->
     (0 <= k < DM_GRID_ELEMENTS 5)%Z /\ eligible example_grid k).
Proof.
  apply (tower_points_of_initialized_grid 5 100 6 PSS_CIRCLE example_grid);
    try reflexivity; try lia; try lra.
  exists 100%Z, 50%Z. split; [reflexivity|]. split; [lia|]. split; lia.
Defined.

(** X7. On a square print surface and a whole-number grid of odd side,
    [init_test_points] terminates with the full grid laid out, the
    middle cell tagged Centre and every other cell tagged Active. *)
Theorem init_test_points_square
        (DM_GRID_DIMENSION : Z) (probe_radius : float) (fuel : nat) :
  (3 <= DM_GRID_DIMENSION)%Z -> Z.odd DM_GRID_DIMENSION = true ->
  whole_number_grid DM_GRID_DIMENSION probe_radius ->
  (Z.to_nat DM_GRID_DIMENSION < fuel)%nat ->
  exists g,
    init_test_points DM_GRID_DIMENSION probe_radius fuel PSS_SQUARE = Some g /\
    Forall2 pt_eq (test_point g) (ref_grid DM_GRID_DIMENSION probe_radius) /\
    forall r c, (0 <= r < DM_GRID_DIMENSION)%Z -> (0 <= c < DM_GRID_DIMENSION)%Z ->
      get TP_INACTIVE (active_point g) (r * DM_GRID_DIMENSION + c) =
      if ((r =? (DM_GRID_DIMENSION - 1) / 2)
          && (c =? (DM_GRID_DIMENSION - 1) / 2))%Z
      then TP_CENTER else TP_ACTIVE.
Proof.
  intros HN Hodd HW Hfuel.
  assert (HR : 0 < probe_radius)
    by (apply (whole_number_grid_pos DM_GRID_DIMENSION); [lia|exact HW]).
  destruct (test_points_spec DM_GRID_DIMENSION probe_radius HN HR fuel Hfuel)
    as (tp & Htp & HF & Hl).
  assert (Hinit : exists g, init_test_points DM_GRID_DIMENSION probe_radius
                              fuel PSS_SQUARE = Some g).
  { unfold init_test_points. rewrite Htp, Hl, Z.eqb_refl. eexists. reflexivity. }
  destruct Hinit as [g Hinit]. exists g. split; [exact Hinit|].
  destruct (initialized_tags DM_GRID_DIMENSION probe_radius HN Hodd HR
              fuel PSS_SQUARE g Hfuel Hinit) as [HF' Htag].
  split; [exact HF'|]. intros r c Hr Hc. rewrite Htag by assumption.
  reflexivity.
Qed.

Lemma init_test_points_square_witness :
  exists g,
    init_test_points 3 100 4 PSS_SQUARE = Some g /\
    Forall2 pt_eq (test_point g) (ref_grid 3 100) /\
    forall r c, (0 <= r < 3)%Z -> (0 <= c < 3)%Z ->
      get TP_INACTIVE (active_point g) (r * 3 + c) =
      if ((r =? (3 - 1) / 2) && (c =? (3 - 1) / 2))%Z
      then TP_CENTER else TP_ACTIVE.
Proof.
  apply (init_test_points_square 3 100 4); try reflexivity; try lia; try lra.
  exists 100%Z, 100%Z. split; [reflexivity|]. split; [lia|]. split; lia.
Defined.

(** ** The binary search for any energy *)

Lemma shrink_step (D w : Q) : 0 <= D -> 0 <= w <= 1 -> 0 <= D * w <= D.
Proof.
  intros HD [W1 W2]. split.
  - apply Qmult_le_0_compat; assumption.
  - setoid_replace D with (1 * D) at 2 by ring.
    rewrite (Qmult_comm D w). apply Qmult_le_compat_r; assumption.
Qed.

Lemma narrow_range (e1 e2 lo hi w : float) :
  lo <= hi -> 0 <= w <= 1 ->
  let p := narrow e1 e2 lo hi w in
  lo <= fst p /\ fst p <= snd p /\ snd p <= hi.
Proof.
  intros Hle Hw.
  assert (HD : 0 <= hi - lo) by lra.
  pose proof (shrink_step (hi - lo) w HD Hw) as Hs.
  destruct (narrow_spec e1 e2 lo hi w) as (N1 & N2 & N3).
  destruct (Q_dec e1 e2) as [[L|L]|E].
  - rewrite (N1 L). cbn [fst snd]. repeat split; lra.
  - rewrite (N2 L). cbn [fst snd]. repeat split; lra.
  - rewrite (N3 E). cbn [fst snd]. repeat split; lra.
Qed.

Section SearchRange.

Variable simulate_FK_and_get_energy : machine -> float.
Variables w tgt : float.
Hypothesis width_range : 0 <= w <= 1.

Lemma find_optimal_loop_range
      (test_function : float -> bool -> machine -> machine) (j : nat) :
  forall (lo hi : float) (m : machine),
    lo <= hi ->
    let r := find_optimal_loop simulate_FK_and_get_energy j test_function
                               lo hi w tgt m in
    lo <= fst (fst r) /\ fst (fst r) <= snd (fst r) /\ snd (fst r) <= hi.
Proof.
  induction j as [|j IH]; intros lo hi m Hle; cbn [find_optimal_loop].
  - cbn [fst snd]. repeat split; lra.
  - destruct (Qle_bool (hi - lo) tgt); [cbn [fst snd]; repeat split; lra|].
    pose proof (narrow_range
                  (simulate_FK_and_get_energy (test_function lo true m))
                  (simulate_FK_and_get_energy
                     (test_function hi true (test_function lo true m)))
                  lo hi w Hle width_range) as Hn.
    destruct (narrow _ _ lo hi w) as [lo' hi']. cbn [fst snd] in Hn.
    destruct Hn as (H1 & H2 & H3).
    specialize (IH lo' hi' (test_function hi true (test_function lo true m)) H2).
    cbv zeta in IH. destruct IH as (I1 & I2 & I3). repeat split; lra.
Qed.

Lemma find_optimal_loop3_range
      (test_function : float -> float -> float -> bool -> machine -> machine)
      (values : values_ref) (k : axis) (j : nat) :
  forall (lo hi : float) (m : machine),
    lo <= hi ->
    let r := find_optimal_loop3 simulate_FK_and_get_energy j test_function
                                values k lo hi w tgt m in
    lo <= fst (fst r) /\ fst (fst r) <= snd (fst r) /\ snd (fst r) <= hi.
Proof.
  induction j as [|j IH]; intros lo hi m Hle; cbn [find_optimal_loop3].
  - cbn [fst snd]. repeat split; lra.
  - set (m1 := values_set values m (vset (values_get values m) k lo)).
    destruct (values_get values m1) as [[vx vy] vz].
    set (m2 := test_function vx vy vz true m1).
    set (m3 := values_set values m2 (vset (values_get values m2) k hi)).
    destruct (values_get values m3) as [[ux uy] uz].
    set (m4 := test_function ux uy uz true m3).
    destruct (Qle_bool (hi - lo) tgt); [cbn [fst snd]; repeat split; lra|].
    pose proof (narrow_range (simulate_FK_and_get_energy m2)
                  (simulate_FK_and_get_energy m4) lo hi w Hle width_range) as Hn.
    destruct (narrow _ _ lo hi w) as [lo' hi']. cbn [fst snd] in Hn.
    destruct Hn as (H1 & H2 & H3).
    specialize (IH lo' hi' m4 H2).
    cbv zeta in IH. destruct IH as (I1 & I2 & I3). repeat split; lra.
Qed.

End SearchRange.

(** X8. Whatever the energy and the test function, the value returned
    by the float version of [find_optimal_config] lies inside the
    search range, provided the range is not empty and the search width
    is between 0 and 1. *)
Theorem find_optimal_config_within_range
        (simulate_FK_and_get_energy : machine -> float)
        (test_function : float -> bool -> machine -> machine)
        (min max binsearch_width target : float) (m : machine) :
  min <= max -> 0 <= binsearch_width <= 1 ->
  min <= fst (find_optimal_config simulate_FK_and_get_energy test_function
                                  min max binsearch_width target m) <= max.
Proof.
  intros Hle Hw. unfold find_optimal_config.
  pose proof (find_optimal_loop_range simulate_FK_and_get_energy
                binsearch_width target Hw test_function 250 min max m Hle) as H.
  cbv zeta in H.
  destruct (find_optimal_loop _ _ _ _ _ _ _ _) as [[lo hi] m'].
  cbn [fst snd] in *. destruct H as (H1 & H2 & H3).
  split.
  - apply Qle_shift_div_l; lra.
  - apply Qle_shift_div_r; lra.
Qed.

Lemma find_optimal_config_within_range_witness :
  -5 <= fst (find_optimal_config (energy_of_arm_length lopsided_energy)
               set_arm_length (-5) 0 (1 # 10) target example_machine) <= 0.
Proof.
  apply (find_optimal_config_within_range
           (energy_of_arm_length lopsided_energy) set_arm_length
           (-5) 0 (1 # 10) target example_machine); lra.
Defined.

(** ** What the float[3] binary search leaves behind *)

Lemma with_options_same (m : machine) : with_options m (options m) = m.
Proof. destruct m. reflexivity. Qed.

Section SearchFrame.

Variable simulate_FK_and_get_energy : machine -> float.
Variable test_function : float -> float -> float -> bool -> machine -> machine.
Variable values : values_ref.

(** [values] points at three floats of [cur_set], and the test
    function, given the three floats as they are, only pushes options
    to the arm solution. *)
Hypothesis get_set : forall m v, values_get values (values_set values m v) = v.
Hypothesis set_set :
  forall m v v', values_set values (values_set values m v) v'
                 = values_set values m v'.
Hypothesis set_get : forall m, values_set values m (values_get values m) = m.
Hypothesis get_options :
  forall m o, values_get values (with_options m o) = values_get values m.
Hypothesis set_options :
  forall m o v, values_set values (with_options m o) v
                = with_options (values_set values m v) o.
Hypothesis test_options :
  forall m b, exists o,
    test_function (vget (values_get values m) X) (vget (values_get values m) Y)
                  (vget (values_get values m) Z_) b m
    = with_options m o.

Lemma vset_vset (v : vec3) (k : axis) (a b : float) :
  vset (vset v k a) k b = vset v k b.
Proof. destruct v as [[x y] z], k; reflexivity. Qed.

Lemma vset_vget (v : vec3) (k : axis) : vset v k (vget v k) = v.
Proof. destruct v as [[x y] z], k; reflexivity. Qed.

Lemma with_options_twice (m : machine) (o o' : arm_options) :
  with_options (with_options m o) o' = with_options m o'.
Proof. reflexivity. Qed.

(** One probe of the search: store [c] in slot [k], call the test
    function on the three floats. *)
Lemma search_probe (m0 : machine) (k : axis) (b c : float) (o1 : arm_options) :
  exists o2,
    (let m1 := values_set values
                 (with_options
                    (values_set values m0 (vset (values_get values m0) k b)) o1)
                 (vset (values_get values
                          (with_options
                             (values_set values m0
                                (vset (values_get values m0) k b)) o1)) k c) in
     let '(vx, vy, vz) := values_get values m1 in
     test_function vx vy vz true m1)
    = with_options (values_set values m0 (vset (values_get values m0) k c)) o2.
Proof.
  cbv zeta.
  set (mA := with_options
               (values_set values m0 (vset (values_get values m0) k b)) o1).
  assert (E1 : values_set values mA (vset (values_get values mA) k c)
               = with_options
                   (values_set values m0 (vset (values_get values m0) k c)) o1).
  { unfold mA. rewrite get_options, get_set, vset_vset, set_options, set_set.
    reflexivity. }
  rewrite E1.
  destruct (test_options
              (with_options
                 (values_set values m0 (vset (values_get values m0) k c)) o1)
              true) as [o2 Ho2].
  destruct (values_get values
              (with_options
                 (values_set values m0 (vset (values_get values m0) k c)) o1))
    as [[vx vy] vz].
  cbn [vget] in Ho2. rewrite Ho2. exists o2. reflexivity.
Qed.

Lemma find_optimal_loop3_frame (k : axis) (j : nat) :
  forall (lo hi w tgt : float) (m0 m : machine),
    (exists a o, m = with_options
                       (values_set values m0 (vset (values_get values m0) k a)) o) ->
    exists a o,
      snd (find_optimal_loop3 simulate_FK_and_get_energy j test_function
                              values k lo hi w tgt m)
      = with_options (values_set values m0 (vset (values_get values m0) k a)) o.
Proof.
  induction j as [|j IH]; intros lo hi w tgt m0 m Hm; cbn [find_optimal_loop3].
  - exact Hm.
  - destruct Hm as (a & o & ->).
    destruct (search_probe m0 k a lo o) as [o2 E2]. cbv zeta in E2.
    destruct (values_get values
                (values_set values
                   (with_options
                      (values_set values m0 (vset (values_get values m0) k a)) o)
                   (vset (values_get values
                            (with_options
                               (values_set values m0
                                  (vset (values_get values m0) k a)) o)) k lo)))
      as [[vx vy] vz].
    rewrite E2.
    destruct (search_probe m0 k lo hi o2) as [o3 E3]. cbv zeta in E3.
    destruct (values_get values
                (values_set values
                   (with_options
                      (values_set values m0 (vset (values_get values m0) k lo)) o2)
                   (vset (values_get values
                            (with_options
                               (values_set values m0
                                  (vset (values_get values m0) k lo)) o2)) k hi)))
      as [[ux uy] uz].
    rewrite E3.
    destruct (Qle_bool (hi - lo) tgt).
    + cbn [snd]. exists hi, o3. reflexivity.
    + destruct (narrow _ _ lo hi w) as [lo' hi'].
      apply IH. exists hi, o3. reflexivity.
Qed.

(** The search changes nothing but the options pushed to the arm
    solution. *)
Lemma find_optimal_config3_frame (k : axis) (lo hi w tgt : float) (m : machine) :
  exists o,
    snd (find_optimal_config3 simulate_FK_and_get_energy test_function
                              values k lo hi w tgt m)
    = with_options m o.
Proof.
  unfold find_optimal_config3.
  destruct (find_optimal_loop3_frame k 250 lo hi w tgt m m) as (a & o & E).
  { exists (vget (values_get values m) k), (options m).
    rewrite vset_vget, set_get, with_options_same. reflexivity. }
  destruct (find_optimal_loop3 _ _ _ _ _ _ _ _ _ _) as [[lo' hi'] m'].
  cbn [snd] in *. subst m'. exists o.
  rewrite get_options, get_set, vset_vset, vset_vget, set_options, set_set,
    set_get.
  reflexivity.
Qed.

End SearchFrame.

(** X9. The float[3] version of [find_optimal_config] returns a value
    inside the search range and restores the offset it varied: the
    working set, the trim store and the random stream are as before,
    only the options pushed to the arm solution may differ; with
    [set_test_trim] nothing changes at all. *)
Theorem find_optimal_config3_restores
        (simulate_FK_and_get_energy : machine -> float)
        (value_idx : axis) (min max binsearch_width target : float)
        (m : machine) :
  min <= max -> 0 <= binsearch_width <= 1 ->
  let radius := find_optimal_config3 simulate_FK_and_get_energy
                  set_tower_radius_offsets tower_radius_ref value_idx
                  min max binsearch_width target m in
  let angle := find_optimal_config3 simulate_FK_and_get_energy
                 set_tower_angle_offsets tower_angle_ref value_idx
                 min max binsearch_width target m in
  let endstop := find_optimal_config3 simulate_FK_and_get_energy
                   set_test_trim trim_ref value_idx
                   min max binsearch_width target m in
  (min <= fst radius <= max /\ min <= fst angle <= max /\
   min <= fst endstop <= max) /\
  (exists o, snd radius = with_options m o) /\
  (exists o, snd angle = with_options m o) /\
  snd endstop = m.
Proof.
  intros Hle Hw radius angle endstop.
  assert (Hrange :
    forall tf values,
      min <= fst (find_optimal_config3 simulate_FK_and_get_energy tf values
                    value_idx min max binsearch_width target m) <= max).
  { intros tf values. unfold find_optimal_config3.
    pose proof (find_optimal_loop3_range simulate_FK_and_get_energy
                  binsearch_width target Hw tf values value_idx 250
                  min max m Hle) as H.
    cbv zeta in H.
    destruct (find_optimal_loop3 _ _ _ _ _ _ _ _ _ _) as [[lo hi] m'].
    cbn [fst snd] in *. destruct H as (H1 & H2 & H3).
    split; [apply Qle_shift_div_l; lra | apply Qle_shift_div_r; lra]. }
  split; [repeat split; apply Hrange|].
  assert (Eta : forall s : KinematicSettings,
            mk_KinematicSettings (initialized s) (delta_radius s) (arm_length s)
              (trim s) (tower_radius s) (tower_angle s) (tower_arm s)
              (virtual_shimming s) = s) by (intros []; reflexivity).
  split; [|split].
  - apply find_optimal_config3_frame.
    + reflexivity.
    + reflexivity.
    + intros [cs o t n]. cbn. unfold with_cur_set, with_tower_radius. cbn.
      rewrite Eta. reflexivity.
    + reflexivity.
    + reflexivity.
    + intros m1 b. eexists. unfold set_tower_radius_offsets. reflexivity.
  - apply find_optimal_config3_frame.
    + reflexivity.
    + reflexivity.
    + intros [cs o t n]. cbn. unfold with_cur_set, with_tower_angle. cbn.
      rewrite Eta. reflexivity.
    + reflexivity.
    + reflexivity.
    + intros m1 b. eexists. unfold set_tower_angle_offsets. reflexivity.
  - destruct (find_optimal_config3_frame simulate_FK_and_get_energy
                set_test_trim trim_ref) with (k := value_idx) (lo := min)
      (hi := max) (w := binsearch_width) (tgt := target) (m := m) as [o E].
    + reflexivity.
    + reflexivity.
    + intros [cs o t n]. cbn. unfold with_cur_set, with_trim. cbn.
      rewrite Eta. reflexivity.
    + reflexivity.
    + reflexivity.
    + intros [cs o t n] b. exists o. unfold set_test_trim, trim_ref.
      cbn. unfold with_cur_set, with_trim, with_options. cbn.
      destruct (trim cs) as [[x y] z] eqn:Et. cbn. rewrite <- Et, Eta.
      reflexivity.
    + fold endstop in E.
      assert (Ho : options (snd endstop) = options m).
      { apply (find_optimal_config3_preserves simulate_FK_and_get_energy
                 set_test_trim trim_ref (fun m' => options m' = options m)).
        - intros x y z b m' Hm'. exact Hm'.
        - intros m' v Hm'. exact Hm'.
        - reflexivity. }
      rewrite E in Ho. cbn [options with_options] in Ho. subst o.
      rewrite E. apply with_options_same.
Qed.

Lemma find_optimal_config3_restores_witness :
  let radius := find_optimal_config3 (fun _ => 0)
                  set_tower_radius_offsets tower_radius_ref Y
                  (-3) 3 (1 # 10) target example_machine in
  let angle := find_optimal_config3 (fun _ => 0)
                 set_tower_angle_offsets tower_angle_ref Y
                 (-3) 3 (1 # 10) target example_machine in
  let endstop := find_optimal_config3 (fun _ => 0)
                   set_test_trim trim_ref Y
                   (-3) 3 (1 # 10) target example_machine in
  (-3 <= fst radius <= 3 /\ -3 <= fst angle <= 3 /\
   -3 <= fst endstop <= 3) /\
  (exists o, snd radius = with_options example_machine o) /\
  (exists o, snd angle = with_options example_machine o) /\
  snd endstop = example_machine.
Proof.
  apply (find_optimal_config3_restores (fun _ => 0) Y (-3) 3 (1 # 10) target
           example_machine); lra.
Defined.

(** ** The random step *)





(** ** The iterative calibrator as a whole *)


Lemma main_loop_S (probe : nat -> Iterative.state -> option Iterative.depths)
      (left outer_i : nat) (s : Iterative.state) :
  Iterative.main_loop probe (S left) outer_i s =
  match Iterative.iteration probe outer_i s with
  | Return b s' => (b, s')
  | Next s' => Iterative.main_loop probe left (S outer_i) s'
  end.
Proof. reflexivity. Qed.




Lemma endstop_block_keeps_delta_radius
      (depth : Iterative.depths) (mm : float * float) (dev : float)
      (s s' : Iterative.state) :
  Iterative.endstop_block depth mm dev s = Next s' ->
  Iterative.delta_radius_store s' = Iterative.delta_radius_store s.
Proof.
  unfold Iterative.endstop_block.
  set (s1 := if Iterative.endstop_needs_reset s
             then Iterative.with_statics s 999 (13 # 10) false else s).
  assert (E1 : Iterative.delta_radius_store s1 = Iterative.delta_radius_store s)
    by (unfold s1; destruct (Iterative.endstop_needs_reset s); reflexivity).
  destruct (Qle_bool (fabs dev) Iterative.target).
  - intro H. injection H as <-. exact E1.
  - destruct (Iterative.get_trim _) as [[[tx ty] tz]|]; [|discriminate].
    destruct (_ || _); [discriminate|].
    intro H. injection H as <-. cbn [Iterative.delta_radius_store Iterative.set_trim].
    destruct (_ && _); cbn; exact E1.
Qed.

Lemma endstop_block_false
      (depth : Iterative.depths) (mm : float * float) (dev : float)
      (b : bool) (s s' : Iterative.state) :
  Iterative.endstop_block depth mm dev s = Return b s' ->
  b = false /\
  (Iterative.get_trim s = None \/
   exists t k, Iterative.get_trim s = Some t /\ vget t k < -5).
Proof.
  unfold Iterative.endstop_block.
  set (s1 := if Iterative.endstop_needs_reset s
             then Iterative.with_statics s 999 (13 # 10) false else s).
  assert (E1 : Iterative.trim_store s1 = Iterative.trim_store s)
    by (unfold s1; destruct (Iterative.endstop_needs_reset s); reflexivity).
  destruct (Qle_bool (fabs dev) Iterative.target); [discriminate|].
  unfold Iterative.get_trim.
  cbn [Iterative.trim_store Iterative.with_endstop_in_tolerance].
  rewrite E1.
  destruct (Iterative.trim_store s) as [[[tx ty] tz]|].
  - destruct (Qlt_bool (Iterative.cap0 tx) (-5)) eqn:Ex;
      [|destruct (Qlt_bool (Iterative.cap0 ty) (-5)) eqn:Ey;
        [|destruct (Qlt_bool (Iterative.cap0 tz) (-5)) eqn:Ez]];
      cbn [orb]; try discriminate;
      intro H; injection H as <- _; (split; [reflexivity|]); right;
      exists (tx, ty, tz).
    + exists X. split; [reflexivity|]. apply Qlt_bool_iff in Ex.
      apply cap0_lt. exact Ex.
    + exists Y. split; [reflexivity|]. apply Qlt_bool_iff in Ey.
      apply cap0_lt. exact Ey.
    + exists Z_. split; [reflexivity|]. apply Qlt_bool_iff in Ez.
      apply cap0_lt. exact Ez.
  - intro H. injection H as <- _. split; [reflexivity|]. left. reflexivity.
Qed.

Lemma iteration_false
      (probe : nat -> Iterative.state -> option Iterative.depths)
      (outer_i : nat) (s s' : Iterative.state) :
  Iterative.iteration probe outer_i s = Return false s' ->
  failure_cause probe outer_i s.
Proof.
  unfold Iterative.iteration, failure_cause.
  destruct (probe outer_i s) as [depth|]; [|intros _; left; reflexivity].
  set (mm := minmax4 _ _ _ _).
  destruct (Iterative.endstop_block depth mm (snd mm - fst mm) s) as [b s1|s1] eqn:Ee.
  - intros _. apply endstop_block_false in Ee. destruct Ee as [_ [H|H]];
      [right; left; exact H | right; right; right; exact H].
  - apply endstop_block_keeps_delta_radius in Ee.
    unfold Iterative.delta_radius_block, Iterative.get_delta_radius. rewrite Ee.
    destruct (Iterative.delta_radius_store s) as [dr|];
      [|intros _; right; right; left; reflexivity].
    destruct (Qle_bool _ Iterative.target).
    + destruct (_ && _); discriminate.
    + destruct (_ && _); discriminate.
Qed.

Lemma main_loop_returns_false
      (probe : nat -> Iterative.state -> option Iterative.depths) (left : nat) :
  forall (outer_i : nat) (s : Iterative.state),
    fst (Iterative.main_loop probe left outer_i s) = false ->
    exists j s',
      (j < left)%nat /\
      state_before probe j outer_i s = Some s' /\
      Iterative.iteration probe (outer_i + j) s'
      = Return false (snd (Iterative.main_loop probe left outer_i s)).
Proof.
  induction left as [|left IH]; intros outer_i s.
  - cbn. discriminate.
  - rewrite main_loop_S.
    destruct (Iterative.iteration probe outer_i s) as [b s1|s1] eqn:Ei.
    + cbn [fst snd]. intros ->. exists 0%nat, s. split; [lia|].
      split; [reflexivity|]. rewrite Nat.add_0_r. exact Ei.
    + intro H. destruct (IH (S outer_i) s1 H) as (j & s' & Hj & Hb & Hit).
      exists (S j), s'. split; [lia|]. split.
      * cbn [state_before]. rewrite Ei. exact Hb.
      * rewrite Nat.add_succ_r. exact Hit.
Qed.

Lemma main_loop_exhausted
      (probe : nat -> Iterative.state -> option Iterative.depths) (left : nat) :
  forall (outer_i : nat) (s s' : Iterative.state),
    state_before probe left outer_i s = Some s' ->
    Iterative.main_loop probe left outer_i s = (true, s').
Proof.
  induction left as [|left IH]; intros outer_i s s'.
  - cbn. intro H. injection H as ->. reflexivity.
  - rewrite main_loop_S. cbn [state_before].
    destruct (Iterative.iteration probe outer_i s) as [b s1|s1];
      [discriminate|]. apply IH.
Qed.

(** X12. [iterative_calibration] returns [false] only from within one
    of its 20 iterations, all iterations before it having run to their
    end, and only when at the start of that iteration a probe fails,
    the trim or the delta radius cannot be queried, or a trim lies
    below -5; when all 20 iterations run to their end without meeting
    the tolerances, the result is [true]. *)
Theorem iterative_calibration_failure
        (probe : nat -> Iterative.state -> option Iterative.depths)
        (keep_settings : bool) (s : Iterative.state) :
  let s0 := if keep_settings then s else Iterative.set_trim 0 0 0 s in
  let r := Iterative.iterative_calibration probe keep_settings s in
  (fst r = false ->
   exists outer_i s',
     (outer_i < 20)%nat /\
     state_before probe outer_i 0 s0 = Some s' /\
     Iterative.iteration probe outer_i s' = Return false (snd r) /\
     (probe outer_i s' = None \/
      Iterative.get_trim s' = None \/
      Iterative.get_delta_radius s' = None \/
      exists t k, Iterative.get_trim s' = Some t /\ vget t k < -5)) /\
  (forall s', state_before probe 20 0 s0 = Some s' -> r = (true, s')).
Proof.
  intros s0 r. unfold r, Iterative.iterative_calibration. fold s0. split.
  - intro H.
    destruct (main_loop_returns_false probe 20 0 s0 H) as (j & s' & Hj & Hb & Hit).
    exists j, s'. split; [exact Hj|]. split; [exact Hb|].
    split; [exact Hit|]. exact (iteration_false probe j s' _ Hit).
  - intros s' H. apply main_loop_exhausted. exact H.
Qed.

Lemma iterative_calibration_failure_witness :
  (fst (Iterative.iterative_calibration example_probe true
          (example_state (- (6), 0, 0))) = false /\
   exists outer_i s',
     (outer_i < 20)%nat /\
     state_before example_probe outer_i 0 (example_state (- (6), 0, 0)) = Some s' /\
     Iterative.iteration example_probe outer_i s'
     = Return false (snd (Iterative.iterative_calibration example_probe true
                            (example_state (- (6), 0, 0)))) /\
     (example_probe outer_i s' = None \/
      Iterative.get_trim s' = None \/
      Iterative.get_delta_radius s' = None \/
      exists t k, Iterative.get_trim s' = Some t /\ vget t k < -5)) /\
  (exists s',
     state_before example_probe_centre 20 0 example_state_unit_gain = Some s' /\
     Iterative.iterative_calibration example_probe_centre true
       example_state_unit_gain = (true, s')).
Proof.
  split.
  - assert (H : fst (Iterative.iterative_calibration example_probe true
                       (example_state (- (6), 0, 0))) = false)
      by (vm_compute; reflexivity).
    split; [exact H|].
    exact (proj1 (iterative_calibration_failure example_probe true
                    (example_state (- (6), 0, 0))) H).
  - assert (H : exists s',
               state_before example_probe_centre 20 0 example_state_unit_gain
               = Some s') by (vm_compute; eexists; reflexivity).
    destruct H as [s' H]. exists s'. split; [exact H|].
    exact (proj2 (iterative_calibration_failure example_probe_centre true
                    example_state_unit_gain) s' H).
Defined.

Lemma endstop_block_gain (ts : float)
      (depth : Iterative.depths) (mm : float * float) (dev : float)
      (s : Iterative.state) :
  gain_settled ts s ->
  match Iterative.endstop_block depth mm dev s with
  | Return _ s' | Next s' =>
      Iterative.endstop_needs_reset s' = false /\
      81 # 95 <= Iterative.trimscale s' <= 13 # 10
  end.
Proof.
  intro Hs. unfold Iterative.endstop_block.
  set (s1 := if Iterative.endstop_needs_reset s
             then Iterative.with_statics s 999 (13 # 10) false else s).
  assert (H1 : Iterative.endstop_needs_reset s1 = false /\
               81 # 95 <= Iterative.trimscale s1 <= 13 # 10).
  { unfold s1. destruct Hs as [[-> _]|[E R]].
    - cbn. split; [reflexivity|split; lra].
    - rewrite E. split; assumption. }
  clearbody s1. destruct H1 as [Hn Hr].
  destruct (Qle_bool (fabs dev) Iterative.target); [cbn; split; assumption|].
  destruct (Iterative.get_trim _) as [[[tx ty] tz]|]; [|cbn; split; assumption].
  destruct (_ || _); [cbn; split; assumption|].
  cbn [Iterative.last_deviation Iterative.trimscale
       Iterative.with_endstop_in_tolerance Iterative.endstop_needs_reset].
  destruct (Qle_bool (Iterative.last_deviation s1) dev); cbn [andb].
  - destruct (Qle_bool (9 # 10) (Iterative.trimscale s1 * (95 # 100))) eqn:E.
    + apply Qle_bool_iff in E. cbn. split; [exact Hn|]. split; lra.
    + cbn. split; assumption.
  - cbn. split; assumption.
Qed.

Lemma delta_radius_block_gain (depth : Iterative.depths) (s : Iterative.state) :
  match Iterative.delta_radius_block depth s with
  | Return _ s' | Next s' =>
      Iterative.endstop_needs_reset s' = Iterative.endstop_needs_reset s /\
      Iterative.trimscale s' = Iterative.trimscale s
  end.
Proof.
  unfold Iterative.delta_radius_block.
  destruct (Iterative.get_delta_radius s); [|split; reflexivity].
  destruct (Qle_bool _ Iterative.target); split; reflexivity.
Qed.

Lemma iteration_gain (ts : float)
      (probe : nat -> Iterative.state -> option Iterative.depths)
      (outer_i : nat) (s : Iterative.state) :
  gain_settled ts s ->
  match Iterative.iteration probe outer_i s with
  | Return _ s' | Next s' => gain_settled ts s'
  end.
Proof.
  intro Hs. unfold Iterative.iteration.
  destruct (probe outer_i s) as [depth|]; [|exact Hs].
  set (mm := minmax4 _ _ _ _).
  pose proof (endstop_block_gain ts depth mm (snd mm - fst mm) s Hs) as He.
  destruct (Iterative.endstop_block depth mm (snd mm - fst mm) s) as [b s1|s1].
  - right. exact He.
  - pose proof (delta_radius_block_gain depth s1) as Hd.
    destruct (Iterative.delta_radius_block depth s1) as [b s2|s2].
    + right. destruct Hd as [-> ->]. exact He.
    + destruct (_ && _); right; destruct Hd as [-> ->]; exact He.
Qed.

Lemma main_loop_gain (ts : float)
      (probe : nat -> Iterative.state -> option Iterative.depths) (left : nat) :
  forall (outer_i : nat) (s : Iterative.state),
    gain_settled ts s ->
    gain_settled ts (snd (Iterative.main_loop probe left outer_i s)).
Proof.
  induction left as [|left IH]; intros outer_i s Hs.
  - exact Hs.
  - rewrite main_loop_S.
    pose proof (iteration_gain ts probe outer_i s Hs) as Hi.
    destruct (Iterative.iteration probe outer_i s) as [b s1|s1].
    + exact Hi.
    + apply IH. exact Hi.
Qed.

(** X13. The trim gain of the endstop corrector: started in need of a
    reset, or with a gain between 81/95 and 1.3, the calibration ends
    with the gain between 81/95 (about 0.853) and 1.3, unless it failed
    before the first endstop correction, in which case the gain is
    untouched. *)
Theorem iterative_calibration_trimscale
        (probe : nat -> Iterative.state -> option Iterative.depths)
        (keep_settings : bool) (s : Iterative.state) :
  Iterative.endstop_needs_reset s = true \/
  81 # 95 <= Iterative.trimscale s <= 13 # 10 ->
  let s' := snd (Iterative.iterative_calibration probe keep_settings s) in
  (Iterative.endstop_needs_reset s' = true /\
   Iterative.trimscale s' = Iterative.trimscale s) \/
  (Iterative.endstop_needs_reset s' = false /\
   81 # 95 <= Iterative.trimscale s' <= 13 # 10).
Proof.
  intros Hs s'.
  assert (H0 : gain_settled (Iterative.trimscale s) s).
  { destruct (Iterative.endstop_needs_reset s) eqn:E.
    - left. split; [exact E|reflexivity].
    - right. split; [exact E|]. destruct Hs as [Hs|Hs]; [discriminate|exact Hs]. }
  assert (H1 : gain_settled (Iterative.trimscale s)
                 (if keep_settings then s else Iterative.set_trim 0 0 0 s)).
  { destruct keep_settings; exact H0. }
  exact (main_loop_gain (Iterative.trimscale s) probe 20 0 _ H1).
Qed.

Lemma iterative_calibration_trimscale_witness :
  let s' := snd (Iterative.iterative_calibration example_probe true
                   (example_state (0, 0, 0))) in
  (Iterative.endstop_needs_reset s' = true /\
   Iterative.trimscale s' = 13 # 10) \/
  (Iterative.endstop_needs_reset s' = false /\
   81 # 95 <= Iterative.trimscale s' <= 13 # 10).
Proof.
  apply (iterative_calibration_trimscale example_probe true
           (example_state (0, 0, 0))).
  right. cbn. split; lra.
Defined.

(** ** What a depth-map load stores *)

Section LoadContents.

Variable DM_GRID_DIMENSION : Z.
Variable atof strtof : String.string -> float.

Local Abbreviation N2 := (DM_GRID_ELEMENTS DM_GRID_DIMENSION).

(** The array the reading loop leaves: element [k] holds the value of
    the [(k - i)]-th value line for the subscripts filled, and is
    untouched elsewhere. *)
Lemma read_values_content (bufs : list String.string) :
  forall (i : Z) (dp : list float),
    (0 <= i <= N2)%Z -> Z.of_nat (List.length dp) = N2 ->
    match read_values DM_GRID_DIMENSION atof strtof bufs i dp with
    | inl (j, dp') | inr (j, dp') =>
        List.length dp' = List.length dp /\ (i <= j <= N2)%Z /\
        forall k, (0 <= k)%Z ->
          get 0 dp' k =
          if ((i <=? k) && (k <? j))%Z
          then strtof (nth (Z.to_nat (k - i)) (data_lines bufs) String.EmptyString)
          else get 0 dp k
    end.
Proof.
  induction bufs as [|buf bufs IH]; intros i dp Hi Hlen.
  - cbn. split; [reflexivity|]. split; [lia|]. intros k Hk.
    destruct (Z.leb_spec i k), (Z.ltb_spec k i); cbn [andb]; try reflexivity; lia.
  - cbn [read_values]. unfold data_lines. cbn [map filter]. fold (data_lines bufs).
    destruct (is_comment (chop_newline buf)) eqn:Ec; cbn [negb].
    + apply IH; assumption.
    + destruct (Z.ltb_spec i N2) as [Hlt|Hge].
      * destruct (Qlt_bool (-5) (atof (chop_newline buf))
                  && Qlt_bool (atof (chop_newline buf)) 5).
        -- specialize (IH (i + 1)%Z (write dp i (strtof (chop_newline buf)))
                          ltac:(lia)).
           rewrite write_length in IH. specialize (IH Hlen).
           assert (Hstep : forall (j : Z) (dp' : list float),
             (List.length dp' = List.length dp /\ (i + 1 <= j <= N2)%Z /\
              forall k, (0 <= k)%Z ->
                get 0 dp' k =
                if ((i + 1 <=? k) && (k <? j))%Z
                then strtof (nth (Z.to_nat (k - (i + 1))) (data_lines bufs)
                                 String.EmptyString)
                else get 0 (write dp i (strtof (chop_newline buf))) k) ->
             List.length dp' = List.length dp /\ (i <= j <= N2)%Z /\
             forall k, (0 <= k)%Z ->
               get 0 dp' k =
               if ((i <=? k) && (k <? j))%Z
               then strtof (nth (Z.to_nat (k - i))
                                (chop_newline buf :: data_lines bufs)
                                String.EmptyString)
               else get 0 dp k).
           { intros j dp' (L & B & H). split; [exact L|]. split; [lia|].
             intros k Hk. rewrite (H k Hk).
             rewrite get_write by lia.
             destruct (Z.leb_spec (i + 1) k), (Z.ltb_spec k j),
                      (Z.leb_spec i k), (Z.eqb_spec k i);
               cbn [andb]; try lia; try reflexivity.
             - replace (Z.to_nat (k - i)) with (S (Z.to_nat (k - (i + 1)))) by lia.
               reflexivity.
             - subst k. replace (Z.to_nat (i - i)) with 0%nat by lia. reflexivity. }
           destruct (read_values _ _ _ bufs _ _) as [[j dp']|[j dp']];
             apply Hstep; exact IH.
        -- split; [reflexivity|]. split; [lia|]. intros k Hk.
           destruct (Z.leb_spec i k), (Z.ltb_spec k i); cbn [andb];
             try reflexivity; lia.
      * specialize (IH i dp Hi Hlen).
        destruct (read_values _ _ _ bufs _ _) as [[j dp']|[j dp']];
          destruct IH as (L & B & H); (split; [exact L|]); (split; [lia|]);
          intros k Hk; rewrite (H k Hk);
          destruct (Z.leb_spec i k), (Z.ltb_spec k j); cbn [andb];
          try reflexivity; lia.
Qed.

End LoadContents.

Lemma global_enable_block_depth (gcode : Gcode) (st : surface_transform_t) :
  depth (global_enable_block gcode st) = depth st /\
  depth_enabled (global_enable_block gcode st) = depth_enabled st.
Proof.
  unfold global_enable_block.
  destruct (has_letter gcode "Z"%char); [|split; reflexivity].
  destruct (bool_of_float (get_value gcode "Z"%char)); [|split; reflexivity].
  destruct (depth_enabled st || plane_enabled st); split; reflexivity.
Qed.

(** X14. A depth-map file whose first [DM_GRID_ELEMENTS] value lines
    are all inside (-5, 5) loads: the handler returns [true], the depth
    array holds [strtof] of those value lines in file order (comment
    lines and surplus lines are ignored), and depth correction is
    switched as the E argument says. *)
Theorem depth_map_load_contents
        (DM_GRID_DIMENSION : Z) (atof strtof : String.string -> float)
        (gcode : Gcode) (probe_offset_x probe_offset_y : float)
        (bufs : list String.string) (st : surface_transform_t) :
  has_letter gcode "E"%char = true ->
  probe_offset_x == 0 -> probe_offset_y == 0 ->
  have_depth_map st = false ->
  let data := data_lines bufs in
  let N2 := DM_GRID_ELEMENTS DM_GRID_DIMENSION in
  let res := handle_depth_correction DM_GRID_DIMENSION atof strtof gcode
               probe_offset_x probe_offset_y true (Some bufs) st in
  (forall k buf, nth_error data k = Some buf -> (Z.of_nat k < N2)%Z ->
                 in_range (atof buf)) ->
  (N2 <= Z.of_nat (List.length data))%Z ->
  fst res = true /\
  depth (snd res) = map strtof (firstn (Z.to_nat N2) data) /\
  depth_enabled (snd res) = bool_of_float (get_value gcode "E"%char).
Proof.
  intros HE Hx Hy Hmap data N2 res Hall Hlong.
  assert (HN2 : (0 <= 0 <= N2)%Z) by (unfold N2, DM_GRID_ELEMENTS; nia).
  set (dp0 := depth (initDepthMapRAM DM_GRID_DIMENSION st)).
  assert (Hlen0 : Z.of_nat (List.length dp0) = N2).
  { unfold dp0, initDepthMapRAM. cbn [depth]. rewrite repeat_length.
    fold N2. lia. }
  pose proof (read_values_spec DM_GRID_DIMENSION atof strtof bufs 0 dp0 HN2)
    as Hspec.
  pose proof (read_values_content DM_GRID_DIMENSION atof strtof bufs 0 dp0
                HN2 Hlen0) as Hcont.
  fold data in Hspec, Hcont.
  assert (Hres : exists dp,
            read_values DM_GRID_DIMENSION atof strtof bufs 0 dp0 = inr (N2, dp) /\
            dp = map strtof (firstn (Z.to_nat N2) data)).
  { destruct (read_values _ _ _ bufs 0 dp0) as [[j dp]|[j dp]].
    - destruct Hspec as (k & b & Hk & Hj & Hlt & Hbad). exfalso. apply Hbad.
      apply (Hall k b Hk). lia.
    - destruct Hspec as [_ Hj]. fold N2 in Hj, Hcont.
      assert (Ej : j = N2) by lia. clear Hj. subst j.
      exists dp. split; [reflexivity|].
      destruct Hcont as (L & _ & H).
      apply (nth_ext _ _ 0 (strtof String.EmptyString)).
      + rewrite length_map, length_firstn. lia.
      + intros n Hn.
        rewrite (map_nth strtof). 
        specialize (H (Z.of_nat n) ltac:(lia)). unfold get in H.
        rewrite Nat2Z.id in H. rewrite H.
        destruct (Z.leb_spec 0 (Z.of_nat n)), (Z.ltb_spec (Z.of_nat n) N2);
          cbn [andb]; try lia.
        replace (Z.to_nat (Z.of_nat n - 0)) with n by lia.
        f_equal. rewrite nth_firstn.
        destruct (PeanoNat.Nat.ltb_spec n (Z.to_nat N2)); [reflexivity|lia]. }
  destruct Hres as (dp & Hrd & Hdp).
  unfold res, handle_depth_correction, depth_map_block.
  apply Qeq_bool_iff in Hx. apply Qeq_bool_iff in Hy.
  rewrite HE, Hx, Hy, Hmap. cbn [andb negb].
  fold dp0. rewrite Hrd. fold N2. rewrite Z.eqb_refl. cbn [negb].
  cbn [with_depth_enabled depth_enabled].
  destruct (bool_of_float (get_value gcode "E"%char));
    cbn [fst snd];
    (split; [reflexivity|]);
    match goal with
    | |- context [global_enable_block gcode ?s] =>
        destruct (global_enable_block_depth gcode s) as [-> ->]
    end;
    cbn; split; (exact Hdp || reflexivity).
Qed.

Lemma depth_map_load_contents_witness :
  let res := handle_depth_correction 1 example_atof example_atof example_gcode
               0 0 true (Some example_file) example_transform in
  fst res = true /\
  depth (snd res) = map example_atof (firstn 1 (data_lines example_file)) /\
  depth_enabled (snd res) = bool_of_float (get_value example_gcode "E"%char).
Proof.
  apply (depth_map_load_contents 1 example_atof example_atof example_gcode 0 0
           example_file example_transform); try reflexivity.
  - intros [|[|k]] buf Hk Hlt; try discriminate.
    injection Hk as <-. vm_compute. split; reflexivity.
Defined.

Lemma set_virtual_shimming_plane_on (unit : vec3 -> vec3) (x y z : float)
      (b : bool) (s : shimming_t) :
  plane_enabled (transform s) = true ->
  plane_enabled (transform (set_virtual_shimming unit x y z b s)) = true.
Proof.
  intro H. unfold set_virtual_shimming.
  destruct (tri_points s) as [[tx ty] tz].
  destruct (Qeq_bool x 0 && Qeq_bool y 0 && Qeq_bool z 0); cbn; [exact H|reflexivity].
Qed.

(** What the head of the handler leaves in the master switch and the
    depth fields. *)
Lemma shimming_block_active (unit : vec3 -> vec3) (gcode : Gcode)
      (s : shimming_t) :
  let s' := shimming_block unit gcode s in
  active (transform s') = plane_switch gcode s || active (transform s) /\
  plane_enabled (transform s') = plane_switch gcode s.
Proof.
  unfold shimming_block, plane_switch.
  destruct (tri_points s) as [[tx ty] tz].
  set (st := if has_letter gcode "D"%char
             then with_plane_enabled (transform s)
                    (bool_of_float (get_value gcode "D"%char))
             else transform s).
  assert (Hp : plane_enabled st =
               if has_letter gcode "D"%char
               then bool_of_float (get_value gcode "D"%char)
               else plane_enabled (transform s))
    by (unfold st; destruct (has_letter gcode "D"%char); reflexivity).
  assert (Ha : active st = active (transform s))
    by (unfold st; destruct (has_letter gcode "D"%char); reflexivity).
  rewrite <- Hp. clearbody st.
  destruct (plane_enabled st) eqn:E; cbv zeta.
  - cbn [transform set_adjust_function active plane_enabled orb].
    split; [reflexivity|].
    apply set_virtual_shimming_plane_on. exact E.
  - cbn [transform orb]. split; [exact Ha|exact E].
Qed.

(** X15. [M667] with [Z0]: when the handler returns [true] the surface
    transform is switched off and [get_adjust_z] is 0 at every target,
    without reading the depth array.  When the depth-map block aborts
    with [false] the Z argument is never looked at: the master switch
    is on if the plane is enabled (the head of the handler switches it
    on), and is as it was otherwise. *)
Theorem master_disable
        (DM_GRID_DIMENSION : Z) (probe_radius : float)
        (atof strtof : String.string -> float) (Vector3_unit : vec3 -> vec3)
        (gcode : Gcode) (probe_offset_x probe_offset_y : float)
        (alloc_ok : bool) (file : option (list String.string))
        (s : shimming_t) :
  has_letter gcode "Z"%char = true ->
  get_value gcode "Z"%char == 0 ->
  let res := handle_shimming_and_depth_correction DM_GRID_DIMENSION atof strtof
               Vector3_unit gcode probe_offset_x probe_offset_y alloc_ok file s in
  (fst res = true ->
   active (transform (snd res)) = false /\
   forall targetX targetY,
     get_adjust_z DM_GRID_DIMENSION probe_radius (transform (snd res))
                  targetX targetY
     = Some 0) /\
  (fst res = false ->
   active (transform (snd res))
   = plane_switch gcode s || active (transform s)).
Proof.
  intros HZ Hv res.
  assert (Hoff : forall st, active (global_enable_block gcode st) = false).
  { intro st. unfold global_enable_block, bool_of_float. rewrite HZ.
    apply Qeq_bool_iff in Hv. rewrite Hv. reflexivity. }
  destruct (shimming_block_active Vector3_unit gcode s) as [Hact _].
  cbv zeta in Hact.
  set (s1 := shimming_block Vector3_unit gcode s) in *.
  assert (Hblock :
    match depth_map_block DM_GRID_DIMENSION atof strtof gcode probe_offset_x
                          probe_offset_y alloc_ok file (transform s1) with
    | Return b st => b = false /\ active st = active (transform s1)
    | Next _ => True
    end).
  { unfold depth_map_block.
    destruct (has_letter gcode "E"%char); [|exact I].
    destruct (_ && _); [|exact I].
    destruct (have_depth_map (transform s1)); [exact I|].
    destruct alloc_ok; cbn [negb]; [|split; reflexivity].
    destruct file as [bufs|]; [|exact I].
    destruct (read_values _ _ _ bufs 0 _) as [[i dp]|[i dp]];
      [split; reflexivity|].
    destruct (negb _); [exact I|].
    destruct (depth_enabled _); exact I. }
  unfold res, handle_shimming_and_depth_correction. fold s1.
  unfold handle_depth_correction.
  destruct (depth_map_block _ _ _ _ _ _ _ _ _) as [b st|st];
    cbn [fst snd transform].
  - destruct Hblock as [-> Ha]. split; [discriminate|intros _].
    rewrite Ha. exact Hact.
  - split; [|discriminate]. intros _. split; [apply Hoff|].
    intros targetX targetY. unfold get_adjust_z. rewrite Hoff.
    rewrite !andb_false_r. reflexivity.
Qed.

Lemma master_disable_witness :
  (let gcode := mk_Gcode (fun c => Ascii.eqb c "Z"%char) (fun c => 0) in
   let res := handle_shimming_and_depth_correction 5 example_atof example_atof
                (fun v => v) gcode 0 0 true None
                (mk_shimming example_transform (tri_points example_shimming)
                             false) in
   active example_transform = true /\
   fst res = true /\ active (transform (snd res)) = false /\
   get_adjust_z 5 100 (transform (snd res)) 0 (- (100)) = Some 0) /\
  (let res := handle_shimming_and_depth_correction 2 example_atof example_atof
                (fun v => v) example_gcode_DEZ 0 0 true
                (Some example_file_out_of_range) example_shimming in
   active (transform example_shimming) = false /\
   fst res = false /\ active (transform (snd res)) = true).
Proof.
  split.
  - intros gcode res.
    destruct (master_disable 5 100 example_atof example_atof (fun v => v)
                gcode 0 0 true None
                (mk_shimming example_transform (tri_points example_shimming)
                             false)) as [H _]; [reflexivity | reflexivity |].
    split; [reflexivity|]. split; [reflexivity|].
    destruct (H eq_refl) as [Ha Hz]. split; [exact Ha | apply Hz].
  - intro res.
    destruct (master_disable 2 100 example_atof example_atof (fun v => v)
                example_gcode_DEZ 0 0 true (Some example_file_out_of_range)
                example_shimming) as [_ H]; [reflexivity | reflexivity |].
    split; [reflexivity|]. split; [reflexivity|].
    transitivity (plane_switch example_gcode_DEZ example_shimming
                  || active (transform example_shimming));
      [exact (H eq_refl) | reflexivity].
Defined.

(** ** Statistics *)

Lemma fold_left_map_arg {A B C : Type} (f : A -> C -> A) (h : B -> C)
      (l : list B) : forall a,
  fold_left f (map h l) a = fold_left (fun a x => f a (h x)) l a.
Proof. induction l as [|x l IH]; intro a; cbn; [reflexivity|apply IH]. Qed.

Lemma fold_left_pointwise {A B : Type} (f g : A -> B -> A) (l : list B) :
  (forall a x, f a x = g a x) ->
  forall a, fold_left f l a = fold_left g l a.
Proof.
  intro H. induction l as [|x l IH]; intro a; cbn; [reflexivity|].
  rewrite H. apply IH.
Qed.

Lemma fold_seq_nth {A B : Type} (g : A -> B -> A) (d : B) (l : list B) :
  forall (pre : list B) (a : A),
    fold_left (fun acc i => g acc (nth i (pre ++ l) d))
              (seq (List.length pre) (List.length l)) a
    = fold_left g l a.
Proof.
  induction l as [|x l IH]; intros pre a; [reflexivity|].
  cbn [List.length seq fold_left]. rewrite nth_middle.
  replace (pre ++ x :: l) with ((pre ++ [x]) ++ l)
    by (rewrite <- app_assoc; reflexivity).
  replace (S (List.length pre)) with (List.length (pre ++ [x]))
    by (rewrite length_app; cbn; lia).
  apply IH.
Qed.

(** A loop over the subscripts of an array is a fold over the array. *)
Lemma fold_subscripts {A B : Type} (g : A -> B -> A) (d : B) (l : list B) :
  forall a,
    fold_left (fun acc i => g acc (get d l i)) (Zrange (Z.of_nat (List.length l))) a
    = fold_left g l a.
Proof.
  intro a. unfold Zrange, get. rewrite Nat2Z.id, fold_left_map_arg.
  rewrite <- (fold_seq_nth g d l [] a). cbn [app List.length].
  apply fold_left_pointwise. intros acc i. rewrite Nat2Z.id. reflexivity.
Qed.

Lemma Qsum_cons (x : Q) (l : list Q) : Qsum (x :: l) = x + Qsum l.
Proof. reflexivity. Qed.

Lemma fold_sum (l : list Q) : forall a, fold_left Qplus l a == a + Qsum l.
Proof.
  unfold Qsum. induction l as [|x l IH]; intro a; cbn [fold_left fold_right].
  - ring.
  - rewrite IH. ring.
Qed.

Lemma Qsum_bounds (l : list Q) (lo hi : Q) :
  Forall (fun v => lo <= v <= hi) l ->
  inject_Z (Z.of_nat (List.length l)) * lo <= Qsum l
  <= inject_Z (Z.of_nat (List.length l)) * hi.
Proof.
  induction 1 as [|x l Hx Hl IH].
  - change (0 * lo <= 0 <= 0 * hi). split; lra.
  - rewrite Qsum_cons. cbn [List.length].
    rewrite Nat2Z.inj_succ. unfold Z.succ. rewrite inject_Z_plus.
    change (inject_Z 1) with 1. split; lra.
Qed.

Lemma Qsum_squares (l : list Q) (mu : Q) :
  0 <= Qsum (map (fun v => (v - mu) * (v - mu)) l) /\
  (Qsum (map (fun v => (v - mu) * (v - mu)) l) == 0 <->
   forall v, In v l -> v == mu).
Proof.
  induction l as [|x l [IH1 IH2]].
  - change (0 <= 0 /\ (0 == 0 <-> forall v, In v [] -> v == mu)).
    split; [lra|]. split; [intros _ v []|reflexivity].
  - cbn [map]. rewrite Qsum_cons.
    pose proof (Qsquare_nonneg (x - mu)) as Hx.
    split; [lra|]. split.
    + intro H.
      assert (E1 : (x - mu) * (x - mu) == 0) by lra.
      assert (E2 : Qsum (map (fun v => (v - mu) * (v - mu)) l) == 0) by lra.
      apply Qmult_integral in E1.
      intros v [<-|Hv]; [destruct E1; lra | apply IH2; assumption].
    + intro H.
      assert (E1 : x == mu) by (apply H; left; reflexivity).
      assert (E2 : Qsum (map (fun v => (v - mu) * (v - mu)) l) == 0)
        by (apply IH2; intros v Hv; apply H; right; exact Hv).
      rewrite E2, E1. ring.
Qed.

(** The running minimum and maximum of the first loop. *)
Lemma extremes_loop (l : list Q) :
  forall (mu mn mx : Q),
    let r := fold_left (fun (acc : Q * Q * Q) (v : Q) =>
                          let '(mu, mn, mx) := acc in
                          (mu + v,
                           (if Qlt_bool v mn then v else mn),
                           (if Qlt_bool mx v then v else mx)))
                       l (mu, mn, mx) in
    fst (fst r) == mu + Qsum l /\
    (snd (fst r) <= mn /\ Forall (fun v => snd (fst r) <= v) l /\
     (snd (fst r) = mn \/ In (snd (fst r)) l)) /\
    (mx <= snd r /\ Forall (fun v => v <= snd r) l /\
     (snd r = mx \/ In (snd r) l)).
Proof.
  induction l as [|x l IH]; intros mu mn mx.
  - cbn [fold_left fst snd]. change (Qsum []) with 0.
    split; [ring|]. split; (split; [lra|split; [constructor|left; reflexivity]]).
  - cbn [fold_left].
    specialize (IH (mu + x) (if Qlt_bool x mn then x else mn)
                   (if Qlt_bool mx x then x else mx)).
    cbv zeta in IH. destruct IH as (S1 & (A1 & A2 & A3) & (B1 & B2 & B3)).
    set (r := fold_left _ l _) in *. clearbody r.
    cbv zeta. rewrite Qsum_cons.
    split; [rewrite S1; ring|].
    assert (Hmn : (if Qlt_bool x mn then x else mn) <= mn /\
                  (if Qlt_bool x mn then x else mn) <= x) by (qcases; split; lra).
    assert (Hmx : mx <= (if Qlt_bool mx x then x else mx) /\
                  x <= (if Qlt_bool mx x then x else mx)) by (qcases; split; lra).
    split.
    + split; [lra|]. split; [constructor; [lra|exact A2]|].
      destruct A3 as [A3|A3]; [|right; right; exact A3].
      rewrite A3. destruct (Qlt_bool x mn); [right; left; reflexivity|left; reflexivity].
    + split; [lra|]. split; [constructor; [lra|exact B2]|].
      destruct B3 as [B3|B3]; [|right; right; exact B3].
      rewrite B3. destruct (Qlt_bool mx x); [right; left; reflexivity|left; reflexivity].
Qed.

(** [calc_statistics] as two folds over the array. *)
Lemma calc_statistics_folds (values : list float) :
  let n := Z.of_nat (List.length values) in
  let r := fold_left (fun (acc : Q * Q * Q) (v : Q) =>
                        let '(mu, mn, mx) := acc in
                        (mu + v,
                         (if Qlt_bool v mn then v else mn),
                         (if Qlt_bool mx v then v else mx)))
                     values (0, 999, - (999)) in
  let m := fst (fst r) / inject_Z n in
  calc_statistics values n =
  (m,
   fold_left (fun dev v => dev + (v - m) * (v - m)) values 0 / inject_Z n,
   snd (fst r), snd r).
Proof.
  intros n.
  set (g := fun (acc : Q * Q * Q) (v : Q) =>
              let '(mu, mn, mx) := acc in
              (mu + v,
               (if Qlt_bool v mn then v else mn),
               (if Qlt_bool mx v then v else mx))).
  intros r m.
  unfold calc_statistics.
  change (fold_left _ (Zrange n) (0, 999, - (999)))
    with (fold_left (fun acc i => g acc (get 0 values i))
                    (Zrange (Z.of_nat (List.length values))) (0, 999, - (999))).
  rewrite (fold_subscripts g 0 values). fold r.
  destruct r as [[s1 s2] s3] eqn:Er. cbn [fst snd] in m. fold m.
  change (fold_left _ (Zrange n) 0)
    with (fold_left (fun dev i => (fun dev v => dev + (v - m) * (v - m))
                                    dev (get 0 values i))
                    (Zrange (Z.of_nat (List.length values))) 0).
  rewrite (fold_subscripts (fun dev v => dev + (v - m) * (v - m)) 0 values).
  reflexivity.
Qed.

(** X16. The least and greatest value reported by [calc_statistics]
    bound every value of the array.  For a non-empty array of values
    within [-999, 999] each of the two is a value of the array; but
    when every value lies above 999 the reported minimum is the
    initial 999, and when every value lies below -999 the reported
    maximum is the initial -999. *)
Theorem calc_statistics_sound (values : list float) :
  let n := Z.of_nat (List.length values) in
  let mn := snd (fst (calc_statistics values n)) in
  let mx := snd (calc_statistics values n) in
  Forall (fun v => mn <= v <= mx) values /\
  (values <> [] -> Forall (fun v => - (999) <= v <= 999) values ->
   (exists v, In v values /\ v == mn) /\ (exists v, In v values /\ v == mx)) /\
  (Forall (fun v => 999 < v) values -> mn = 999) /\
  (Forall (fun v => v < - (999)) values -> mx = - (999)).
Proof.
  intros n mn mx.
  set (g := fun (acc : Q * Q * Q) (v : Q) =>
              let '(mu, mn, mx) := acc in
              (mu + v,
               (if Qlt_bool v mn then v else mn),
               (if Qlt_bool mx v then v else mx))).
  set (r := fold_left g values (0, 999, - (999))).
  pose proof (calc_statistics_folds values) as Hcs. cbv zeta in Hcs.
  fold n g in Hcs. fold r in Hcs.
  unfold mn, mx. rewrite Hcs. cbn [fst snd].
  destruct (extremes_loop values 0 999 (- (999)))
    as (_ & (A1 & A2 & A3) & (B1 & B2 & B3)).
  fold g in A1, A2, A3, B1, B2, B3. fold r in A1, A2, A3, B1, B2, B3.
  split; [|split; [|split]].
  - rewrite Forall_forall in *. intros v Hv.
    split; [apply A2|apply B2]; exact Hv.
  - intros Hne Hall. split.
    + destruct A3 as [A3|A3]; [|exists (snd (fst r)); split; [exact A3|reflexivity]].
      destruct values as [|x l]; [congruence|]. exists x.
      split; [left; reflexivity|].
      rewrite Forall_forall in Hall, A2.
      pose proof (Hall x (or_introl eq_refl)).
      pose proof (A2 x (or_introl eq_refl)).
      rewrite A3 in *. lra.
    + destruct B3 as [B3|B3]; [|exists (snd r); split; [exact B3|reflexivity]].
      destruct values as [|x l]; [congruence|]. exists x.
      split; [left; reflexivity|].
      rewrite Forall_forall in Hall, B2.
      pose proof (Hall x (or_introl eq_refl)).
      pose proof (B2 x (or_introl eq_refl)).
      rewrite B3 in *. lra.
  - intro Hhigh. destruct A3 as [A3|A3]; [exact A3|].
    rewrite Forall_forall in Hhigh. pose proof (Hhigh _ A3). lra.
  - intro Hlow. destruct B3 as [B3|B3]; [exact B3|].
    rewrite Forall_forall in Hlow. pose proof (Hlow _ B3). lra.
Qed.

Lemma calc_statistics_sound_witness :
  (let values := [1; 3; 2] in
   let mn := snd (fst (calc_statistics values 3)) in
   let mx := snd (calc_statistics values 3) in
   values <> [] /\ Forall (fun v => - (999) <= v <= 999) values /\
   Forall (fun v => mn <= v <= mx) values /\
   (exists v, In v values /\ v == mn) /\ (exists v, In v values /\ v == mx) /\
   mn == 1 /\ mx == 3) /\
  (let values := [1000; 2000] in
   Forall (fun v => 999 < v) values /\
   snd (fst (calc_statistics values 2)) = 999) /\
  (let values := [- (1000)] in
   Forall (fun v => v < - (999)) values /\
   snd (calc_statistics values 1) = - (999)).
Proof.
  split; [|split].
  - intros values mn mx.
    assert (Hne : values <> []) by discriminate.
    assert (Hall : Forall (fun v => - (999) <= v <= 999) values)
      by (repeat constructor; vm_compute; discriminate).
    destruct (calc_statistics_sound values) as (H1 & H2 & _).
    destruct (H2 Hne Hall) as [H3 H4].
    split; [exact Hne|]. split; [exact Hall|]. split; [exact H1|].
    split; [exact H3|]. split; [exact H4|]. split; reflexivity.
  - intro values.
    assert (Hhigh : Forall (fun v => 999 < v) values)
      by (repeat constructor).
    split; [exact Hhigh|].
    destruct (calc_statistics_sound values) as (_ & _ & H & _).
    exact (H Hhigh).
  - intro values.
    assert (Hlow : Forall (fun v => v < - (999)) values)
      by (repeat constructor).
    split; [exact Hlow|].
    destruct (calc_statistics_sound values) as (_ & _ & _ & H).
    exact (H Hlow).
Defined.

(** ** The stall detector of the annealer *)

Lemma shift_six (a0 a1 a2 a3 a4 a5 tempE : float) :
  write (shift_last_energy [a0; a1; a2; a3; a4; a5]) 0 tempE
  = [tempE; a0; a1; a2; a3; a4].
Proof. reflexivity. Qed.

Lemma Qsum_constant (l : list Q) (c : Q) :
  Forall (fun v => v == c) l ->
  Qsum l == inject_Z (Z.of_nat (List.length l)) * c.
Proof.
  intro H.
  assert (Hb : Forall (fun v => c <= v <= c) l).
  { rewrite Forall_forall in *. intros v Hv. rewrite (H v Hv). split; lra. }
  pose proof (Qsum_bounds l c c Hb). lra.
Qed.

(** Six equal samples have variance zero. *)
Lemma variance_of_equal (values : list float) (c : Q) :
  values <> [] -> Forall (fun v => v == c) values ->
  snd (fst (fst (calc_statistics values (Z.of_nat (List.length values))))) == 0.
Proof.
  intros Hne Hc.
  pose proof (calc_statistics_folds values) as Hcs. cbv zeta in Hcs.
  rewrite Hcs. cbn [fst snd].
  destruct (extremes_loop values 0 999 (- (999))) as (S1 & _).
  set (r := fold_left _ values (0, 999, - (999))) in *.
  set (n := Z.of_nat (List.length values)) in *.
  assert (Hn : 0 < inject_Z n).
  { unfold n. destruct values as [|x l]; [congruence|].
    rewrite <- (Zlt_Qlt 0). cbn [List.length]. lia. }
  set (m := fst (fst r) / inject_Z n) in *.
  assert (Hm : m == c).
  { unfold m. rewrite S1, (Qsum_constant values c Hc). fold n. field. lra. }
  pose proof (fold_sum (map (fun v => (v - m) * (v - m)) values) 0) as Hdev.
  rewrite fold_left_map_arg in Hdev.
  destruct (Qsum_squares values m) as [_ V2].
  assert (E : Qsum (map (fun v => (v - m) * (v - m)) values) == 0).
  { apply V2. rewrite Forall_forall in Hc. intros v Hv.
    rewrite (Hc v Hv), Hm. reflexivity. }
  rewrite Hdev, E. field. lra.
Qed.

(** X17. The stall detector keeps the six latest energies, newest
    first.  Until six have been recorded it never declares a stall: the
    loop is left only when the energy is within the global target.
    Once the buffer is full, six equal energies end the annealing. *)
Theorem housekeeping_stall (tempE : float) (l : energy_log) :
  List.length (last_energy l) = 6%nat ->
  (0 <= last_energy_count l <= 5)%Z ->
  let r := housekeeping tempE l in
  last_energy (snd r) = tempE :: firstn 5 (last_energy l) /\
  last_energy_count (snd r) = Z.min (last_energy_count l + 1) 5 /\
  ((last_energy_count l < 5)%Z -> fst r = Qle_bool tempE global_target) /\
  (last_energy_count l = 5%Z ->
   Forall (fun v => v == tempE) (firstn 5 (last_energy l)) -> fst r = true).
Proof.
  intros Hlen Hcount r.
  destruct (last_energy l) as [|a0 [|a1 [|a2 [|a3 [|a4 [|a5 [|a6 t]]]]]]] eqn:El;
    try discriminate.
  assert (Hbuf : write (shift_last_energy (last_energy l)) 0 tempE
                 = [tempE; a0; a1; a2; a3; a4])
    by (rewrite El; apply shift_six).
  unfold r, housekeeping. rewrite Hbuf. unfold LAST_ENERGY_N.
  destruct (Z.leb_spec 6 (last_energy_count l + 1)) as [Hfull|Hnot].
  - set (values := [tempE; a0; a1; a2; a3; a4]).
    destruct (calc_statistics values 6) as [[[mu sigma_sq] mn] mx] eqn:Ecs.
    assert (Hrest : last_energy
                      (snd (if Qlt_bool sigma_sq ((1 # 100) * (1 # 100))
                            then (true, mk_energy_log values (6 - 1))
                            else (Qle_bool tempE global_target,
                                  mk_energy_log values (6 - 1))))
                    = values /\
                    last_energy_count
                      (snd (if Qlt_bool sigma_sq ((1 # 100) * (1 # 100))
                            then (true, mk_energy_log values (6 - 1))
                            else (Qle_bool tempE global_target,
                                  mk_energy_log values (6 - 1))))
                    = 5%Z)
      by (destruct (Qlt_bool _ _); split; reflexivity).
    destruct Hrest as [H1 H2].
    split; [exact H1|]. split; [rewrite H2; lia|]. split; [lia|].
    intros _ Heq. cbn [firstn] in Heq.
    assert (Hall : Forall (fun v => v == tempE) values).
    { constructor; [reflexivity|exact Heq]. }
    pose proof (variance_of_equal values tempE ltac:(discriminate) Hall) as Hv.
    change (Z.of_nat (List.length values)) with 6%Z in Hv.
    rewrite Ecs in Hv. cbn [fst snd] in Hv.
    assert (Hlt : Qlt_bool sigma_sq ((1 # 100) * (1 # 100)) = true).
    { apply Qlt_bool_iff. rewrite Hv. reflexivity. }
    rewrite Hlt. reflexivity.
  - cbn [fst snd last_energy last_energy_count firstn].
    split; [reflexivity|]. split; [lia|]. split; [reflexivity|]. lia.
Qed.

Lemma housekeeping_stall_witness :
  let l := mk_energy_log [1; 1; 1; 1; 1; 2] 5 in
  let r := housekeeping 1 l in
  last_energy (snd r) = [1; 1; 1; 1; 1; 1] /\
  last_energy_count (snd r) = 5%Z /\ fst r = true.
Proof.
  intros l r.
  destruct (housekeeping_stall 1 l) as (H1 & H2 & _ & H4);
    [reflexivity | cbn; lia |].
  split; [exact H1|]. split; [exact H2|].
  apply H4; [reflexivity|]. repeat constructor.
Defined.

(** ** The arguments of the annealer *)

Lemma int_of_float_inject (z : Z) : int_of_float (inject_Z z) = z.
Proof.
  unfold int_of_float. destruct (Qlt_bool (inject_Z z) 0).
  - unfold Qceiling. rewrite <- inject_Z_opp, Qfloor_Z. lia.
  - apply Qfloor_Z.
Qed.

Lemma clamp_tries (t : Z) :
  int_of_float (clamp (inject_Z t) 10 1000) = Z.max 10 (Z.min t 1000).
Proof.
  unfold clamp, fmax, fmin.
  change 10 with (inject_Z 10). change 1000 with (inject_Z 1000).
  destruct (Qlt_bool (inject_Z 1000) (inject_Z t)) eqn:E1;
    [apply Qlt_bool_iff in E1 | apply Qlt_bool_false_iff in E1];
    (rewrite <- ?Zlt_Qlt, <- ?Zle_Qle in E1).
  - replace (Qlt_bool (inject_Z 10) (inject_Z 1000)) with true by reflexivity.
    rewrite int_of_float_inject. lia.
  - destruct (Qlt_bool (inject_Z 10) (inject_Z t)) eqn:E2;
      [apply Qlt_bool_iff in E2 | apply Qlt_bool_false_iff in E2];
      (rewrite <- ?Zlt_Qlt, <- ?Zle_Qle in E2);
      rewrite int_of_float_inject; lia.
Qed.

(** X18. After the sanity check at the head of [heuristic_calibration]
    the number of tries is the given one forced into 10..1000, and the
    temperature of every try lies between 0.01 and the larger of 0.01
    and the clamped maximum (itself within 0..2); it starts at that
    larger value and never rises from one try to the next. *)
Theorem annealing_temp_schedule (a : annealing_args) (c : Caltype.t) :
  let a' := fst (sanity_check a c) in
  let tries := annealing_tries a' in
  let top := max_temp a' in
  tries = Z.max 10 (Z.min (annealing_tries a) 1000) /\
  0 <= top <= 2 /\
  annealing_temp 0 tries top == Qmax (1 # 100) top /\
  forall annealing_try, (0 <= annealing_try < tries)%Z ->
    1 # 100 <= annealing_temp annealing_try tries top <= Qmax (1 # 100) top /\
    annealing_temp (annealing_try + 1) tries top
    <= annealing_temp annealing_try tries top.
Proof.
  intros a' tries top.
  assert (Ht : tries = Z.max 10 (Z.min (annealing_tries a) 1000))
    by apply clamp_tries.
  assert (Htop : 0 <= top <= 2) by (apply clamp_range; lra).
  assert (Hpos : 0 < inject_Z tries) by (rewrite <- (Zlt_Qlt 0); lia).
  assert (Hfrac : forall k, (0 <= k <= tries)%Z ->
            0 <= inject_Z k / inject_Z tries <= 1).
  { intros k Hk. split.
    - apply Qle_shift_div_l; [exact Hpos|]. rewrite Qmult_0_l.
      rewrite <- (Zle_Qle 0). lia.
    - apply Qle_shift_div_r; [exact Hpos|]. rewrite Qmult_1_l.
      rewrite <- Zle_Qle. lia. }
  assert (Hraw : forall k, (0 <= k <= tries)%Z ->
            0 <= top - inject_Z k / inject_Z tries * top <= top).
  { intros k Hk. destruct (Hfrac k Hk) as [F1 F2].
    assert (P1 : 0 <= inject_Z k / inject_Z tries * top)
      by (apply Qmult_le_0_compat; lra).
    assert (P2 : 0 <= (1 - inject_Z k / inject_Z tries) * top)
      by (apply Qmult_le_0_compat; lra).
    split; lra. }
  split; [exact Ht|]. split; [exact Htop|]. split.
  { unfold annealing_temp.
    assert (Et : top - inject_Z 0 / inject_Z tries * top == top)
      by (field; lra).
    set (t := top - inject_Z 0 / inject_Z tries * top) in *. clearbody t.
    destruct (Q.max_spec (1 # 100) top) as [[L M]|[L M]]; rewrite M;
      qcases; lra. }
  intros k Hk. unfold annealing_temp.
  destruct (Hraw k ltac:(lia)) as [R1 R2].
  destruct (Hraw (k + 1)%Z ltac:(lia)) as [R3 R4].
  assert (Hstep : top - inject_Z (k + 1) / inject_Z tries * top
                  <= top - inject_Z k / inject_Z tries * top).
  { rewrite inject_Z_plus. change (inject_Z 1) with 1.
    assert (P : 0 <= 1 / inject_Z tries * top).
    { apply Qmult_le_0_compat; [|lra]. apply Qle_shift_div_l; lra. }
    setoid_replace ((inject_Z k + 1) / inject_Z tries * top)
      with (inject_Z k / inject_Z tries * top + 1 / inject_Z tries * top)
      by (field; lra).
    lra. }
  pose proof (Q.le_max_l (1 # 100) top) as M1.
  pose proof (Q.le_max_r (1 # 100) top) as M2.
  set (t0 := top - inject_Z k / inject_Z tries * top) in *.
  set (t1 := top - inject_Z (k + 1) / inject_Z tries * top) in *.
  clearbody t0 t1.
  split; [split|]; qcases; lra.
Qed.

Lemma sanitize_spec (e : Caltype.entry) :
  let e' := Caltype.sanitize e in
  Caltype.active e' = Caltype.active e /\
  0 <= Caltype.annealing_temp_mul e' <= 50 /\
  (Caltype.annealing_temp_mul e == 0 -> Caltype.annealing_temp_mul e' == 1) /\
  (Caltype.annealing_temp_mul e < 0 -> Caltype.annealing_temp_mul e' == 0) /\
  (0 < Caltype.annealing_temp_mul e <= 50 ->
   Caltype.annealing_temp_mul e' == Caltype.annealing_temp_mul e).
Proof.
  unfold Caltype.sanitize. cbn [Caltype.active Caltype.annealing_temp_mul].
  set (v := Caltype.annealing_temp_mul e). clearbody v.
  split; [reflexivity|]. split; [apply clamp_range; lra|].
  destruct (Qeq_bool v 0) eqn:E.
  - apply Qeq_bool_iff in E. split; [intros _; apply clamp_id; lra|].
    split; intro H; lra.
  - assert (Hn : ~ v == 0) by (intro H; apply Qeq_bool_iff in H; congruence).
    split; [intro H; contradiction|]. split.
    + intro H. apply clamp_low; lra.
    + intro H. apply clamp_id; lra.
Qed.

(** X19. [G31] with arguments but without [A] or [Z] always hands
    [heuristic_calibration] at least one active calibration type
    (endstops and delta radius when no letter of O, P, Q, R, S is
    given), and after the sanity check every multiplier lies in
    [0, 50]: a given 0 becomes 1, but a negative one becomes 0. *)
Theorem annealing_multipliers
        (gcode : Gcode) (num_args : Z) (c : Caltype.t) (a : annealing_args) :
  (0 < num_args)%Z ->
  let c1 := fst (select_calibration gcode num_args c) in
  let c2 := snd (sanity_check a c1) in
  snd (select_calibration gcode num_args c) <> None /\
  Caltype.any_active c2 = true /\
  (has_letter gcode "O"%char = false -> has_letter gcode "P"%char = false ->
   has_letter gcode "Q"%char = false -> has_letter gcode "R"%char = false ->
   has_letter gcode "S"%char = false ->
   Caltype.active (Caltype.endstop c2) = true /\
   Caltype.active (Caltype.delta_radius c2) = true /\
   Caltype.active (Caltype.arm_length c2) = false /\
   Caltype.active (Caltype.tower_angle c2) = false /\
   Caltype.active (Caltype.virtual_shimming c2) = false) /\
  Forall (fun e => 0 <= Caltype.annealing_temp_mul e <= 50)
         [Caltype.endstop c2; Caltype.delta_radius c2; Caltype.arm_length c2;
          Caltype.tower_angle c2; Caltype.virtual_shimming c2] /\
  (has_letter gcode "O"%char = true ->
   Caltype.active (Caltype.endstop c2) = true /\
   (get_value gcode "O"%char == 0 ->
    Caltype.annealing_temp_mul (Caltype.endstop c2) == 1) /\
   (get_value gcode "O"%char < 0 ->
    Caltype.annealing_temp_mul (Caltype.endstop c2) == 0) /\
   (0 < get_value gcode "O"%char <= 50 ->
    Caltype.annealing_temp_mul (Caltype.endstop c2)
    == get_value gcode "O"%char)).
Proof.
  intros Hargs c1 c2.
  assert (Hpos : (0 <? num_args)%Z = true) by (apply Z.ltb_lt; exact Hargs).
  unfold c2, c1, select_calibration. rewrite Hpos.
  unfold Caltype.from_letter, clear_calibration_types, Caltype.deactivate.
  cbn [Caltype.endstop Caltype.delta_radius Caltype.arm_length
       Caltype.tower_angle Caltype.virtual_shimming
       Caltype.active Caltype.annealing_temp_mul].
  split; [cbn; discriminate|].
  destruct (has_letter gcode "O"%char) eqn:EO,
           (has_letter gcode "P"%char) eqn:EP,
           (has_letter gcode "Q"%char) eqn:EQ,
           (has_letter gcode "R"%char) eqn:ER,
           (has_letter gcode "S"%char) eqn:ES;
    cbn [Caltype.any_active Caltype.active Caltype.endstop Caltype.delta_radius
         Caltype.arm_length Caltype.tower_angle Caltype.virtual_shimming
         Caltype.activate Caltype.annealing_temp_mul
         orb negb fst snd sanity_check Caltype.sanitize];
    (split; [reflexivity|]);
    (split; [intros; (discriminate || (repeat split; reflexivity))|]);
    (split; [repeat (apply Forall_cons; [apply clamp_range; lra|]);
             apply Forall_nil|]);
    intro HO; try discriminate;
    (split; [reflexivity|]);
    destruct (sanitize_spec (Caltype.mk_entry true (get_value gcode "O"%char)))
      as (_ & _ & Z0 & Zn & Zp);
    exact (conj Z0 (conj Zn Zp)).
Qed.

Lemma annealing_multipliers_witness :
  let gcode := mk_Gcode (fun c => Ascii.eqb c "O"%char) (fun c => - (3)) in
  let c := Caltype.mk (Caltype.mk_entry false 0) (Caltype.mk_entry false 0)
             (Caltype.mk_entry false 0) (Caltype.mk_entry false 0)
             (Caltype.mk_entry false 0) in
  let a := mk_annealing_args 50 (35 # 100) (1 # 10) 2 false false false in
  let c2 := snd (sanity_check a (fst (select_calibration gcode 1 c))) in
  Caltype.active (Caltype.endstop c2) = true /\
  Caltype.annealing_temp_mul (Caltype.endstop c2) == 0.
Proof.
  intros gcode c a c2.
  destruct (annealing_multipliers gcode 1 c a) as (_ & _ & _ & _ & H);
    [lia|].
  destruct (H eq_refl) as (H1 & _ & H3 & _).
  split; [exact H1 | apply H3; reflexivity].
Defined.

(** ** Probing *)




Section ProbeFacts.

Variable run_probe : Z -> option Z.
Variables lo hi : Z.
Hypothesis readings_low : (- 2 ^ 27 <= lo)%Z.
Hypothesis readings_high : (hi < 2 ^ 27)%Z.


End ProbeFacts.



(** Beyond that bound the accumulator wraps around: two readings of
    2^30 steps average to -2^30, and the call reports failure. *)
Example do_probe_at_wraps :
  do_probe_at (fun _ => Some (2 ^ 30)%Z) (config_probe_smoothing 2) false
  = Some (false, (- 2 ^ 30)%Z).
Proof. vm_compute. reflexivity. Qed.

(** ** The prefix stack *)

Lemma prefix_op_bounds (MP_MAX_PREFIXES : Z) (op : prefix_op) (p : prefixes) :
  (0 <= method_prefix_idx p < MP_MAX_PREFIXES)%Z ->
  Z.of_nat (List.length (method_prefix p)) = MP_MAX_PREFIXES ->
  let p' := match op with
            | Push mp => push_prefix MP_MAX_PREFIXES mp p
            | Pop => pop_prefix p
            end in
  (0 <= method_prefix_idx p' < MP_MAX_PREFIXES)%Z /\
  List.length (method_prefix p') = List.length (method_prefix p) /\
  get [] (method_prefix p') 0 = get [] (method_prefix p) 0.
Proof.
  intros Hidx Hlen. destruct op as [mp|]; cbv zeta.
  - unfold push_prefix.
    destruct (Z.ltb_spec (method_prefix_idx p + 1) MP_MAX_PREFIXES) as [H|H];
      [|repeat split; lia].
    cbn [method_prefix method_prefix_idx]. split; [lia|].
    split; [apply write_length|].
    rewrite get_write by lia.
    destruct (Z.eqb_spec 0 (method_prefix_idx p + 1)); [lia|reflexivity].
  - unfold pop_prefix.
    destruct (Z.ltb_spec 0 (method_prefix_idx p)) as [H|H];
      [|repeat split; lia].
    cbn [method_prefix method_prefix_idx]. repeat split; lia.
Qed.

(** X21. From an index inside the prefix array, no run of
    [push_prefix] and [pop_prefix] takes the index outside it or
    overwrites the bottom entry; a push on a stack that is not full
    followed by a pop restores the index and every entry up to it; a
    push on a full stack changes nothing. *)
Theorem prefix_stack_bounds
        (MP_MAX_PREFIXES : Z) (ops : list prefix_op) (p : prefixes) :
  (0 <= method_prefix_idx p < MP_MAX_PREFIXES)%Z ->
  Z.of_nat (List.length (method_prefix p)) = MP_MAX_PREFIXES ->
  let p' := run_prefix_ops MP_MAX_PREFIXES ops p in
  ((0 <= method_prefix_idx p' < MP_MAX_PREFIXES)%Z /\
   List.length (method_prefix p') = List.length (method_prefix p) /\
   get [] (method_prefix p') 0 = get [] (method_prefix p) 0) /\
  (forall mp,
     (method_prefix_idx p + 1 < MP_MAX_PREFIXES)%Z ->
     let q := pop_prefix (push_prefix MP_MAX_PREFIXES mp p) in
     method_prefix_idx q = method_prefix_idx p /\
     forall i, (0 <= i <= method_prefix_idx p)%Z ->
       get [] (method_prefix q) i = get [] (method_prefix p) i) /\
  (forall mp,
     (method_prefix_idx p + 1 = MP_MAX_PREFIXES)%Z ->
     push_prefix MP_MAX_PREFIXES mp p = p).
Proof.
  intros Hidx Hlen p'. split; [|split].
  - unfold p', run_prefix_ops. clear p'. revert p Hidx Hlen.
    induction ops as [|op ops IH]; intros p Hidx Hlen.
    + cbn. repeat split; lia.
    + cbn [fold_left].
      destruct (prefix_op_bounds MP_MAX_PREFIXES op p Hidx Hlen) as (B1 & B2 & B3).
      cbv zeta in B1, B2, B3.
      set (p1 := match op with
                 | Push mp => push_prefix MP_MAX_PREFIXES mp p
                 | Pop => pop_prefix p
                 end) in *.
      destruct (IH p1 B1) as (C1 & C2 & C3); [rewrite B2; exact Hlen|].
      split; [exact C1|]. split; [rewrite C2; exact B2|rewrite C3; exact B3].
  - intros mp Hroom q. unfold q, push_prefix.
    destruct (Z.ltb_spec (method_prefix_idx p + 1) MP_MAX_PREFIXES) as [H|H];
      [|lia].
    unfold pop_prefix. cbn [method_prefix method_prefix_idx].
    destruct (Z.ltb_spec 0 (method_prefix_idx p + 1)) as [H0|H0]; [|lia].
    cbn [method_prefix method_prefix_idx]. split; [lia|].
    intros i Hi. rewrite get_write by lia.
    destruct (Z.eqb_spec i (method_prefix_idx p + 1)); [lia|reflexivity].
  - intros mp Hfull. unfold push_prefix.
    destruct (Z.ltb_spec (method_prefix_idx p + 1) MP_MAX_PREFIXES) as [H|H];
      [lia|reflexivity].
Qed.

Lemma prefix_stack_bounds_witness :
  let p := mk_prefixes [[]; []; []] 0 in
  let ops := [Push (String.String "D"%char (String.String "M"%char
                      String.EmptyString)); Pop; Pop; Pop] in
  let p' := run_prefix_ops 3 ops p in
  (0 <= method_prefix_idx p' < 3)%Z /\
  List.length (method_prefix p') = 3%nat /\
  get [] (method_prefix p') 0 = [].
Proof.
  intros p ops p'.
  destruct (prefix_stack_bounds 3 ops p) as [H _]; [cbn; lia | reflexivity |].
  exact H.
Defined.

(** ** Virtual shimming *)

(** X22. [get_virtual_shimming] after [set_virtual_shimming(x, y, z)]
    reads back [(x, y, z)]; the corners of the triangle keep their
    positions; shims that are all zero set the plane to the normal
    (0, 0, 1) with offset 0 and leave the switches alone, any other
    shims switch the plane and the surface transform on. *)
Theorem virtual_shimming_round_trip
        (Vector3_unit : vec3 -> vec3) (x y z : float) (update : bool)
        (s : shimming_t) :
  let s' := set_virtual_shimming Vector3_unit x y z update s in
  veq (get_virtual_shimming s') (x, y, z) /\
  have_normal s' = true /\
  (forall k, vget (tri_get (tri_points s') k) X
             = vget (tri_get (tri_points s) k) X /\
             vget (tri_get (tri_points s') k) Y
             = vget (tri_get (tri_points s) k) Y) /\
  (x == 0 /\ y == 0 /\ z == 0 ->
   normal (transform s') = (0, 0, 1) /\ d (transform s') = 0 /\
   plane_enabled (transform s') = plane_enabled (transform s) /\
   active (transform s') = active (transform s)) /\
  (~ (x == 0 /\ y == 0 /\ z == 0) ->
   plane_enabled (transform s') = true /\ active (transform s') = true).
Proof.
  intro s'. unfold s', set_virtual_shimming, get_virtual_shimming.
  destruct (tri_points s) as [[[[ax ay] az] [[bx by_] bz]] [[cx cy] cz]].
  destruct (Qeq_bool x 0) eqn:Ex; [|cbn [andb]].
  - destruct (Qeq_bool y 0) eqn:Ey; [|cbn [andb]].
    + destruct (Qeq_bool z 0) eqn:Ez; cbn [andb].
      * apply Qeq_bool_iff in Ex, Ey, Ez.
        cbn [transform tri_points have_normal with_plane plane_enabled normal d
             active tri_get vset vget].
        split.
        { destruct (plane_enabled (transform s)); cbn [veq];
            repeat split; (reflexivity || (symmetry; assumption)). }
        split; [reflexivity|].
        split; [intros []; split; reflexivity|].
        split; [intros _; repeat split|].
        intro Hn. exfalso. apply Hn. repeat split; assumption.
      * cbn. split; [repeat split; reflexivity|]. split; [reflexivity|].
        split; [intros []; split; reflexivity|]. split.
        -- intros (_ & _ & Hz). apply Qeq_bool_iff in Hz. congruence.
        -- intros _. split; reflexivity.
    + cbn. split; [repeat split; reflexivity|]. split; [reflexivity|].
      split; [intros []; split; reflexivity|]. split.
      * intros (_ & Hy & _). apply Qeq_bool_iff in Hy. congruence.
      * intros _. split; reflexivity.
  - cbn. split; [repeat split; reflexivity|]. split; [reflexivity|].
    split; [intros []; split; reflexivity|]. split.
    + intros (Hx & _). apply Qeq_bool_iff in Hx. congruence.
    + intros _. split; reflexivity.
Qed.

(** X23. When [Vector3::unit] returns a positive multiple of its
    argument and the three corners of the shimming triangle are not on
    one line, the plane set by [set_virtual_shimming(x, y, z)] passes
    through the three corners: with depth correction off and the
    surface transform active, [get_adjust_z] at the position of a
    corner returns the shim given for it. *)
Theorem virtual_shimming_plane_through_corners
        (DM_GRID_DIMENSION : Z) (probe_radius : float)
        (Vector3_unit : vec3 -> vec3) (x y z : float) (update : bool)
        (s : shimming_t) :
  (forall v, exists k, 0 < k /\
     Vector3_unit v = (k * vget v X, k * vget v Y, k * vget v Z_)) ->
  ~ (vget (tri_get (tri_points s) X) X - vget (tri_get (tri_points s) Y) X)
    * (vget (tri_get (tri_points s) X) Y - vget (tri_get (tri_points s) Z_) Y)
    - (vget (tri_get (tri_points s) X) Y - vget (tri_get (tri_points s) Y) Y)
      * (vget (tri_get (tri_points s) X) X - vget (tri_get (tri_points s) Z_) X)
    == 0 ->
  depth_enabled (transform s) = false ->
  plane_enabled (transform s) = true -> active (transform s) = true ->
  let s' := set_virtual_shimming Vector3_unit x y z update s in
  forall k,
    exists v,
      get_adjust_z DM_GRID_DIMENSION probe_radius (transform s')
                   (vget (tri_get (tri_points s') k) X)
                   (vget (tri_get (tri_points s') k) Y) = Some v /\
      v == vget (x, y, z) k.
Proof.
  intros Hunit Hline Hdepth Hplane Hactive s' k.
  unfold s', set_virtual_shimming, get_adjust_z.
  destruct (tri_points s) as [[[[ax ay] az] [[bx by_] bz]] [[cx cy] cz]].
  cbn [tri_get vget] in Hline.
  destruct (Qeq_bool x 0 && Qeq_bool y 0 && Qeq_bool z 0) eqn:E0.
  - apply andb_true_iff in E0. destruct E0 as [E0 Ez].
    apply andb_true_iff in E0. destruct E0 as [Ex Ey].
    apply Qeq_bool_iff in Ex, Ey, Ez.
    cbn [transform tri_points with_plane plane_enabled active depth_enabled
         normal d].
    rewrite Hplane, Hactive, Hdepth. cbn [andb].
    eexists. split; [reflexivity|].
    cbv beta iota zeta.
    destruct k; cbn [vget tri_get vset]; rewrite ?Ex, ?Ey, ?Ez; field.
  - cbn [transform tri_points with_plane with_plane_enabled set_adjust_function
         plane_enabled active depth_enabled normal d tri_get vset vget].
    rewrite Hdepth. cbn [andb].
    cbn [Vector3_sub Vector3_cross].
    destruct (Hunit ((ay - by_) * (x - z) - (x - y) * (ay - cy),
                     (x - y) * (ax - cx) - (ax - bx) * (x - z),
                     (ax - bx) * (ay - cy) - (ay - by_) * (ax - cx)))
      as (q & Hq & ->).
    cbn [vget Vector3_mul].
    eexists. split; [reflexivity|]. cbv beta iota zeta.
    destruct k; cbn [tri_get vset vget]; field; split; lra.
Qed.

Lemma virtual_shimming_plane_through_corners_witness :
  let unit := fun v : vec3 => (1 * vget v X, 1 * vget v Y, 1 * vget v Z_) in
  let s := mk_shimming
             (mk_surface_transform [] false false true true (0, 0, 1) 0)
             ((- (86), - (50), 0), (86, - (50), 0), (0, 100, 0)) false in
  let s' := set_virtual_shimming unit 1 2 3 false s in
  (exists v, get_adjust_z 5 100 (transform s') (- (86)) (- (50)) = Some v /\
             v == 1) /\
  (exists v, get_adjust_z 5 100 (transform s') 86 (- (50)) = Some v /\
             v == 2) /\
  (exists v, get_adjust_z 5 100 (transform s') 0 100 = Some v /\ v == 3).
Proof.
  intros unit s s'.
  assert (H : forall k,
            exists v,
              get_adjust_z 5 100 (transform s')
                           (vget (tri_get (tri_points s') k) X)
                           (vget (tri_get (tri_points s') k) Y) = Some v /\
              v == vget (1, 2, 3) k).
  { apply (virtual_shimming_plane_through_corners 5 100 unit 1 2 3 false s).
    - intro v. exists 1. split; [lra|reflexivity].
    - intro H. vm_compute in H. discriminate.
    - reflexivity.
    - reflexivity.
    - reflexivity. }
  split; [exact (H X)|]. split; [exact (H Y)|exact (H Z_)].
Defined.

(** ** Simulated kinematics *)

Lemma get_map_Zrange {A : Type} (f : Z -> A) (d : A) (n i : Z) :
  (0 <= i < n)%Z -> get d (map f (Zrange n)) i = f i.
Proof.
  intro Hi. unfold get.
  rewrite (nth_indep _ d (f 0%Z))
    by (rewrite length_map, Zrange_length; lia).
  rewrite (map_nth f). rewrite Zrange_nth by lia. f_equal. lia.
Qed.

Lemma Qsum_map_ext (f g : Z -> Q) (l : list Z) :
  (forall i, In i l -> f i == g i) -> Qsum (map f l) == Qsum (map g l).
Proof.
  induction l as [|x l IH]; intro H; [reflexivity|].
  cbn [map]. rewrite !Qsum_cons.
  rewrite (H x (or_introl eq_refl)), IH; [reflexivity|].
  intros i Hi. apply H. right. exact Hi.
Qed.

(** The energy depends on the heights of the Active points only. *)
Lemma calc_energy_ext (DM_GRID_DIMENSION : Z) (ap : list active_point_t)
      (c1 c2 : list vec3) :
  (forall i, (0 <= i < DM_GRID_ELEMENTS DM_GRID_DIMENSION)%Z ->
             get TP_INACTIVE ap i = TP_ACTIVE ->
             rel_height c1 i == rel_height c2 i) ->
  calc_energy DM_GRID_DIMENSION ap c1 == calc_energy DM_GRID_DIMENSION ap c2.
Proof.
  intro H. unfold calc_energy.
  destruct (calc_energy_loop ap c1 (Zrange (DM_GRID_ELEMENTS DM_GRID_DIMENSION))
              0 0%Z) as [M1 I1].
  destruct (calc_energy_loop ap c2 (Zrange (DM_GRID_ELEMENTS DM_GRID_DIMENSION))
              0 0%Z) as [M2 I2].
  destruct (fold_left (calc_energy_step ap c1) _ _) as [mu1 i1].
  destruct (fold_left (calc_energy_step ap c2) _ _) as [mu2 i2].
  cbn [fst snd] in *. subst i1 i2.
  apply Qdiv_comp; [|reflexivity].
  rewrite M1, M2. apply Qplus_comp; [reflexivity|].
  apply Qsum_map_ext. intros i Hi. apply filter_In in Hi. destruct Hi as [Hi Ha].
  apply Zrange_In in Hi.
  assert (E : get TP_INACTIVE ap i = TP_ACTIVE)
    by (destruct (get TP_INACTIVE ap i); (reflexivity || discriminate)).
  rewrite (H i Hi E). reflexivity.
Qed.

Lemma plane_offset_comp (st : surface_transform_t) (x x' y y' : float) :
  x == x' -> y == y' -> plane_offset st x y == plane_offset st x' y'.
Proof.
  intros Hx Hy. unfold plane_offset. destruct (normal st) as [[nx ny] nz].
  rewrite Hx, Hy. reflexivity.
Qed.

(** X24. If the arm solution's [actuator_to_cartesian] undoes its
    [cartesian_to_actuator], the forward simulation of the axis
    positions produced by [simulate_IK], with the same trim and the
    same shimming plane, returns the energy of the depth map itself. *)
Theorem simulate_FK_inverts_IK
        (DM_GRID_DIMENSION : Z)
        (cartesian_to_actuator actuator_to_cartesian : vec3 -> vec3)
        (g : grid) (st : surface_transform_t)
        (depth_map : list cds_depths_t) (trim : vec3) :
  (forall p a, veq a (cartesian_to_actuator p) ->
               veq (actuator_to_cartesian a) p) ->
  let ik := Kinematics.simulate_IK DM_GRID_DIMENSION cartesian_to_actuator
              g st depth_map trim in
  fst (Kinematics.simulate_FK_and_get_energy DM_GRID_DIMENSION
         actuator_to_cartesian g st (snd ik) trim (fst ik))
  == Kinematics.calc_energy_of_depths DM_GRID_DIMENSION g depth_map.
Proof.
  intros Hinv ik.
  unfold Kinematics.simulate_FK_and_get_energy,
         Kinematics.calc_energy_of_depths. cbn [fst].
  apply calc_energy_ext. intros i Hi Ha.
  unfold rel_height. rewrite !get_map_Zrange by exact Hi.
  cbn [vget].
  unfold Kinematics.simulate_FK_point. rewrite Ha. cbn [active_point_eqb].
  unfold ik, Kinematics.simulate_IK. cbn [snd fst].
  rewrite map_map, get_map_Zrange by exact Hi.
  unfold Kinematics.simulate_IK_point. rewrite Ha. cbn [active_point_eqb].
  set (cx := fst (get origin (test_point g) i)).
  set (cy := snd (get origin (test_point g) i)).
  set (cz := rel (get (mk_cds_depths 0 0) depth_map i)).
  set (pz := if plane_enabled st then cz + plane_offset st cx cy else cz).
  destruct (cartesian_to_actuator (cx, cy, pz)) as [[ax ay] az] eqn:Eik.
  cbn [snd].
  destruct trim as [[tx ty] tz]. cbn [vget].
  assert (Hfk : veq (actuator_to_cartesian
                       (ax + tx - tx, ay + ty - ty, az + tz - tz))
                    (cx, cy, pz)).
  { apply Hinv. rewrite Eik. cbn [veq]. repeat split; ring. }
  destruct (actuator_to_cartesian (ax + tx - tx, ay + ty - ty, az + tz - tz))
    as [[fx fy] fz].
  cbn [veq] in Hfk. destruct Hfk as (Fx & Fy & Fz).
  unfold pz in Fz.
  destruct (plane_enabled st); cbn [vget].
  - rewrite (plane_offset_comp st fx cx fy cy Fx Fy), Fz. ring.
  - exact Fz.
Qed.

Lemma simulate_FK_inverts_IK_witness :
  let depth_map := map (fun i => mk_cds_depths 0 (inject_Z i / 100)) (Zrange 25) in
  let ik := Kinematics.simulate_IK 5 (fun p => vset p Z_ (2 * vget p Z_))
              example_grid example_transform depth_map (0, - (1), - (2)) in
  fst (Kinematics.simulate_FK_and_get_energy 5
         (fun a => vset a Z_ (vget a Z_ / 2))
         example_grid example_transform (snd ik) (0, - (1), - (2)) (fst ik))
  == Kinematics.calc_energy_of_depths 5 example_grid depth_map.
Proof.
  intros depth_map.
  apply (simulate_FK_inverts_IK 5 (fun p => vset p Z_ (2 * vget p Z_))
           (fun a => vset a Z_ (vget a Z_ / 2)) example_grid example_transform
           depth_map (0, - (1), - (2))).
  intros [[px py] pz] [[ax ay] az]. cbn [veq vset vget].
  intros (Hx & Hy & Hz). repeat split; try assumption.
  rewrite Hz. field.
Defined.

(** ** Spreading the depth map to the rim *)

Section PropagateFacts.

Variable DM_GRID_DIMENSION : Z.
Variable ap : list active_point_t.
Hypothesis grid_side : (3 <= DM_GRID_DIMENSION)%Z.
Hypothesis grid_odd : Z.odd DM_GRID_DIMENSION = true.
Hypothesis ap_length :
  Z.of_nat (List.length ap) = DM_GRID_ELEMENTS DM_GRID_DIMENSION.

Local Abbreviation N := DM_GRID_DIMENSION.
Local Abbreviation c0 := ((DM_GRID_DIMENSION - 1) / 2)%Z.
Local Abbreviation inactive i :=
  (active_point_eqb (get TP_INACTIVE ap i) TP_INACTIVE).

Lemma quot_centre : Z.quot (N - 1) 2 = c0.
Proof. apply Z.quot_div_nonneg; lia. Qed.

Lemma inactive_iff (i : Z) :
  inactive i = true <-> get TP_INACTIVE ap i = TP_INACTIVE.
Proof. destruct (get TP_INACTIVE ap i); cbn; split; congruence. Qed.

Lemma propagate_cell_spec (dm_pos from : Z) (d : list float) :
  Z.of_nat (List.length d) = DM_GRID_ELEMENTS N ->
  (0 <= dm_pos < DM_GRID_ELEMENTS N)%Z -> (0 <= from < DM_GRID_ELEMENTS N)%Z ->
  exists d1,
    propagate_cell ap dm_pos from d = Some d1 /\
    List.length d1 = List.length d /\
    forall j, (0 <= j)%Z ->
      get 0 d1 j = if ((j =? dm_pos)%Z && inactive dm_pos)
                   then get 0 d from else get 0 d j.
Proof.
  intros Hlen Hpos Hfrom. unfold propagate_cell.
  rewrite (read_get TP_INACTIVE ap dm_pos) by lia.
  destruct (inactive dm_pos).
  - rewrite (read_get 0 d from) by lia. unfold store.
    destruct (Z.ltb_spec dm_pos 0); [lia|].
    destruct (Z.ltb_spec dm_pos (Z.of_nat (List.length d))); [|lia].
    eexists. split; [reflexivity|]. split; [apply write_length|].
    intros j Hj. rewrite get_write by lia. rewrite andb_true_r. reflexivity.
  - exists d. split; [reflexivity|]. split; [reflexivity|].
    intros j Hj. rewrite andb_false_r. reflexivity.
Qed.

Lemma propagate_turn_spec (y k : Z) (d0 d : list float) :
  (0 <= y < N)%Z -> (0 <= k <= c0)%Z ->
  Z.of_nat (List.length d0) = DM_GRID_ELEMENTS N ->
  row_done N ap y k d0 d ->
  exists d2,
    propagate_turn N ap y (Some d) k = Some d2 /\
    row_done N ap y (k + 1) d0 d2.
Proof.
  intros Hy Hk Hlen0 (Hlen & Hout & Hin).
  pose proof (centre_double N grid_odd) as Hd.
  unfold propagate_turn. rewrite quot_centre.
  set (R := (y * N + c0 + k)%Z). set (L := (y * N + c0 - k)%Z).
  assert (HR : (0 <= R < DM_GRID_ELEMENTS N)%Z)
    by (unfold R, DM_GRID_ELEMENTS; nia).
  assert (HL : (0 <= L < DM_GRID_ELEMENTS N)%Z)
    by (unfold L, DM_GRID_ELEMENTS; nia).
  assert (HR1 : (0 <= R - 1 < DM_GRID_ELEMENTS N)%Z)
    by (unfold R, DM_GRID_ELEMENTS; nia).
  assert (HL1 : (0 <= L + 1 < DM_GRID_ELEMENTS N)%Z)
    by (unfold L, DM_GRID_ELEMENTS; nia).
  assert (Hlend : Z.of_nat (List.length d) = DM_GRID_ELEMENTS N) by lia.
  destruct (propagate_cell_spec R (R - 1) d Hlend HR HR1) as (d1 & -> & Hl1 & G1).
  assert (Hlend1 : Z.of_nat (List.length d1) = DM_GRID_ELEMENTS N) by lia.
  destruct (propagate_cell_spec L (L + 1) d1 Hlend1 HL HL1) as (d2 & -> & Hl2 & G2).
  exists d2. split; [reflexivity|].
  assert (G : forall j, (0 <= j)%Z ->
            get 0 d2 j =
            if ((j =? L)%Z && inactive L) then get 0 d (L + 1)
            else if ((j =? R)%Z && inactive R) then get 0 d (R - 1)
            else get 0 d j).
  { intros j Hj. rewrite (G2 j Hj).
    destruct ((j =? L)%Z && inactive L).
    - rewrite (G1 (L + 1)%Z) by lia.
      destruct (Z.eqb_spec (L + 1) R) as [E|E]; [unfold L, R in E; lia|].
      reflexivity.
    - apply G1. exact Hj. }
  split; [lia|]. split.
  - intros j Hj Hw. rewrite (G j Hj).
    destruct (Z.eqb_spec j L) as [E|E]; [unfold L in E; lia|].
    destruct (Z.eqb_spec j R) as [E'|E']; [unfold R in E'; lia|].
    cbn [andb]. apply Hout; [exact Hj|]. lia.
  - intros c Hc i.
    assert (Hi : (0 <= i)%Z) by (unfold i; nia).
    destruct (Z.eq_dec c (c0 + k)) as [EcR|NcR];
      [|destruct (Z.eq_dec c (c0 - k)) as [EcL|NcL]].
    + (* the cell written by "propagate right" *)
      assert (Ei : i = R) by (unfold i, R; lia).
      rewrite Ei. rewrite (G R) by lia.
      destruct (Z.eqb_spec R L) as [ERL|NRL].
      * (* k = 0: the middle column *)
        assert (k = 0%Z) by (unfold R, L in ERL; lia).
        rewrite <- ERL. destruct (inactive R) eqn:EI; cbn [andb].
        -- split; [discriminate|]. intros _.
           split; [lia|]. split; [lia|]. intros _.
           apply Hout; [lia|unfold R; lia].
        -- rewrite Z.eqb_refl. cbn [andb].
           split; [|discriminate]. intros _.
           apply Hout; [lia|unfold R; lia].
      * rewrite Z.eqb_refl. destruct (inactive R) eqn:EI; cbn [andb].
        -- split; [discriminate|]. intros _.
           split; [lia|]. split; [|unfold R, L in NRL; lia]. intros _.
           rewrite (G (R - 1)%Z) by lia.
           destruct (Z.eqb_spec (R - 1) L) as [E|E]; [unfold R, L in E; lia|].
           destruct (Z.eqb_spec (R - 1) R) as [E'|E']; [lia|].
           reflexivity.
        -- split; [|discriminate]. intros _.
           apply Hout; [lia|unfold R; lia].
    + (* the cell written by "propagate left", k > 0 *)
      assert (Ei : i = L) by (unfold i, L; lia).
      assert (Hk0 : (0 < k)%Z) by lia.
      rewrite Ei. rewrite (G L) by lia. rewrite Z.eqb_refl.
      destruct (inactive L) eqn:EI; cbn [andb].
      * split; [discriminate|]. intros _.
        split; [|split; lia]. intros _.
        rewrite (G (L + 1)%Z) by lia.
        destruct (Z.eqb_spec (L + 1) L) as [E|E]; [lia|].
        destruct (Z.eqb_spec (L + 1) R) as [E'|E']; [unfold R, L in E'; lia|].
        reflexivity.
      * destruct (Z.eqb_spec L R) as [E|E]; [unfold R, L in E; lia|].
        cbn [andb]. split; [|discriminate]. intros _.
        apply Hout; [lia|unfold L; lia].
    + (* a cell done before *)
      assert (Hc' : (c0 - k < c < c0 + k)%Z) by lia.
      destruct (Hin c Hc') as [H1 H2]. fold i in H1, H2.
      assert (Gi : forall j, (y * N + c0 - k < j < y * N + c0 + k)%Z ->
                             get 0 d2 j = get 0 d j).
      { intros j Hj. rewrite (G j) by lia.
        destruct (Z.eqb_spec j L) as [E|E]; [unfold L in E; lia|].
        destruct (Z.eqb_spec j R) as [E'|E']; [unfold R in E'; lia|].
        reflexivity. }
      rewrite (Gi i) by (unfold i; lia).
      split; [exact H1|]. intro EI. destruct (H2 EI) as (H3 & H4 & H5).
      split; [|split].
      * intro Hlt. rewrite (Gi (i + 1)%Z) by (unfold i; lia). apply H3. exact Hlt.
      * intro Hgt. rewrite (Gi (i - 1)%Z) by (unfold i; lia). apply H4. exact Hgt.
      * exact H5.
Qed.

Lemma propagate_row_prefix (y : Z) (d0 : list float) (k : nat) :
  (0 <= y < N)%Z -> (Z.of_nat k <= c0 + 1)%Z ->
  Z.of_nat (List.length d0) = DM_GRID_ELEMENTS N ->
  exists d,
    fold_left (propagate_turn N ap y) (Zrange (Z.of_nat k)) (Some d0) = Some d /\
    row_done N ap y (Z.of_nat k) d0 d.
Proof.
  intros Hy Hk Hlen0. induction k as [|k IH].
  - exists d0. split; [reflexivity|]. split; [reflexivity|].
    split; [reflexivity|]. intros c Hc. lia.
  - destruct IH as (d & Hf & Hr); [lia|].
    rewrite Nat2Z.inj_succ. unfold Z.succ. rewrite Zrange_succ by lia.
    rewrite fold_left_app, Hf. cbn [fold_left].
    apply propagate_turn_spec; [exact Hy|lia|exact Hlen0|exact Hr].
Qed.

Lemma propagate_rows (d0 : list float) (y : nat) :
  (Z.of_nat y <= N)%Z ->
  Z.of_nat (List.length d0) = DM_GRID_ELEMENTS N ->
  exists d,
    fold_left (fun acc y =>
                 fold_left (propagate_turn N ap y)
                           (Zrange (Z.quot (N - 1) 2 + 1)) acc)
              (Zrange (Z.of_nat y)) (Some d0) = Some d /\
    List.length d = List.length d0 /\
    (forall j, (Z.of_nat y * N <= j)%Z -> get 0 d j = get 0 d0 j) /\
    forall r c, (0 <= r < Z.of_nat y)%Z -> (0 <= c < N)%Z ->
      let i := (r * N + c)%Z in
      (get TP_INACTIVE ap i <> TP_INACTIVE -> get 0 d i = get 0 d0 i) /\
      (get TP_INACTIVE ap i = TP_INACTIVE ->
       ((c < c0)%Z -> get 0 d i = get 0 d (i + 1)) /\
       ((c0 < c)%Z -> get 0 d i = get 0 d (i - 1)) /\
       (c = c0 -> get 0 d i = get 0 d0 (i + 1))).
Proof.
  intros Hy Hlen0. pose proof (centre_double N grid_odd) as Hd.
  induction y as [|y IH].
  - exists d0. split; [reflexivity|]. split; [reflexivity|].
    split; [reflexivity|]. intros r c Hr. lia.
  - destruct IH as (d & Hf & Hl & Hrest & Hdone); [lia|].
    rewrite Nat2Z.inj_succ. unfold Z.succ.
    rewrite (Zrange_succ (Z.of_nat y)) by lia.
    rewrite fold_left_app, Hf. cbn [fold_left]. rewrite quot_centre.
    destruct (propagate_row_prefix (Z.of_nat y) d (Z.to_nat (c0 + 1)))
      as (d' & Hf' & Hl' & Hout & Hin); [lia|lia|lia|].
    rewrite Z2Nat.id in Hf', Hout, Hin by lia.
    exists d'. split; [exact Hf'|]. split; [lia|]. split.
    + intros j Hj. rewrite Hout by nia. apply Hrest. nia.
    + intros r c Hr Hc. set (i := (r * N + c)%Z).
      assert (Hi : (0 <= i)%Z) by (unfold i; nia).
      destruct (Z.eq_dec r (Z.of_nat y)) as [Er|Nr].
      * subst r. assert (Hc' : (c0 - (c0 + 1) < c < c0 + (c0 + 1))%Z) by lia.
        destruct (Hin c Hc') as [H1 H2]. fold i in H1, H2.
        split.
        -- intro Ha. rewrite H1.
           ++ apply Hrest. unfold i. lia.
           ++ destruct (active_point_eqb (get TP_INACTIVE ap i) TP_INACTIVE) eqn:E;
                [|reflexivity].
              apply inactive_iff in E. contradiction.
        -- intro Ha. apply inactive_iff in Ha. destruct (H2 Ha) as (H3 & H4 & H5).
           split; [exact H3|]. split; [exact H4|].
           intro Ec. rewrite (H5 Ec). apply Hrest. unfold i. lia.
      * assert (Hr' : (0 <= r < Z.of_nat y)%Z) by lia.
        destruct (Hdone r c Hr' Hc) as [H1 H2]. fold i in H1, H2.
        assert (Gi : forall j, (0 <= j < Z.of_nat y * N)%Z ->
                               get 0 d' j = get 0 d j).
        { intros j Hj. apply Hout; lia. }
        rewrite (Gi i) by (unfold i; nia).
        split; [exact H1|]. intro Ha. destruct (H2 Ha) as (H3 & H4 & H5).
        split; [|split].
        -- intro Hlt. rewrite (Gi (i + 1)%Z) by (unfold i; nia). apply H3. exact Hlt.
        -- intro Hgt. rewrite (Gi (i - 1)%Z) by (unfold i; nia). apply H4. exact Hgt.
        -- exact H5.
Qed.

End PropagateFacts.

(** X25. [G31 A] on a circular surface, for an odd grid of side at
    least 3: the loops that spread the depth map stay inside both
    arrays and leave every Active, Centre and ActiveNeighbor cell as
    probed, while every Inactive cell ends with the depth of its
    neighbour towards the middle column.  On a square surface the map
    is left as it is. *)
Theorem propagate_outward_spreads
        (DM_GRID_DIMENSION : Z) (ap : list active_point_t) (depth : list float) :
  (3 <= DM_GRID_DIMENSION)%Z -> Z.odd DM_GRID_DIMENSION = true ->
  Z.of_nat (List.length ap) = DM_GRID_ELEMENTS DM_GRID_DIMENSION ->
  Z.of_nat (List.length depth) = DM_GRID_ELEMENTS DM_GRID_DIMENSION ->
  (exists depth',
     propagate_outward DM_GRID_DIMENSION PSS_CIRCLE ap depth = Some depth' /\
     propagated DM_GRID_DIMENSION ap depth depth') /\
  propagate_outward DM_GRID_DIMENSION PSS_SQUARE ap depth = Some depth.
Proof.
  intros HN Hodd Hap Hlen. split; [|reflexivity].
  destruct (propagate_rows DM_GRID_DIMENSION ap HN Hodd Hap depth
              (Z.to_nat DM_GRID_DIMENSION))
    as (d' & Hf & Hl & _ & Hdone); [lia|exact Hlen|].
  rewrite Z2Nat.id in Hf, Hdone by lia.
  exists d'. split; [exact Hf|]. split; [exact Hl|].
  intros r c Hr Hc. apply Hdone; assumption.
Qed.

Lemma propagate_outward_spreads_witness :
  (exists depth',
     propagate_outward 5 PSS_CIRCLE (active_point example_grid)
                       (depth example_transform) = Some depth' /\
     propagated 5 (active_point example_grid) (depth example_transform) depth') /\
  propagate_outward 5 PSS_SQUARE (active_point example_grid)
                    (depth example_transform) = Some (depth example_transform).
Proof.
  apply (propagate_outward_spreads 5 (active_point example_grid)
           (depth example_transform)); try reflexivity. lia.
Defined.
